(** * Inequality metrics and cleaning pipeline: a shallow embedding

    The definitions below follow [src/src/metrics.py],
    [src/src/data_cleaning.py] and [src/utils/data_models.py].

    Numbers.  A Python/NumPy float is read as an exact rational ([Q]);
    the two float results that are not rationals and that the code can
    produce on purpose ([float('inf')], and the quotients NumPy returns
    for a zero divisor) live in [pyfloat].  Equality of numbers is
    numeric equality ([==] on [Q]), as [==] is in Python. *)

From Stdlib Require Import QArith Qround Lia Lqa Ascii.
From stdpp Require Import base decidable list sorting strings pretty gmap.

Local Open Scope Q_scope.

(** ** Numbers *)

#[global] Instance Qeq_decision (x y : Q) : Decision (x == y).
Proof. unfold Qeq. apply _. Defined.
#[global] Instance Qle_decision (x y : Q) : Decision (x <= y).
Proof. unfold Qle. apply _. Defined.
#[global] Instance Qlt_decision (x y : Q) : Decision (x < y).
Proof. unfold Qlt. apply _. Defined.

(** [np.sum] *)
Definition np_sum (a : list Q) : Q := foldr Qplus 0 a.

(** [np.mean] *)
Definition np_mean (a : list Q) : Q := np_sum a / inject_Z (Z.of_nat (length a)).

(** [np.sort]: ascending, stable. *)
Definition np_sort (a : list Q) : list Q := merge_sort Qle a.

(** [np.arange(1, n + 1)] *)
Definition np_arange1 (n : nat) : list Q :=
  (λ i, inject_Z (Z.of_nat i)) <$> seq 1 n.

(** Python's two-argument [max(a, b)] and [min(a, b)]: the first
    argument is kept unless the second is strictly better. *)
Definition py_max (a b : Q) : Q := if decide (a < b) then b else a.
Definition py_min (a b : Q) : Q := if decide (b < a) then b else a.

(** [int(x)] on a float: truncation towards zero. *)
Definition py_int (x : Q) : Z := Z.quot (Qnum x) (Zpos (Qden x)).

(** [a[0]] on an array known to be non-empty. *)
Definition first (a : list Q) : Q := default 0 (head a).

(** [np.percentile(a, q)] with the default linear interpolation between
    closest ranks: the virtual index is [q/100 * (n-1)] in the sorted
    array. *)
Definition np_percentile (a : list Q) (q : Q) : Q :=
  let s := np_sort a in
  let n := length s in
  let h := q / 100 * inject_Z (Z.of_nat (n - 1)) in
  let lo := Z.to_nat (Qfloor h) in
  let hi := Nat.min (S lo) (n - 1) in
  let g := h - inject_Z (Qfloor h) in
  let xlo := default 0 (s !! lo) in
  let xhi := default 0 (s !! hi) in
  xlo + (xhi - xlo) * g.

(** Results that are floats but possibly not rationals. *)
Inductive pyfloat : Type :=
| Fin (q : Q)
| PosInf
| NegInf
| NaN.

(** Division of two NumPy [float64] scalars: a zero divisor gives an
    infinity or [nan] (with a warning), never an exception. *)
Definition np_div (a b : Q) : pyfloat :=
  if decide (b == 0) then
    if decide (0 < a) then PosInf
    else if decide (a < 0) then NegInf
    else NaN
  else Fin (a / b).

(** ** Errors

    Every failure of [metrics.py] is a [ValueError]; the constructor
    records which message, that is which kind of the error taxonomy. *)
Inductive error : Type :=
| EmptyInputError          (* "Values list cannot be empty" *)
| NoPositiveValuesError    (* "No positive values found" *)
| InsufficientDataError    (* "Need at least 10 values to calculate Palma ratio" *)
| ZeroTotalError           (* "Total income cannot be zero" *)
| InvalidParameterError    (* "Epsilon must be positive" *)
| KeyError (key : string)  (* a missing dictionary key *)
| UnknownMethodError (m : string) (* "Unknown method for handling missing values" *)
| TypeError                (* an operation applied to a value of the wrong type *)
| DanglingReference.       (* a reference to no object: never raised from a live one *)

Inductive result (A : Type) : Type :=
| Ok (a : A)
| Raise (e : error).
Arguments Ok {A} a.
Arguments Raise {A} e.

Definition rbind {A B} (r : result A) (k : A → result B) : result B :=
  match r with
  | Ok a => k a
  | Raise e => Raise e
  end.

Notation "x ←r e ; k" := (rbind e (λ x, k))
  (at level 100, e at next level, k at level 200, right associativity,
   format "x  ←r  e ;  '/' k").

(** ** metrics.py *)

(** [values[values > 0]] *)
Definition positive_values (values : list Q) : list Q :=
  filter (λ x, 0 < x) values.

(** The return statement by which [gini_coefficient] leaves. *)
Inductive gini_exit : Type :=
| ExitEmpty        (* line 29 *)
| ExitNoPositive   (* line 36 *)
| ExitSingle       (* line 43 *)
| ExitAllEqual     (* line 47 *)
| ExitOneNonZero   (* line 52 *)
| ExitFormula.     (* line 63 *)

(** The rank-weighted quotient of lines 57-60, on the sorted array. *)
Definition gini_formula (values : list Q) : Q :=
  let n := inject_Z (Z.of_nat (length values)) in
  let numerator :=
    2 * np_sum (zip_with Qmult (np_arange1 (length values)) values)
    - (n + 1) * np_sum values in
  let denominator := n * np_sum values in
  numerator / denominator.

(** [gini_coefficient], with the exit it takes. *)
Definition gini_trace (values : list Q) : gini_exit * result Q :=
  if decide (values = []) then (ExitEmpty, Raise EmptyInputError) else
  let values := positive_values values in
  if decide (length values = 0%nat) then (ExitNoPositive, Raise NoPositiveValuesError) else
  let values := np_sort values in
  let n := length values in
  if decide (n = 1%nat) then (ExitSingle, Ok 0) else
  if decide (Forall (λ x, x == first values) values) then (ExitAllEqual, Ok 0) else
  let non_zero_values := filter (λ x, 0 < x) values in
  if decide (length non_zero_values = 1%nat ∧ (1 < length values)%nat)
  then (ExitOneNonZero, Ok 1) else
  let gini := gini_formula values in
  (ExitFormula, Ok (py_max 0 (py_min 1 gini))).

Definition gini_coefficient (values : list Q) : result Q :=
  (gini_trace values).2.

(** [palma_ratio] *)
Definition palma_ratio (values : list Q) : result pyfloat :=
  if decide (values = []) then Raise EmptyInputError else
  let values := positive_values values in
  if decide (length values = 0%nat) then Raise NoPositiveValuesError else
  let values := np_sort values in
  let n := length values in
  if decide (n < 10)%nat then Raise InsufficientDataError else
  let top_10_threshold := np_percentile values 90 in
  let bottom_40_threshold := np_percentile values 40 in
  let top_10_share :=
    np_sum (filter (λ x, top_10_threshold <= x) values) / np_sum values in
  let bottom_40_share :=
    np_sum (filter (λ x, x <= bottom_40_threshold) values) / np_sum values in
  if decide (bottom_40_share == 0) then
    Ok (if decide (0 < top_10_share) then PosInf else Fin 0)
  else Ok (np_div top_10_share bottom_40_share).

(** The key [f'p{percentile}'] of an integer percentile. *)
Definition share_key (percentile : Z) : string := "p" +:+ pretty percentile.

Definition default_percentiles : list Z := [1; 10; 50; 90; 99]%Z.

(** [shares[key]]: a missing key raises [KeyError]. *)
Definition getitem {A} (d : gmap string A) (key : string) : result A :=
  match d !! key with
  | Some v => Ok v
  | None => Raise (KeyError key)
  end.

(** One turn of the loop of lines 147-160. *)
Definition income_shares_step (values : list Q) (total_income : Q)
    (shares : gmap string Q) (percentile : Z) : gmap string Q :=
  if decide (percentile < 0 ∨ percentile > 100)%Z then shares else
  let threshold := np_percentile values (inject_Z percentile) in
  let share :=
    if decide (percentile = 100%Z) then 1
    else np_sum (filter (λ x, x <= threshold) values) / total_income in
  <[share_key percentile := share]> shares.

(** [income_shares]; the percentiles are Python integers, as the
    default ones are, [None] standing for the omitted argument. *)
Definition income_shares (values : list Q) (percentiles : option (list Z))
    : result (gmap string Q) :=
  if decide (values = []) then Raise EmptyInputError else
  let percentiles := default default_percentiles percentiles in
  let values := positive_values values in
  if decide (length values = 0%nat) then Raise NoPositiveValuesError else
  let values := np_sort values in
  let total_income := np_sum values in
  if decide (total_income == 0) then Raise ZeroTotalError else
  let shares := foldl (income_shares_step values total_income) ∅ percentiles in
  shares ←r (if decide (1%Z ∈ percentiles ∧ 10%Z ∈ percentiles) then
               p99 ←r getitem shares "p99";
               let shares := <["top_1_share" := 1 - p99]> shares in
               p90 ←r getitem shares "p90";
               Ok (<["top_10_share" := 1 - p90]> shares)
             else Ok shares);
  shares ←r (if decide (50%Z ∈ percentiles) then
               p50 ←r getitem shares "p50";
               Ok (<["bottom_50_share" := p50]> shares)
             else Ok shares);
  Ok shares.

(** [np.linspace(0, 1, num_points)] *)
Definition np_linspace01 (num_points : nat) : list Q :=
  match num_points with
  | 0%nat => []
  | 1%nat => [0]
  | _ => (λ i, inject_Z (Z.of_nat i) / inject_Z (Z.of_nat (num_points - 1)))
           <$> seq 0 num_points
  end.

(** The body of the loop of lines 211-225, for one population share. *)
Definition lorenz_point (values : list Q) (total_income : Q) (p : Q) : Q :=
  if decide (p == 0) then 0
  else if decide (p == 1) then 1
  else
    let n := length values in
    let index := Z.to_nat (py_int (p * inject_Z (Z.of_nat n))) in
    let index := if decide (n ≤ index)%nat then (n - 1)%nat else index in
    let cumulative_income := np_sum (take (index + 1) values) in
    cumulative_income / total_income.

(** [lorenz_curve_data] *)
Definition lorenz_curve_data (values : list Q) (num_points : nat)
    : result (list Q * list Q) :=
  if decide (values = []) then Raise EmptyInputError else
  let values := positive_values values in
  if decide (length values = 0%nat) then Raise NoPositiveValuesError else
  let values := np_sort values in
  let total_income := np_sum values in
  if decide (total_income == 0) then Raise ZeroTotalError else
  let population_shares := np_linspace01 num_points in
  let income_shares := lorenz_point values total_income <$> population_shares in
  Ok (population_shares, income_shares).

Section Transcendental.
(** [np.log], [np.exp] and [**] have no rational model: the metrics
    that use them are stated over any three functions. *)
Variable np_log : Q → Q.
Variable np_exp : Q → Q.
Variable np_pow : Q → Q → Q.

(** [theil_index] *)
Definition theil_index (values : list Q) : result Q :=
  if decide (values = []) then Raise EmptyInputError else
  let values := positive_values values in
  if decide (length values = 0%nat) then Raise NoPositiveValuesError else
  let n := inject_Z (Z.of_nat (length values)) in
  let mean_income := np_mean values in
  if decide (mean_income == 0) then Ok 0 else
  let theil :=
    np_sum ((λ x, (x / mean_income) * np_log (x / mean_income)) <$> values) / n in
  Ok (py_max 0 theil).

(** [atkinson_index] *)
Definition atkinson_index (values : list Q) (epsilon : Q) : result Q :=
  if decide (values = []) then Raise EmptyInputError else
  if decide (epsilon <= 0) then Raise InvalidParameterError else
  let values := positive_values values in
  if decide (length values = 0%nat) then Raise NoPositiveValuesError else
  let mean_income := np_mean values in
  let atkinson :=
    if decide (epsilon == 1) then
      1 - np_exp (np_mean (np_log <$> values)) / mean_income
    else
      1 - np_pow (np_mean ((λ x, np_pow x (1 - epsilon)) <$> values))
                 (1 / (1 - epsilon)) / mean_income in
  Ok (py_max 0 (py_min 1 atkinson)).

(** The body of the [try] block of [calculate_all_metrics]. *)
Definition calculate_all_metrics_body (values : list Q)
    : result (gmap string pyfloat) :=
  let metrics : gmap string pyfloat := ∅ in
  gini ←r gini_coefficient values;
  let metrics := <["gini" := Fin gini]> metrics in
  palma ←r palma_ratio values;
  let metrics := <["palma_ratio" := palma]> metrics in
  theil ←r theil_index values;
  let metrics := <["theil_index" := Fin theil]> metrics in
  atkinson ←r atkinson_index values 1;
  let metrics := <["atkinson_index" := Fin atkinson]> metrics in
  shares ←r income_shares values None;
  (* metrics.update(shares): the keys of [shares] win *)
  let metrics := (Fin <$> shares) ∪ metrics in
  metrics ←r (if decide ("top_10_share" ∈ dom shares ∧ "bottom_50_share" ∈ dom shares) then
                a ←r getitem shares "top_10_share";
                b ←r getitem shares "bottom_50_share";
                Ok (<["palma_ratio_manual" := np_div a b]> metrics)
              else Ok metrics);
  metrics ←r (if decide ("top_1_share" ∈ dom shares ∧ "bottom_50_share" ∈ dom shares) then
                a ←r getitem shares "top_1_share";
                b ←r getitem shares "bottom_50_share";
                Ok (<["top_1_vs_bottom_50" := np_div a b]> metrics)
              else Ok metrics);
  Ok metrics.

(** [calculate_all_metrics]: [except Exception] turns every raised
    error into the empty dictionary. *)
Definition calculate_all_metrics (values : list Q) : gmap string pyfloat :=
  match calculate_all_metrics_body values with
  | Ok metrics => metrics
  | Raise _ => ∅
  end.
End Transcendental.

(** Python's [x >= 0], [x <= 1] and the chain [0 <= x <= 1] on a float:
    every comparison with [nan] is false. *)
Definition float_ge_0 (x : pyfloat) : bool :=
  match x with
  | Fin q => bool_decide (0 <= q)
  | PosInf => true
  | NegInf | NaN => false
  end.

Definition float_le_1 (x : pyfloat) : bool :=
  match x with
  | Fin q => bool_decide (q <= 1)
  | NegInf => true
  | PosInf | NaN => false
  end.

Definition float_in_0_1 (x : pyfloat) : bool := float_ge_0 x && float_le_1 x.

(** [validate_metric_values] *)
Definition validate_metric_values (metrics : gmap string pyfloat)
    : gmap string bool :=
  let validation : gmap string bool := ∅ in
  let validation :=
    match metrics !! "gini" with
    | Some gini => <["gini" := float_in_0_1 gini]> validation
    | None => validation
    end in
  let validation :=
    match metrics !! "palma_ratio" with
    | Some palma => <["palma_ratio" := float_ge_0 palma]> validation
    | None => validation
    end in
  let validation :=
    match metrics !! "theil_index" with
    | Some theil => <["theil_index" := float_ge_0 theil]> validation
    | None => validation
    end in
  let validation :=
    match metrics !! "atkinson_index" with
    | Some atkinson => <["atkinson_index" := float_in_0_1 atkinson]> validation
    | None => validation
    end in
  let share_metrics := ["top_1_share"; "top_10_share"; "bottom_50_share"] in
  foldl (λ validation metric,
           match metrics !! metric with
           | Some share => <[metric := float_in_0_1 share]> validation
           | None => validation
           end) validation share_metrics.


(** ** Tables

    A pandas [DataFrame] is its column labels, in order, and its rows;
    a row maps a column label to a cell.  Index labels are not modelled
    ([reset_index(drop=True)] only renumbers them).  A missing value,
    [None] or [NaN], is the one cell [CNA]. *)
Inductive cell : Type :=
| CNA
| CInt (z : Z)
| CNum (q : Q)
| CStr (s : string).

Record DataFrame : Type := mkDataFrame {
  columns : list string;
  rows : list (gmap string cell)
}.

(** What the code takes from Python and pandas without the repository
    defining it, and that has no small closed form here: the parsers
    behind [int(s)] and [float(s)] on a string ([None] when they raise
    [ValueError]), [str(x)] on a cell that is not a string, and the
    pandas routines that depend on the inferred type of a column. *)
Class Library : Type := {
  py_int_str : string → option Z;
  py_float_str : string → option Q;
  py_str : cell → string;
  interpolate_linear : list cell → list cell;
  select_dtypes_object : DataFrame → list string;
  series_mode : list cell → list cell;
  to_numeric_coerce : list cell → list cell;
  astype_Int64 : list cell → option (list cell)
}.

Definition cell_of (row : gmap string cell) (col : string) : cell :=
  default CNA (row !! col).

Definition is_na (c : cell) : bool :=
  match c with CNA => true | _ => false end.

(** [df.empty]: no column or no row. *)
Definition df_empty (d : DataFrame) : bool :=
  bool_decide (columns d = []) || bool_decide (rows d = []).

(** [col in df.columns] *)
Definition has_column (d : DataFrame) (col : string) : bool :=
  bool_decide (col ∈ columns d).

(** [df[col]] as a list of cells. *)
Definition column (d : DataFrame) (col : string) : list cell :=
  (λ row, cell_of row col) <$> rows d.

Fixpoint mapM_result {A B} (f : A → result B) (l : list A) : result (list B) :=
  match l with
  | [] => Ok []
  | a :: l =>
      b ←r f a;
      bs ←r mapM_result f l;
      Ok (b :: bs)
  end.

Definition with_column (d : DataFrame) (col : string) : list string :=
  if has_column d col then columns d else columns d ++ [col].

(** [df[target] = df[source].apply(f)], as a new value of the frame. *)
Definition assign_apply (target source : string) (f : cell → result cell)
    (d : DataFrame) : result DataFrame :=
  if has_column d source then
    rows' ←r mapM_result
               (λ row, v ←r f (cell_of row source); Ok (<[target := v]> row))
               (rows d);
    Ok {| columns := with_column d target; rows := rows' |}
  else Raise (KeyError source).

(** [df[col] = value] for a scalar. *)
Definition assign_const (col : string) (v : cell) (d : DataFrame) : result DataFrame :=
  Ok {| columns := with_column d col; rows := (λ row, <[col := v]> row) <$> rows d |}.

(** [df[col] = series] for a series computed from the whole column. *)
Definition assign_series (col : string) (series : list cell) (d : DataFrame)
    : result DataFrame :=
  Ok {| columns := with_column d col;
        rows := zip_with (λ row v, <[col := v]> row) (rows d) series |}.

(** [df[df[col].apply(p)]]: the rows whose cell satisfies [p]. *)
Definition select_by (col : string) (p : cell → bool) (d : DataFrame)
    : result DataFrame :=
  if has_column d col then
    Ok {| columns := columns d; rows := filter (λ row, p (cell_of row col)) (rows d) |}
  else Raise (KeyError col).

(** Equality of two cells as [drop_duplicates] sees it: numbers by value,
    missing values alike. *)
Definition cell_same (a b : cell) : bool :=
  match a, b with
  | CNA, CNA => true
  | CInt x, CInt y => bool_decide (x = y)
  | CNum x, CNum y => bool_decide (x == y)
  | CInt x, CNum y | CNum y, CInt x => bool_decide (inject_Z x == y)
  | CStr x, CStr y => bool_decide (x = y)
  | _, _ => false
  end.

Definition row_key (subset : list string) (row : gmap string cell) : list cell :=
  (λ col, cell_of row col) <$> subset.

Fixpoint key_same (k1 k2 : list cell) : bool :=
  match k1, k2 with
  | [], [] => true
  | a :: k1, b :: k2 => cell_same a b && key_same k1 k2
  | _, _ => false
  end.

(** Keep the first row of every key. *)
Fixpoint keep_first (subset : list string) (l : list (gmap string cell))
    : list (gmap string cell) :=
  match l with
  | [] => []
  | row :: l =>
      row :: filter (λ row', negb (key_same (row_key subset row) (row_key subset row')))
               (keep_first subset l)
  end.

Inductive keep_option : Type := KeepFirst | KeepLast.

(** [df.drop_duplicates(subset=subset, keep=keep)] *)
Definition drop_duplicates (subset : list string) (keep : keep_option)
    (d : DataFrame) : result DataFrame :=
  match list_find (λ col, col ∉ columns d) subset with
  | Some (_, col) => Raise (KeyError col)
  | None =>
      Ok {| columns := columns d;
            rows := match keep with
                    | KeepFirst => keep_first subset (rows d)
                    | KeepLast => reverse (keep_first subset (reverse (rows d)))
                    end |}
  end.

(** The order of [sort_values] on cells: numbers by value, strings by
    code points, missing values last.  A number and a string do not
    compare in Python; [sortable] rules that case out before the order
    is used, and the order puts numbers first only to be total. *)
Definition cell_compare (a b : cell) : comparison :=
  match a, b with
  | CNA, CNA => Eq
  | CNA, _ => Gt
  | _, CNA => Lt
  | CInt x, CInt y => (x ?= y)%Z
  | CInt x, CNum y => inject_Z x ?= y
  | CNum x, CInt y => x ?= inject_Z y
  | CNum x, CNum y => x ?= y
  | CStr x, CStr y => String.compare x y
  | CStr _, _ => Gt
  | _, CStr _ => Lt
  end.

Fixpoint key_compare (k1 k2 : list cell) : comparison :=
  match k1, k2 with
  | [], [] => Eq
  | [], _ :: _ => Lt
  | _ :: _, [] => Gt
  | a :: k1, b :: k2 =>
      match cell_compare a b with
      | Eq => key_compare k1 k2
      | c => c
      end
  end.

Definition key_le (k1 k2 : list cell) : Prop := key_compare k1 k2 ≠ Gt.

Definition row_le (by_ : list string) (r1 r2 : gmap string cell) : Prop :=
  key_le (row_key by_ r1) (row_key by_ r2).

#[global] Instance row_le_decision by_ r1 r2 : Decision (row_le by_ r1 r2).
Proof. unfold row_le, key_le. apply _. Defined.

Definition is_number (c : cell) : bool :=
  match c with CInt _ | CNum _ | CNA => true | CStr _ => false end.
Definition is_string (c : cell) : bool :=
  match c with CStr _ | CNA => true | _ => false end.

(** A column sorts when its values are all numbers or all strings. *)
Definition sortable (l : list cell) : bool :=
  forallb is_number l || forallb is_string l.

(** [df.sort_values(by)], stable. *)
Definition sort_values (by_ : list string) (d : DataFrame) : result DataFrame :=
  match list_find (λ col, col ∉ columns d) by_ with
  | Some (_, col) => Raise (KeyError col)
  | None =>
      if forallb (λ col, sortable (column d col)) by_ then
        Ok {| columns := columns d; rows := merge_sort (row_le by_) (rows d) |}
      else Raise TypeError
  end.

(** [df.dropna()]: the rows without a missing value. *)
Definition dropna (d : DataFrame) : result DataFrame :=
  Ok {| columns := columns d;
        rows := filter (λ row, forallb (λ col, negb (is_na (cell_of row col))) (columns d))
                  (rows d) |}.

(** [df.fillna(method='ffill')]: every missing cell takes the last value
    seen above it in its column, if any. *)
Fixpoint ffill_rows (cols : list string) (last : gmap string cell)
    (l : list (gmap string cell)) : list (gmap string cell) :=
  match l with
  | [] => []
  | row :: l =>
      let row' := foldr (λ col acc,
                    if is_na (cell_of row col)
                    then <[col := cell_of last col]> acc else acc) row cols in
      row' :: ffill_rows cols row' l
  end.

Definition ffill (d : DataFrame) : result DataFrame :=
  Ok {| columns := columns d; rows := ffill_rows (columns d) ∅ (rows d) |}.

(** [df.reset_index(drop=True)]: the same table with fresh index labels. *)
Definition reset_index (d : DataFrame) : result DataFrame := Ok d.

(** ** The object store

    A Python variable holds a reference to a frame; [df.copy()] and the
    pandas methods that return a frame allocate a new object, while
    [df[col] = ...] changes the object in place.  A computation takes the
    store and returns its result, or the exception it raised, with the
    store it leaves. *)
Abbreviation ref := nat.
Abbreviation heap := (list DataFrame).
Definition M (A : Type) : Type := heap → result A * heap.

Definition ret {A} (a : A) : M A := λ h, (Ok a, h).
Definition raise {A} (e : error) : M A := λ h, (Raise e, h).
Definition bind {A B} (m : M A) (k : A → M B) : M B :=
  λ h, match m h with
       | (Ok a, h') => k a h'
       | (Raise e, h') => (Raise e, h')
       end.

Notation "'let*' x ':=' e 'in' k" := (bind e (λ x, k))
  (at level 10, x name, e at level 100, k at level 200).

(** The frame a reference points to. *)
Definition load (r : ref) : M DataFrame :=
  λ h, match h !! r with
       | Some d => (Ok d, h)
       | None => (Raise DanglingReference, h)
       end.

(** A new object. *)
Definition alloc (d : DataFrame) : M ref :=
  λ h, (Ok (length h), h ++ [d]).

(** [df.copy()] *)
Definition df_copy (r : ref) : M ref :=
  let* d := load r in alloc d.

(** [df.method(...)] for a method that returns a new frame. *)
Definition df_new (r : ref) (f : DataFrame → result DataFrame) : M ref :=
  let* d := load r in
  match f d with
  | Ok d' => alloc d'
  | Raise e => raise e
  end.

(** A change of the object itself, as [df[col] = ...] is. *)
Definition df_update (r : ref) (f : DataFrame → result DataFrame) : M unit :=
  let* d := load r in
  match f d with
  | Ok d' => λ h, (Ok tt, <[r := d']> h)
  | Raise e => raise e
  end.

(** [for x in l: body(x)] *)
Fixpoint for_each {A} (l : list A) (body : A → M unit) : M unit :=
  match l with
  | [] => ret tt
  | a :: l => let* _ := body a in for_each l body
  end.

(** Runs a computation from the store [h] and reads the frame it
    returns. *)
Definition run_from (h : heap) (m : M ref) : result DataFrame :=
  match m h with
  | (Ok r, h') => match h' !! r with Some d' => Ok d' | None => Raise DanglingReference end
  | (Raise e, _) => Raise e
  end.

(** [f(d)], for a function of one frame: the store holds only [d]. *)
Definition call (f : ref → M ref) (d : DataFrame) : result DataFrame :=
  run_from [d] (f 0%nat).

(** ** Strings *)

Definition ascii_upper (a : ascii) : ascii :=
  let n := Ascii.N_of_ascii a in
  if decide (97 ≤ n ≤ 122)%N then Ascii.ascii_of_N (n - 32) else a.

Definition ascii_lower (a : ascii) : ascii :=
  let n := Ascii.N_of_ascii a in
  if decide (65 ≤ n ≤ 90)%N then Ascii.ascii_of_N (n + 32) else a.

Fixpoint str_map (f : ascii → ascii) (s : string) : string :=
  match s with
  | EmptyString => EmptyString
  | String a s => String (f a) (str_map f s)
  end.

(** [s.upper()], [s.lower()] and [s.replace(' ', '_')] on ASCII text. *)
Definition str_upper : string → string := str_map ascii_upper.
Definition str_lower : string → string := str_map ascii_lower.
Definition str_underscore : string → string :=
  str_map (λ a, if decide (a = " "%char) then "_"%char else a).

Fixpoint str_lstrip (s : string) : string :=
  match s with
  | String a s' => if Ascii.is_space a then str_lstrip s' else s
  | EmptyString => EmptyString
  end.

(** [s.strip()] *)
Definition str_strip (s : string) : string :=
  String.rev (str_lstrip (String.rev (str_lstrip s))).

(** ** utils/data_models.py *)

(** [np.rint]: the nearest integer, a tie going to the even one. *)
Definition np_rint (x : Q) : Z :=
  let f := Qfloor x in
  let r := x - inject_Z f in
  if decide (r < 1 # 2) then f
  else if decide (1 # 2 < r) then (f + 1)%Z
  else if Z.even f then f else (f + 1)%Z.

(** [Series.round(2)] on a float. *)
Definition round2 (x : Q) : Q := inject_Z (np_rint (x * 100)) / 100.

(** One entry of the list the statistical API returns: a dictionary, or
    something else. *)
Inductive api_entry : Type :=
| NotADict
| Entry (fields : gmap string cell).

Module DataModels.
Section data_models.
Context `{Library}.

(** [int(x)] and [float(x)] on a cell; [None] when they raise
    [ValueError] or [TypeError]. *)
Definition int_of_cell (x : cell) : option Z :=
  match x with
  | CNA => None
  | CInt z => Some z
  | CNum q => Some (py_int q)
  | CStr s => py_int_str s
  end.

Definition float_of_cell (x : cell) : option Q :=
  match x with
  | CNA => None
  | CInt z => Some (inject_Z z)
  | CNum q => Some q
  | CStr s => py_float_str s
  end.

(** [validate_gini_value] *)
Definition validate_gini_value (value : cell) : bool :=
  match float_of_cell value with
  | None => false
  | Some float_value =>
      bool_decide (0 <= float_value ∧ float_value <= 100)
      || bool_decide (0 <= float_value ∧ float_value <= 1)
  end.

(** [validate_year] *)
Definition validate_year (year : cell) : bool :=
  match int_of_cell year with
  | None => false
  | Some int_year => bool_decide (1960 ≤ int_year ≤ 2030)%Z
  end.

Definition required_columns : list string := ["year"; "value"; "country_code"].

(** One turn of the loop of [convert_api_response_to_dataframe]: the
    rows collected so far, and the entry. *)
Definition convert_entry (country_code : string)
    (processed_data : list (gmap string cell)) (entry : api_entry)
    : list (gmap string cell) :=
  match entry with
  | NotADict => processed_data
  | Entry fields =>
      let year_raw := cell_of fields "date" in
      let value_raw := cell_of fields "value" in
      if is_na year_raw || is_na value_raw then processed_data
      else if validate_year year_raw && validate_gini_value value_raw then
        match int_of_cell year_raw, float_of_cell value_raw with
        | Some year, Some value =>
            let value := if decide (value <= 1) then value * 100 else value in
            processed_data ++
              [ {[ "year" := CInt year; "value" := CNum value;
                   "country_code" := CStr (str_upper country_code) ]} ]
        | _, _ => processed_data
        end
      else processed_data
  end.

(** [pd.DataFrame(records)] for records that all have the three keys. *)
Definition frame_of_records (records : list (gmap string cell)) : DataFrame :=
  {| columns := match records with [] => [] | _ => required_columns end;
     rows := records |}.

(** [convert_api_response_to_dataframe] *)
Definition convert_api_response_to_dataframe (api_response : list api_entry)
    (country_code : string) : M ref :=
  if decide (api_response = []) then
    alloc {| columns := required_columns; rows := [] |}
  else
    let processed_data := foldl (convert_entry country_code) [] api_response in
    let* df := alloc (frame_of_records processed_data) in
    let* d := load df in
    let* df := (if negb (df_empty d) then
                  let* df := df_new df (sort_values ["year"]) in
                  df_new df reset_index
                else ret df) in
    ret df.

(** [lambda x: x * 100 if x <= 1 else x] *)
Definition scale_to_percent (x : cell) : result cell :=
  match x with
  | CNA => Ok CNA
  | CInt z => Ok (if decide (z ≤ 1)%Z then CInt (z * 100) else CInt z)
  | CNum q => Ok (if decide (q <= 1) then CNum (q * 100) else CNum q)
  | CStr _ => Raise TypeError
  end.

Definition round_cell (x : cell) : result cell :=
  match x with
  | CNum q => Ok (CNum (round2 q))
  | _ => Ok x
  end.

(** [.str.upper()]: a cell that is not a string becomes missing. *)
Definition upper_cell (x : cell) : result cell :=
  match x with
  | CStr s => Ok (CStr (str_upper s))
  | _ => Ok CNA
  end.

(** [clean_gini_data] *)
Definition clean_gini_data (df : ref) : M ref :=
  let* d := load df in
  if df_empty d then ret df else
  let* cleaned_df := df_copy df in
  let* _ := for_each required_columns (λ col,
              let* d := load cleaned_df in
              if negb (has_column d col)
              then df_update cleaned_df (assign_const col CNA)
              else ret tt) in
  let* cleaned_df := df_new cleaned_df (select_by "year" validate_year) in
  let* cleaned_df := df_new cleaned_df (select_by "value" validate_gini_value) in
  let* cleaned_df :=
    df_new cleaned_df (drop_duplicates ["year"; "country_code"] KeepLast) in
  let* cleaned_df := df_new cleaned_df (sort_values ["year"]) in
  let* cleaned_df := df_new cleaned_df reset_index in
  let* _ := df_update cleaned_df (assign_apply "value" "value" scale_to_percent) in
  let* _ := df_update cleaned_df (assign_apply "value" "value" round_cell) in
  let* _ := df_update cleaned_df
              (assign_apply "country_code" "country_code" upper_cell) in
  ret cleaned_df.

(** [handle_missing_values] *)
Definition handle_missing_values (df : ref) (method : string) : M ref :=
  let* d := load df in
  if df_empty d then ret df else
  let* cleaned_df := df_copy df in
  let* cleaned_df :=
    (if decide (method = "drop") then
       df_new cleaned_df dropna
     else if decide (method = "interpolate") then
       let* d := load cleaned_df in
       let* _ := (if has_column d "value" then
                    df_update cleaned_df
                      (assign_series "value" (interpolate_linear (column d "value")))
                  else ret tt) in
       df_new cleaned_df dropna
     else if decide (method = "forward_fill") then
       let* cleaned_df := df_new cleaned_df ffill in
       df_new cleaned_df dropna
     else raise (UnknownMethodError method)) in
  df_new cleaned_df reset_index.

(** The adapter as [data_service.py] runs it (lines 387-390): the
    response is converted, then cleaned. *)
Definition adapter_pipeline (api_response : list api_entry)
    (country_code : string) : M ref :=
  let* df := convert_api_response_to_dataframe api_response country_code in
  clean_gini_data df.
End data_models.
End DataModels.

(** ** The dataclasses of utils/data_models.py

    The fields hold values of the types of their annotations. *)
Module Series.
Record Country : Type := mkCountry {
  code : string;
  name : string;
  region : string
}.

Record GiniDataPoint : Type := mkGiniDataPoint {
  year : Z;
  value : Q;
  country_code : string
}.

Record GiniTimeSeries : Type := mkGiniTimeSeries {
  country : Country;
  data_points : list GiniDataPoint
}.

(** [max(l, key=key)] on a list that starts with [best]: the first of
    the items with the greatest key. *)
Fixpoint py_max_key {A} (key : A → Z) (best : A) (l : list A) : A :=
  match l with
  | [] => best
  | a :: l => py_max_key key (if decide (key best < key a)%Z then a else best) l
  end.

(** [GiniTimeSeries.get_latest_value] *)
Definition get_latest_value (self : GiniTimeSeries) : option GiniDataPoint :=
  match data_points self with
  | [] => None
  | point :: points => Some (py_max_key year point points)
  end.

(** The loop of [GiniTimeSeries.get_value_for_year]. *)
Fixpoint value_for_year (points : list GiniDataPoint) (y : Z) : option Q :=
  match points with
  | [] => None
  | point :: points =>
      if decide (year point = y) then Some (value point)
      else value_for_year points y
  end.

(** [GiniTimeSeries.get_value_for_year] *)
Definition get_value_for_year (self : GiniTimeSeries) (y : Z) : option Q :=
  value_for_year (data_points self) y.

Definition series_columns : list string :=
  ["year"; "value"; "country_code"; "country_name"].

(** [GiniTimeSeries.to_dataframe] *)
Definition to_dataframe (self : GiniTimeSeries) : result DataFrame :=
  if decide (data_points self = []) then
    Ok {| columns := series_columns; rows := [] |}
  else
    let data :=
      (λ point, {[ "year" := CInt (year point);
                   "value" := CNum (value point);
                   "country_code" := CStr (country_code point);
                   "country_name" := CStr (name (country self)) ]})
        <$> data_points self in
    df ←r sort_values ["year"] {| columns := series_columns; rows := data |};
    reset_index df.
End Series.


(** ** src/utils.py and src/data_cleaning.py *)

(** [COUNTRY_CODES] *)
Definition COUNTRY_CODES : gmap string string :=
  list_to_map
    [("USA", "United States"); ("DEU", "Germany"); ("FRA", "France");
     ("GBR", "United Kingdom"); ("ITA", "Italy"); ("ESP", "Spain");
     ("CAN", "Canada"); ("AUS", "Australia"); ("JPN", "Japan");
     ("BRA", "Brazil"); ("IND", "India"); ("CHN", "China");
     ("RUS", "Russia"); ("MEX", "Mexico"); ("KOR", "South Korea");
     ("NLD", "Netherlands"); ("SWE", "Sweden"); ("NOR", "Norway");
     ("DNK", "Denmark"); ("FIN", "Finland")].

(** [get_country_name] *)
Definition get_country_name (code : string) : string :=
  default code (COUNTRY_CODES !! str_upper code).

(** The items of [COUNTRY_CODES], in the order of the source. *)
Definition COUNTRY_ITEMS : list (string * string) :=
  [("USA", "United States"); ("DEU", "Germany"); ("FRA", "France");
   ("GBR", "United Kingdom"); ("ITA", "Italy"); ("ESP", "Spain");
   ("CAN", "Canada"); ("AUS", "Australia"); ("JPN", "Japan");
   ("BRA", "Brazil"); ("IND", "India"); ("CHN", "China");
   ("RUS", "Russia"); ("MEX", "Mexico"); ("KOR", "South Korea");
   ("NLD", "Netherlands"); ("SWE", "Sweden"); ("NOR", "Norway");
   ("DNK", "Denmark"); ("FIN", "Finland")].

(** [get_country_code]: the dictionary comprehension goes through the
    items in order, a later item replacing an earlier one of the same
    name. *)
Definition get_country_code (name : string) : string :=
  let reverse_mapping : gmap string string :=
    foldl (λ acc item, <[item.2 := item.1]> acc) ∅ COUNTRY_ITEMS in
  default name (reverse_mapping !! name).

(** [validate_year_range]; [current_year] is [pd.Timestamp.now().year]. *)
Definition validate_year_range (current_year start_year end_year : Z) : Z * Z :=
  let start_year := if decide (start_year < 1960)%Z then 1960%Z else start_year in
  let end_year :=
    if decide (end_year > current_year)%Z then current_year else end_year in
  if decide (start_year > end_year)%Z then (end_year, start_year)
  else (start_year, end_year).


(** [for x in l: state = body(state, x)] *)
Fixpoint for_fold {A S} (l : list A) (s : S) (body : S → A → M S) : M S :=
  match l with
  | [] => ret s
  | a :: l => let* s := body s a in for_fold l s body
  end.

(** [df[mask]] for a mask computed row by row, a comparison that may
    raise. *)
Definition select_rows (p : gmap string cell → result bool) (d : DataFrame)
    : result DataFrame :=
  mask ←r mapM_result p (rows d);
  Ok {| columns := columns d;
        rows := fst <$> filter (λ rb, rb.2 = true) (zip (rows d) mask) |}.

Module DataCleaning.
Section data_cleaning.
Context `{Library}.

(** [country_mapping] of [normalize_country_codes] *)
Definition country_mapping : gmap string string :=
  list_to_map
    [("US", "USA"); ("United States", "USA"); ("USA", "USA");
     ("Germany", "DEU"); ("DE", "DEU"); ("DEU", "DEU");
     ("France", "FRA"); ("FR", "FRA"); ("FRA", "FRA");
     ("United Kingdom", "GBR"); ("UK", "GBR"); ("GB", "GBR"); ("GBR", "GBR");
     ("Italy", "ITA"); ("IT", "ITA"); ("ITA", "ITA");
     ("Spain", "ESP"); ("ES", "ESP"); ("ESP", "ESP");
     ("Canada", "CAN"); ("CA", "CAN"); ("CAN", "CAN");
     ("Australia", "AUS"); ("AU", "AUS"); ("AUS", "AUS");
     ("Japan", "JPN"); ("JP", "JPN"); ("JPN", "JPN");
     ("Brazil", "BRA"); ("BR", "BRA"); ("BRA", "BRA");
     ("India", "IND"); ("IN", "IND"); ("IND", "IND");
     ("China", "CHN"); ("CN", "CHN"); ("CHN", "CHN");
     ("Russia", "RUS"); ("RU", "RUS"); ("RUS", "RUS");
     ("Mexico", "MEX"); ("MX", "MEX"); ("MEX", "MEX");
     ("South Korea", "KOR"); ("KR", "KOR"); ("KOR", "KOR");
     ("Netherlands", "NLD"); ("NL", "NLD"); ("NLD", "NLD");
     ("Sweden", "SWE"); ("SE", "SWE"); ("SWE", "SWE");
     ("Norway", "NOR"); ("NO", "NOR"); ("NOR", "NOR");
     ("Denmark", "DNK"); ("DK", "DNK"); ("DNK", "DNK");
     ("Finland", "FIN"); ("FI", "FIN"); ("FIN", "FIN")].

(** [str(x)] on a cell. *)
Definition str_of_cell (x : cell) : string :=
  match x with
  | CStr s => s
  | _ => py_str x
  end.

(** [lambda x: country_mapping.get(str(x).strip(), str(x).strip())] *)
Definition map_country (x : cell) : result cell :=
  let key := str_strip (str_of_cell x) in
  Ok (CStr (default key (country_mapping !! key))).

(** [normalize_country_codes] *)
Definition normalize_country_codes (df : ref) (country_column : string) : M ref :=
  let* d := load df in
  if negb (has_column d country_column) then ret df else
  let* df_clean := df_copy df in
  let* _ := df_update df_clean
              (assign_apply country_column country_column map_country) in
  let* d := load df_clean in
  let* _ := (if negb (has_column d "country_name") then
               df_update df_clean
                 (assign_apply "country_name" country_column
                    (λ x, Ok (CStr (get_country_name (str_of_cell x)))))
             else ret tt) in
  ret df_clean.

(** [df[col].fillna(value)] *)
Definition fillna_cell (value : cell) (x : cell) : result cell :=
  Ok (if is_na x then value else x).

(** [handle_missing_values]; the loop over the numeric columns only
    writes to the log. *)
Definition handle_missing_values (df : ref) : M ref :=
  let* df_clean := df_copy df in
  let* d := load df_clean in
  let categorical_columns := select_dtypes_object d in
  let* _ := for_each categorical_columns (λ col,
              if bool_decide (col ∈ ["country_code"; "country_name"; "source"])
              then ret tt
              else
                let* d := load df_clean in
                let most_common :=
                  default (CStr "Unknown") (head (series_mode (column d col))) in
                df_update df_clean (assign_apply col col (fillna_cell most_common))) in
  ret df_clean.

(** [column_mapping] of [standardize_column_names] *)
Definition column_mapping : gmap string string :=
  list_to_map
    [("Country", "country_code"); ("Country Code", "country_code");
     ("CountryName", "country_name"); ("Country Name", "country_name");
     ("Year", "year"); ("Gini", "gini"); ("Gini Coefficient", "gini");
     ("GiniIndex", "gini"); ("Top10Share", "top_10_share");
     ("Top 10 Share", "top_10_share"); ("Top10", "top_10_share");
     ("Bottom50Share", "bottom_50_share");
     ("Bottom 50 Share", "bottom_50_share"); ("Bottom50", "bottom_50_share");
     ("Top1Share", "top_1_share"); ("Top 1 Share", "top_1_share");
     ("Top1", "top_1_share"); ("PalmaRatio", "palma_ratio");
     ("Palma Ratio", "palma_ratio"); ("Source", "source");
     ("DataSource", "source")].

(** The frame with every column label [c] replaced by [f c]; of two
    columns that get the same label, the row keeps the first. *)
Definition relabel (f : string → string) (d : DataFrame) : result DataFrame :=
  Ok {| columns := f <$> columns d;
        rows := (λ row, list_to_map ((λ c, (f c, cell_of row c)) <$> columns d))
                  <$> rows d |}.

(** [standardize_column_names] *)
Definition standardize_column_names (df : ref) : M ref :=
  let* df_clean := df_copy df in
  let* df_clean :=
    df_new df_clean (relabel (λ c, default c (column_mapping !! c))) in
  let* _ := df_update df_clean (relabel (λ c, str_underscore (str_lower c))) in
  ret df_clean.

Definition numeric_columns : list string :=
  ["gini"; "top_10_share"; "bottom_50_share"; "top_1_share"; "palma_ratio"].

(** [df[col] = df[col].astype(str)] *)
Definition astype_str (col : string) (d : DataFrame) : result DataFrame :=
  assign_apply col col (λ x, Ok (CStr (str_of_cell x))) d.

(** [validate_data_types] *)
Definition validate_data_types (df : ref) : M ref :=
  let* df_clean := df_copy df in
  let* d := load df_clean in
  let* _ := (if has_column d "year" then
               df_update df_clean (λ d,
                 match astype_Int64 (to_numeric_coerce (column d "year")) with
                 | Some series => assign_series "year" series d
                 | None => Raise TypeError
                 end)
             else ret tt) in
  let* _ := for_each numeric_columns (λ col,
              let* d := load df_clean in
              if has_column d col then
                df_update df_clean (λ d,
                  assign_series col (to_numeric_coerce (column d col)) d)
              else ret tt) in
  let* _ := for_each ["country_code"; "country_name"; "source"] (λ col,
              let* d := load df_clean in
              if has_column d col then df_update df_clean (astype_str col)
              else ret tt) in
  ret df_clean.

(** [clean_inequality_data] *)
Definition clean_inequality_data (df : ref) : M ref :=
  let* d := load df in
  if df_empty d then ret df else
  let* df_clean := df_copy df in
  let* d := load df_clean in
  let* df_clean := (if has_column d "country_code"
                    then normalize_country_codes df_clean "country_code"
                    else ret df_clean) in
  let* df_clean := handle_missing_values df_clean in
  let* df_clean := standardize_column_names df_clean in
  let* df_clean := validate_data_types df_clean in
  let* d := load df_clean in
  let* df_clean := df_new df_clean (drop_duplicates (columns d) KeepFirst) in
  let* d := load df_clean in
  let* df_clean := (if has_column d "country_code" && has_column d "year"
                    then df_new df_clean (sort_values ["country_code"; "year"])
                    else ret df_clean) in
  ret df_clean.

(** A comparison of a column with a number, on one cell: false on a
    missing value, [TypeError] on a string. *)
Definition compare_cell (test : Q → bool) (x : cell) : result bool :=
  match x with
  | CNA => Ok false
  | CInt z => Ok (test (inject_Z z))
  | CNum q => Ok (test q)
  | CStr _ => Raise TypeError
  end.

Definition outside_0_1 (col : string) (row : gmap string cell) : result bool :=
  compare_cell (λ x, bool_decide (x < 0) || bool_decide (1 < x)) (cell_of row col).

Definition within_0_1 (col : string) (row : gmap string cell) : result bool :=
  compare_cell (λ x, bool_decide (0 <= x) && bool_decide (x <= 1)) (cell_of row col).

(** The validation of one column of [validate_inequality_metrics]: the
    rows selected by [invalid] are looked for, and if there is one the
    frame is replaced by its rows selected by [valid]. *)
Definition validate_column (col : string)
    (invalid valid : gmap string cell → result bool) (df_valid : ref) : M ref :=
  let* d := load df_valid in
  if has_column d col then
    let* invalid_rows := df_new df_valid (select_rows invalid) in
    let* i := load invalid_rows in
    if negb (df_empty i) then df_new df_valid (select_rows valid)
    else ret df_valid
  else ret df_valid.

(** [validate_inequality_metrics] *)
Definition validate_inequality_metrics (df : ref) : M ref :=
  let* df_valid := df_copy df in
  let* df_valid :=
    validate_column "gini" (outside_0_1 "gini") (within_0_1 "gini") df_valid in
  let* df_valid :=
    for_fold ["top_10_share"; "bottom_50_share"; "top_1_share"] df_valid
      (λ df_valid col,
         validate_column col (outside_0_1 col) (within_0_1 col) df_valid) in
  let* df_valid :=
    validate_column "palma_ratio"
      (λ row, compare_cell (λ x, bool_decide (x < 0)) (cell_of row "palma_ratio"))
      (λ row, compare_cell (λ x, bool_decide (0 <= x)) (cell_of row "palma_ratio"))
      df_valid in
  ret df_valid.
End data_cleaning.
End DataCleaning.

(** ** More of src/data_cleaning.py *)

(** [(df['year'] >= start_year) & (df['year'] <= end_year)] on one row:
    both comparisons are false on a missing year and raise on a string. *)
Definition year_in_range (start_year end_year : Z) (row : gmap string cell)
    : result bool :=
  lower ←r DataCleaning.compare_cell
             (λ x, bool_decide (inject_Z start_year <= x)) (cell_of row "year");
  upper ←r DataCleaning.compare_cell
             (λ x, bool_decide (x <= inject_Z end_year)) (cell_of row "year");
  Ok (lower && upper).

(** [filter_by_year_range] *)
Definition filter_by_year_range (df : ref) (start_year end_year : Z) : M ref :=
  let* d := load df in
  if negb (has_column d "year") then ret df else
  let* selected := df_new df (select_rows (year_in_range start_year end_year)) in
  let* df_filtered := df_copy selected in
  ret df_filtered.

(** [Series.isin(country_codes)] on one cell, for a list of strings. *)
Definition isin (country_codes : list string) (x : cell) : bool :=
  match x with
  | CStr s => bool_decide (s ∈ country_codes)
  | _ => false
  end.

(** [filter_by_countries] *)
Definition filter_by_countries (df : ref) (country_codes : list string) : M ref :=
  let* d := load df in
  if negb (has_column d "country_code") then ret df else
  let* selected := df_new df (select_by "country_code" (isin country_codes)) in
  let* df_filtered := df_copy selected in
  ret df_filtered.

(** A year that is a number between the two bounds. *)
Definition year_within (start_year end_year : Z) (row : gmap string cell) : bool :=
  match cell_of row "year" with
  | CInt z => bool_decide (start_year ≤ z ≤ end_year)%Z
  | CNum q => bool_decide (inject_Z start_year <= q ∧ q <= inject_Z end_year)
  | _ => false
  end.

(** [pd.DataFrame()] *)
Definition empty_frame : DataFrame := {| columns := []; rows := [] |}.

(** [pd.concat(frames, ignore_index=True)]: the columns in the order in
    which they first appear, and the rows of every frame, each with the
    columns of its frame. *)
Definition pd_concat (frames : list DataFrame) : DataFrame :=
  {| columns := foldl (λ seen col, if decide (col ∈ seen) then seen else seen ++ [col])
                  [] (frames ≫= columns);
     rows := frames ≫= (λ d, (λ row : gmap string cell,
                                filter (λ item, item.1 ∈ columns d) row) <$> rows d) |}.

Section merge.
Context `{Library}.

(** [merge_data_sources]; the dictionary is the list of its items. *)
Definition merge_data_sources (dataframes : list (string * ref)) : M ref :=
  if decide (dataframes = []) then alloc empty_frame else
  let* cleaned_dfs :=
    for_fold dataframes [] (λ cleaned_dfs item,
      let* d := load item.2 in
      if negb (df_empty d) then
        let* df_clean := DataCleaning.clean_inequality_data item.2 in
        let* _ := df_update df_clean (assign_const "source" (CStr item.1)) in
        ret (cleaned_dfs ++ [(item.1, df_clean)])
      else ret cleaned_dfs) in
  if decide (cleaned_dfs = []) then alloc empty_frame else
  let* frames :=
    for_fold cleaned_dfs [] (λ frames item,
      let* d := load item.2 in ret (frames ++ [d])) in
  let* merged_df := alloc (pd_concat frames) in
  let* d := load merged_df in
  let key_columns :=
    ["country_code"; "year"] ++ (if has_column d "gini" then ["gini"] else []) in
  let* merged_df := df_new merged_df (drop_duplicates key_columns KeepFirst) in
  ret merged_df.
End merge.

(** [returns_new f]: run from any store, [f] leaves every object of
    that store as it was and, if it returns, returns an object the store
    did not have. *)
Definition returns_new (m : M ref) : Prop :=
  ∀ h : heap,
    h `prefix_of` (m h).2
    ∧ ∀ r, (m h).1 = Ok r → (length h ≤ r)%nat ∧ is_Some ((m h).2 !! r).


(** ** The rank-weighted Gini formula, in the words of the specification

    [G = (2·Σ(i·x_i) − (n+1)·Σx_i) / (n·Σx_i)] for 1-indexed ascending
    ranks [i], then clamped to [[0,1]]. *)
Definition spec_rank_sum (xs : list Q) : Q :=
  np_sum (imap (λ i x, inject_Z (Z.of_nat (i + 1)) * x) xs).

Definition spec_gini (xs : list Q) : Q :=
  let n := inject_Z (Z.of_nat (length xs)) in
  (2 * spec_rank_sum xs - (n + 1) * np_sum xs) / (n * np_sum xs).

Definition spec_clamp01 (g : Q) : Q :=
  if decide (g < 0) then 0 else if decide (1 < g) then 1 else g.

(** The keys of a complete result of [calculate_all_metrics]: the four
    indices, the default percentile shares with their three derived
    shares, and the two derived ratios. *)
Definition all_metric_keys : list string :=
  ["gini"; "palma_ratio"; "theil_index"; "atkinson_index";
   "p1"; "p10"; "p50"; "p90"; "p99";
   "top_1_share"; "top_10_share"; "bottom_50_share";
   "palma_ratio_manual"; "top_1_vs_bottom_50"].

(** The dictionary [r] was returned and holds, under [key], a number
    equal to [q]. *)
Definition has_share (r : result (gmap string Q)) (key : string) (q : Q) : Prop :=
  match r with
  | Ok shares => match shares !! key with Some v => v == q | None => False end
  | Raise _ => False
  end.

(** A small [Library], to run the functions on concrete tables: [int]
    reads unsigned decimal numerals, [float] reads no string, [str] of a
    number is not needed and left empty, and the column routines see
    every column as numeric and leave it as it is. *)
Fixpoint decimal_digits (s : string) (acc : Z) : option Z :=
  match s with
  | EmptyString => Some acc
  | String a s =>
      match Ascii.is_nat a with
      | Some n => decimal_digits s (acc * 10 + Z.of_nat n)%Z
      | None => None
      end
  end.

Definition plain_library : Library := {|
  py_int_str := λ s, match s with EmptyString => None | _ => decimal_digits s 0%Z end;
  py_float_str := λ _, None;
  py_str := λ _, EmptyString;
  interpolate_linear := λ series, series;
  select_dtypes_object := λ _, [];
  series_mode := λ _, [];
  to_numeric_coerce := λ series, series;
  astype_Int64 := Some
|}.

(** [copies_unless guard f]: called on a table [d] of the store, [f]
    leaves every object of that store, [d] included, as it was; if
    [guard d] holds it returns its argument and the store as it found it,
    otherwise the table it returns is an object the store did not have. *)
Definition copies_unless (guard : DataFrame → bool) (f : ref → M ref) : Prop :=
  ∀ (h : heap) (df : ref) (d : DataFrame),
    h !! df = Some d →
    h `prefix_of` (f df h).2
    ∧ (f df h).2 !! df = Some d
    ∧ if guard d then f df h = (Ok df, h)
      else ∀ r, (f df h).1 = Ok r →
             (length h ≤ r)%nat ∧ is_Some ((f df h).2 !! r).

(** ** The adapter, in the words of the specification *)

(** An entry is admitted with year [year] and value [value] when its
    date reads as the integer [year], in the range 1960-2030, and its
    value reads as the number [value], between 0 and 100.  An entry with
    a missing date or value reads as neither. *)
Definition admitted `{Library} (fields : gmap string cell) (year : Z) (value : Q)
    : Prop :=
  DataModels.int_of_cell (cell_of fields "date") = Some year
  ∧ (1960 ≤ year ≤ 2030)%Z
  ∧ DataModels.float_of_cell (cell_of fields "value") = Some value
  ∧ 0 <= value <= 100.

(** The percentage normalization: a value of at most 1 is multiplied by
    100. *)
Definition percent (value : Q) : Q :=
  if decide (value <= 1) then value * 100 else value.

(** The year of a row. *)
Definition year_of (row : gmap string cell) : Z :=
  match cell_of row "year" with CInt z => z | _ => 0%Z end.

(** The values of the table [r], top to bottom; none if [r] is an
    exception. *)
Definition cleaned_values (r : result DataFrame) : list Q :=
  match r with
  | Ok table =>
      (λ row, match cell_of row "value" with CNum q => q | _ => 0 end) <$> rows table
  | Raise _ => []
  end.

(** ** Notions used in the proofs *)

(** ** The object store: what a computation leaves untouched

    [triple h0 m h P]: run from the store [h], which extends [h0], the
    computation [m] leaves a store that still extends [h0], so that no
    object of [h0] has changed, and, if it returns [a], then [P a] holds
    of the store it leaves. *)
Definition triple {A} (h0 : heap) (m : M A) (h : heap) (P : A → heap → Prop) : Prop :=
  h0 `prefix_of` (m h).2
  ∧ match (m h).1 with Ok a => P a (m h).2 | Raise _ => True end.

(** A reference that [h0] does not have and [h] has. *)
Definition fresh (h0 h : heap) (r : ref) : Prop := length h0 ≤ r < length h.

(** What every function of the pipeline guarantees: the store it
    started from is intact, and the frame it returns is its argument or
    a new object. *)
Definition pipeline_function (f : ref → M ref) : Prop :=
  ∀ h df, triple h (f df) h (λ r h', r = df ∨ fresh h h' r).

(** The row the adapter builds. *)
Definition adapter_row (year : Z) (value : Q) (code : string) : gmap string cell :=
  {[ "year" := CInt year; "value" := CNum value; "country_code" := CStr code ]}.

(** A row of the shape the adapter builds. *)
Definition shaped (row : gmap string cell) : Prop :=
  ∃ y v c, row = adapter_row y v c.

Definition value_of (row : gmap string cell) : Q :=
  match cell_of row "value" with CNum q => q | _ => 0 end.
Definition code_of (row : gmap string cell) : string :=
  match cell_of row "country_code" with CStr s => s | _ => EmptyString end.

(** What the last three statements of [clean_gini_data] make of a row. *)
Definition finish (row : gmap string cell) : gmap string cell :=
  adapter_row (year_of row) (round2 (percent (value_of row)))
    (str_upper (code_of row)).

Definition set_value (w : Q → Q) (row : gmap string cell) : gmap string cell :=
  adapter_row (year_of row) (w (value_of row)) (code_of row).
Definition set_code (w : string → string) (row : gmap string cell) : gmap string cell :=
  adapter_row (year_of row) (value_of row) (w (code_of row)).

Section adapter_notions.
Context `{Library}.

(** The rows [clean_gini_data] keeps, before it rewrites their values. *)
Definition cleaned_rows (processed : list (gmap string cell))
    : list (gmap string cell) :=
  let sorted := merge_sort (row_le ["year"]) processed in
  let year_ok :=
    filter (λ row, DataModels.validate_year (cell_of row "year")) sorted in
  let value_ok :=
    filter (λ row, DataModels.validate_gini_value (cell_of row "value")) year_ok in
  let unique :=
    reverse (keep_first ["year"; "country_code"] (reverse value_ok)) in
  merge_sort (row_le ["year"]) unique.

(** A row that passes the two filters of [clean_gini_data]. *)
Definition passes (row : gmap string cell) : Prop :=
  DataModels.validate_year (cell_of row "year") = true
  ∧ DataModels.validate_gini_value (cell_of row "value") = true.
End adapter_notions.

(** A row of a table with a country and a Gini value. *)
Definition metric_row (code : string) (gini : cell) : gmap string cell :=
  {[ "country_code" := CStr code; "gini" := gini ]}.

(** ** Notions used in the further properties *)

(** Two results that are the same exception, or numbers that are equal. *)
Definition same_number (r1 r2 : result Q) : Prop :=
  match r1, r2 with
  | Ok a, Ok b => a == b
  | Raise e1, Raise e2 => e1 = e2
  | _, _ => False
  end.

(** What [gini_coefficient] computes from the ascending positive values. *)
Definition gini_sorted (s : list Q) : result Q :=
  if decide (length s = 1%nat) then Ok 0
  else if decide (Forall (λ x, x == first s) s) then Ok 0
  else Ok (py_max 0 (py_min 1 (gini_formula s))).

(** A cell that is missing, or a number with the property [P]. *)
Definition number_in (P : Q → Prop) (c : cell) : Prop :=
  match c with
  | CNA => True
  | CInt z => P (inject_Z z)
  | CNum q => P q
  | CStr _ => False
  end.

(** What [validate_column] makes of the table it is given. *)
Definition validated (col : string)
    (invalid valid : gmap string cell → result bool) (d : DataFrame)
    : result DataFrame :=
  if has_column d col then
    i ←r select_rows invalid d;
    if negb (df_empty i) then select_rows valid d else Ok d
  else Ok d.

(** A comparison that came out true. *)
Definition holds (r : result bool) : bool :=
  match r with Ok b => b | Raise _ => false end.

(** The label [standardize_column_names] gives to the column [c]. *)
Definition standard_label (c : string) : string :=
  str_underscore (str_lower (default c (DataCleaning.column_mapping !! c))).

(** * Properties *)

(** ** Numbers and sorting *)

#[global] Instance Qle_total : Total Qle.
Proof. intros x y. destruct (Qlt_le_dec x y); [left; lra | right; lra]. Qed.
#[global] Instance Qle_trans' : Transitive Qle.
Proof. intros x y z; apply Qle_trans. Qed.

Lemma np_sort_perm (a : list Q) : np_sort a ≡ₚ a.
Proof. apply merge_sort_Permutation. Qed.

Lemma np_sort_sorted (a : list Q) : Sorted Qle (np_sort a).
Proof. apply (Sorted_merge_sort Qle). Qed.

Lemma np_sort_length (a : list Q) : length (np_sort a) = length a.
Proof. apply Permutation_length, np_sort_perm. Qed.

Lemma np_sort_elem (a : list Q) (x : Q) : x ∈ np_sort a ↔ x ∈ a.
Proof. by rewrite np_sort_perm. Qed.

Lemma positive_values_pos (values : list Q) (x : Q) :
  x ∈ positive_values values → 0 < x.
Proof. unfold positive_values. rewrite list_elem_of_filter. tauto. Qed.

Lemma filter_all {A} (P : A → Prop) `{∀ x, Decision (P x)} (l : list A) :
  (∀ x, x ∈ l → P x) → filter P l = l.
Proof.
  induction l as [|a l IH]; intros Hall; [done|].
  rewrite filter_cons_True by (apply Hall; left).
  f_equal. apply IH. intros x Hx. apply Hall. by right.
Qed.

Lemma clamp_bounds (g : Q) : 0 <= py_max 0 (py_min 1 g) <= 1.
Proof. unfold py_max, py_min. repeat case_decide; lra. Qed.

Lemma first_elem (a : list Q) : a ≠ [] → first a ∈ a.
Proof. destruct a; [done|]. intros _. left. Qed.

(** ** [gini_coefficient] *)

Lemma sorted_positive_nonzero (values : list Q) :
  filter (λ x, 0 < x) (np_sort (positive_values values))
  = np_sort (positive_values values).
Proof.
  apply filter_all. intros x Hx.
  apply (positive_values_pos values). by apply np_sort_elem.
Qed.

Lemma gini_trace_positive (values : list Q) :
  positive_values values ≠ [] →
  gini_trace values =
    let s := np_sort (positive_values values) in
    if decide (length s = 1%nat) then (ExitSingle, Ok 0)
    else if decide (Forall (λ x, x == first s) s) then (ExitAllEqual, Ok 0)
    else (ExitFormula, Ok (py_max 0 (py_min 1 (gini_formula s)))).
Proof.
  intros Hne. unfold gini_trace.
  destruct (decide (values = [])) as [->|_]; [done|].
  destruct (decide (length (positive_values values) = 0%nat)) as [H0|_].
  { by apply nil_length_inv in H0. }
  cbv zeta. rewrite sorted_positive_nonzero.
  repeat case_decide; try done; lia.
Qed.

Lemma rank_products_imap (k : nat) (xs : list Q) :
  zip_with Qmult ((λ i, inject_Z (Z.of_nat i)) <$> seq (S k) (length xs)) xs
  = imap (λ i x, inject_Z (Z.of_nat (k + i + 1)) * x) xs.
Proof.
  revert k. induction xs as [|x xs IH]; intros k; [done|].
  simpl. f_equal.
  - do 3 f_equal. lia.
  - rewrite IH. apply imap_ext. intros i y _. simpl. do 3 f_equal. lia.
Qed.

Lemma gini_formula_spec (xs : list Q) : gini_formula xs = spec_gini xs.
Proof.
  unfold gini_formula, spec_gini, spec_rank_sum, np_arange1.
  by rewrite (rank_products_imap 0).
Qed.

Lemma clamp_spec (g : Q) : py_max 0 (py_min 1 g) == spec_clamp01 g.
Proof. unfold py_max, py_min, spec_clamp01. repeat case_decide; lra. Qed.

Lemma np_sum_constant (c : Q) (xs : list Q) :
  Forall (λ x, x == c) xs → np_sum xs == inject_Z (Z.of_nat (length xs)) * c.
Proof.
  induction 1 as [|x xs Hx _ IH].
  - simpl. change (inject_Z 0) with 0. ring.
  - cbn [np_sum foldr length]. fold (np_sum xs).
    rewrite IH, Hx. rewrite Nat2Z.inj_succ. unfold Z.succ. rewrite inject_Z_plus.
    change (inject_Z 1) with 1. ring.
Qed.

Lemma rank_sum_constant (c : Q) (k : nat) (xs : list Q) :
  Forall (λ x, x == c) xs →
  2 * np_sum (imap (λ i x, inject_Z (Z.of_nat (k + i + 1)) * x) xs)
  == c * inject_Z (Z.of_nat (length xs))
       * (2 * inject_Z (Z.of_nat k) + inject_Z (Z.of_nat (length xs)) + 1).
Proof.
  intros Hxs. revert k. induction Hxs as [|x xs Hx _ IH]; intros k.
  - simpl. change (inject_Z 0) with 0. ring.
  - rewrite imap_cons. cbn [np_sum foldr]. fold (np_sum (imap ((λ i x0, inject_Z (Z.of_nat (k + i + 1)) * x0) ∘ S) xs)).
    assert (Hext : imap ((λ i x0, inject_Z (Z.of_nat (k + i + 1)) * x0) ∘ S) xs
                   = imap (λ i x0, inject_Z (Z.of_nat (S k + i + 1)) * x0) xs).
    { apply imap_ext. intros i y _. simpl. do 3 f_equal. lia. }
    rewrite Hext. rewrite Qmult_plus_distr_r, (IH (S k)), Hx.
    cbn [length]. rewrite !Nat2Z.inj_succ, !Nat2Z.inj_add. unfold Z.succ.
    rewrite !inject_Z_plus. change (inject_Z (Z.of_nat 0)) with 0.
    change (inject_Z (Z.of_nat 1)) with 1. change (inject_Z 1) with 1. ring.
Qed.

Lemma spec_gini_constant (c : Q) (xs : list Q) :
  Forall (λ x, x == c) xs → spec_gini xs == 0.
Proof.
  intros Hxs. unfold spec_gini, spec_rank_sum. cbv zeta.
  pose proof (rank_sum_constant c 0 xs Hxs) as Hrank.
  assert (Hext : imap (λ i x, inject_Z (Z.of_nat (0 + i + 1)) * x) xs
                 = imap (λ i x, inject_Z (Z.of_nat (i + 1)) * x) xs) by done.
  rewrite Hext in Hrank. 
  assert (Hnum : 2 * np_sum (imap (λ i x, inject_Z (Z.of_nat (i + 1)) * x) xs)
                 - (inject_Z (Z.of_nat (length xs)) + 1) * np_sum xs == 0).
  { rewrite Hrank, (np_sum_constant c xs Hxs).
    change (inject_Z (Z.of_nat 0)) with 0. ring. }
  unfold Qdiv. rewrite Hnum. ring.
Qed.

(** C1.  (a) A sample that has a positive value [c] and whose positive
    values all equal [c] has Gini coefficient exactly 0.  (b) A sample with
    at least one positive value has a Gini coefficient, and it lies in
    [[0,1]].  (c) That coefficient is the rank-weighted formula of the
    specification, evaluated on the ascending arrangement [xs] of the
    positive values and clamped to [[0,1]]; this holds in particular of a
    sample with [n > 1] distinct positive values (on one whose positive
    values are all equal the formula gives 0 as well). *)
Theorem gini_coefficient_spec (values : list Q) :
  ((∃ c, c ∈ values ∧ 0 < c ∧ ∀ x, x ∈ values → 0 < x → x == c) →
     gini_coefficient values = Ok 0)
  ∧ ((∃ x, x ∈ values ∧ 0 < x) →
     ∃ g, gini_coefficient values = Ok g ∧ 0 <= g <= 1)
  ∧ ((∃ x, x ∈ values ∧ 0 < x) →
     ∃ xs g, Sorted Qle xs ∧ xs ≡ₚ positive_values values
       ∧ gini_coefficient values = Ok g
       ∧ g == spec_clamp01 (spec_gini xs)).
Proof.
  assert (Hin : ∀ x, x ∈ values → 0 < x → x ∈ np_sort (positive_values values)).
  { intros x Hx Hpos. apply np_sort_elem, list_elem_of_filter. done. }
  assert (Hne : ∀ x, x ∈ values → 0 < x → positive_values values ≠ []).
  { intros x Hx Hpos Hnil. specialize (Hin x Hx Hpos).
    rewrite Hnil in Hin. by apply not_elem_of_nil in Hin. }
  unfold gini_coefficient. split; [|split].
  - intros (c & Hc & Hpos & Hall).
    rewrite gini_trace_positive by eauto. cbv zeta.
    set (s := np_sort (positive_values values)).
    assert (Hs : ∀ x, x ∈ s → x == c).
    { intros x Hx. unfold s in Hx. rewrite np_sort_elem in Hx.
      apply list_elem_of_filter in Hx as [? ?]. by apply Hall. }
    destruct (decide (length s = 1%nat)); [done|].
    rewrite decide_True; [done|].
    apply Forall_forall. intros x Hx.
    rewrite (Hs x Hx). symmetry. apply Hs, first_elem.
    intros Hnil. rewrite Hnil in Hx. by apply not_elem_of_nil in Hx.
  - intros (x & Hx & Hpos).
    rewrite gini_trace_positive by eauto. cbv zeta.
    repeat case_decide; simpl; eexists; (split; [done|]);
      try apply clamp_bounds; lra.
  - intros (x & Hx & Hpos).
    exists (np_sort (positive_values values)).
    rewrite gini_trace_positive by eauto. cbv zeta.
    set (s := np_sort (positive_values values)).
    assert (Hconst : Forall (λ x, x == first s) s →
                     0 == spec_clamp01 (spec_gini s)).
    { intros Hall. pose proof (spec_gini_constant (first s) s Hall) as Hzero.
      unfold spec_clamp01. repeat case_decide; lra. }
    assert (Hsorted : Sorted Qle s) by apply np_sort_sorted.
    assert (Hperm : s ≡ₚ positive_values values) by apply np_sort_perm.
    destruct (decide (length s = 1%nat)) as [H1|_].
    { exists 0. repeat split; [done..|]. apply Hconst.
      destruct s as [|a [|b s']]; simplify_eq/=. by repeat constructor. }
    destruct (decide (Forall (λ x, x == first s) s)) as [Hall|_].
    { exists 0. repeat split; [done..|]. by apply Hconst. }
    eexists. repeat split; [done..|].
    rewrite gini_formula_spec. apply clamp_spec.
Qed.

Lemma gini_coefficient_spec_witness :
  gini_coefficient [5; 0; 5; -1; 5] = Ok 0
  ∧ (∃ g, gini_coefficient [0; 3; 1] = Ok g ∧ 0 <= g <= 1)
  ∧ (∃ xs g, Sorted Qle xs ∧ xs ≡ₚ positive_values [0; 3; 1]
       ∧ gini_coefficient [0; 3; 1] = Ok g
       ∧ g == spec_clamp01 (spec_gini xs)).
Proof.
  split; [|split].
  - apply (gini_coefficient_spec [5; 0; 5; -1; 5]).
    exists 5. split; [set_solver|]. split; [lra|].
    intros x Hx Hpos. set_unfold in Hx. destruct_or!; subst; lra.
  - apply (gini_coefficient_spec [0; 3; 1]). exists 3.
    split; [set_solver|lra].
  - apply (gini_coefficient_spec [0; 3; 1]). exists 3.
    split; [set_solver|lra].
Defined.

(** C9.  The values that reach the "only one value is non-zero" test of
    [gini_coefficient] are all strictly positive, so the non-zero ones
    are all [n] of them; that count is 1 only for [n = 1], which has
    already returned 0.0 two statements earlier.  No input makes the
    function leave by the [return 1.0] of that test. *)
Theorem gini_one_nonzero_branch_dead (values : list Q) :
  let remaining := np_sort (positive_values values) in
  (∀ x, x ∈ remaining → 0 < x)
  ∧ length (filter (λ x, 0 < x) remaining) = length remaining
  ∧ (positive_values values ≠ [] → length remaining = 1%nat →
       gini_trace values = (ExitSingle, Ok 0))
  ∧ (gini_trace values).1 ≠ ExitOneNonZero.
Proof.
  cbv zeta. split; [|split; [|split]].
  - intros x Hx. apply (positive_values_pos values). by apply np_sort_elem.
  - by rewrite sorted_positive_nonzero.
  - intros Hne H1. rewrite gini_trace_positive by done. cbv zeta.
    by rewrite decide_True.
  - unfold gini_trace. cbv zeta. rewrite sorted_positive_nonzero.
    repeat case_decide; simpl; try done. lia.
Qed.

Lemma gini_one_nonzero_branch_dead_witness :
  gini_trace [0; 0; 0; 0; 100] = (ExitSingle, Ok 0).
Proof.
  apply (gini_one_nonzero_branch_dead [0; 0; 0; 0; 100]); by vm_compute.
Defined.

(** ** [palma_ratio] *)

(** C5, as stated, fails: a non-empty sample without any positive value
    has fewer than 10 values left after filtering and is refused as
    having no positive value, not as too small. *)
Lemma palma_ratio_no_positive_counterexample :
  ¬ (∀ values : list Q,
       (length (positive_values values) < 10)%nat →
       palma_ratio values = Raise InsufficientDataError).
Proof.
  intros H. specialize (H [0; -1]). vm_compute in H.
  assert (Hlt : (0 < 10)%nat) by lia.
  specialize (H Hlt). discriminate H.
Qed.

(** C5, amended.  With [n] the number of values left after filtering:
    an empty sample is refused as empty and a sample with [n = 0] as having
    no positive value; for [1 <= n < 10] the sample is refused as too
    small; for [n >= 10], with [top] the sum of the values at or above the
    90th percentile over the total and [bottom] the sum of the values at or
    below the 40th percentile over the total, the result is [top / bottom],
    or +infinity when [bottom] is zero and [top] positive, or 0 when both
    are zero. *)
Theorem palma_ratio_spec (values : list Q) :
  let xs := np_sort (positive_values values) in
  let n := length xs in
  let top := np_sum (filter (λ x, np_percentile xs 90 <= x) xs) / np_sum xs in
  let bottom := np_sum (filter (λ x, x <= np_percentile xs 40) xs) / np_sum xs in
  (values = [] → palma_ratio values = Raise EmptyInputError)
  ∧ (values ≠ [] → n = 0%nat → palma_ratio values = Raise NoPositiveValuesError)
  ∧ ((1 ≤ n < 10)%nat → palma_ratio values = Raise InsufficientDataError)
  ∧ ((10 ≤ n)%nat →
       (¬ bottom == 0 → palma_ratio values = Ok (Fin (top / bottom)))
       ∧ (bottom == 0 → 0 < top → palma_ratio values = Ok PosInf)
       ∧ (bottom == 0 → top == 0 → palma_ratio values = Ok (Fin 0))).
Proof.
  cbv zeta. rewrite np_sort_length.
  split; [|split; [|split]].
  - intros ->. done.
  - intros Hne H0. unfold palma_ratio.
    destruct (decide (values = [])); [done|]. by rewrite decide_True.
  - intros Hn. unfold palma_ratio.
    destruct (decide (values = [])) as [->|_]; [simpl in Hn; lia|].
    rewrite decide_False by lia. cbv zeta. rewrite np_sort_length.
    rewrite decide_True by lia. done.
  - intros Hn. unfold palma_ratio.
    destruct (decide (values = [])) as [->|_]; [simpl in Hn; lia|].
    rewrite decide_False by lia. cbv zeta. rewrite np_sort_length.
    rewrite decide_False by lia.
    split; [|split].
    + intros Hb. rewrite decide_False by done. unfold np_div.
      by rewrite decide_False.
    + intros Hb Ht. rewrite decide_True by done. by rewrite decide_True.
    + intros Hb Ht. rewrite decide_True by done.
      rewrite decide_False; [done|]. rewrite Ht. lra.
Qed.

Lemma palma_ratio_spec_witness :
  palma_ratio [] = Raise EmptyInputError
  ∧ palma_ratio [0; -1] = Raise NoPositiveValuesError
  ∧ palma_ratio [10; 20; 30; 40; 50] = Raise InsufficientDataError
  ∧ ∃ r, palma_ratio (replicate 18 10 ++ [1000; 1000]) = Ok (Fin r) ∧ r == 100 # 9.
Proof.
  split; [|split; [|split]].
  - by apply (palma_ratio_spec []).
  - apply (palma_ratio_spec [0; -1]); [done|by vm_compute].
  - apply (palma_ratio_spec [10; 20; 30; 40; 50]). vm_compute. lia.
  - eexists. split.
    + refine (proj1 (proj2 (proj2 (proj2
        (palma_ratio_spec (replicate 18 10 ++ [1000; 1000])))) _) _).
      * vm_compute. lia.
      * intros H. vm_compute in H. discriminate H.
    + reflexivity.
Defined.

(** ** [income_shares] *)

Lemma np_sum_positive (a : list Q) :
  a ≠ [] → (∀ x, x ∈ a → 0 < x) → 0 < np_sum a.
Proof.
  induction a as [|x a IH]; [done|]. intros _ Hall. simpl.
  assert (0 < x) by (apply Hall; left).
  destruct a as [|y a]; [simpl; lra|].
  assert (0 < np_sum (y :: a)); [|lra].
  apply IH; [done|]. intros z Hz. apply Hall. by right.
Qed.

Lemma total_income_positive (values : list Q) :
  positive_values values ≠ [] →
  0 < np_sum (np_sort (positive_values values)).
Proof.
  intros Hne. apply np_sum_positive.
  - intros Hnil. apply Hne, Permutation_nil_r. by rewrite <- Hnil, np_sort_perm.
  - intros x Hx. apply (positive_values_pos values). by apply np_sort_elem.
Qed.

Lemma income_shares_step_below_100 (values : list Q) (total : Q)
    (shares : gmap string Q) (p : Z) :
  (0 ≤ p < 100)%Z →
  income_shares_step values total shares p
  = <[share_key p :=
        np_sum (filter (λ x, x <= np_percentile values (inject_Z p)) values) / total]>
      shares.
Proof.
  intros Hp. unfold income_shares_step.
  rewrite decide_False by lia. by rewrite decide_False by lia.
Qed.

Lemma positive_values_nonempty (values : list Q) :
  (∃ x, x ∈ values ∧ 0 < x) → values ≠ [] ∧ positive_values values ≠ [].
Proof.
  intros (x & Hx & Hpos). split.
  - intros ->. by apply not_elem_of_nil in Hx.
  - intros Hnil. assert (Hin : x ∈ positive_values values).
    { by apply list_elem_of_filter. }
    rewrite Hnil in Hin. by apply not_elem_of_nil in Hin.
Qed.

(** C3.  On 100 copies of 100 every value is at or below every percentile
    threshold: the code returns 1 for [p50] and [bottom_50_share] and 0
    for [top_10_share], where the claim (and the repository's
    [test_perfect_equality]) expect 0.5, 0.5 and 0.1. *)
Theorem income_shares_equal_sample :
  let shares := income_shares (replicate 100 100) None in
  has_share shares "p50" 1
  ∧ has_share shares "top_10_share" 0
  ∧ has_share shares "bottom_50_share" 1.
Proof. cbv zeta. split; [|split]; vm_compute; reflexivity. Qed.

(** C6.  With [percentiles = [1, 10]] the test [1 in percentiles and 10
    in percentiles] passes and the code reads [shares['p99']], a key the
    loop has not written: on every sample with a positive value the call
    raises [KeyError], where the claim says it returns the percentile
    map. *)
Theorem income_shares_1_10_raises (values : list Q) :
  (∃ x, x ∈ values ∧ 0 < x) →
  income_shares values (Some [1; 10]%Z) = Raise (KeyError "p99").
Proof.
  intros Hpos. destruct (positive_values_nonempty values Hpos) as [Hne Hvs].
  unfold income_shares.
  rewrite decide_False by done.
  rewrite decide_False by (intros H0; by apply nil_length_inv in H0).
  cbv zeta.
  rewrite decide_False
    by (pose proof (total_income_positive values Hvs); lra).
  simpl default. simpl foldl.
  rewrite !income_shares_step_below_100 by lia.
  rewrite decide_True by (split; [left|right; left]).
  unfold getitem.
  rewrite !lookup_insert_ne by (by vm_compute).
  by rewrite lookup_empty.
Qed.

Lemma income_shares_1_10_raises_witness :
  income_shares [10; 20; 30] (Some [1; 10]%Z) = Raise (KeyError "p99").
Proof.
  apply (income_shares_1_10_raises [10; 20; 30]).
  exists 10. split; [set_solver|lra].
Defined.

(** ** [lorenz_curve_data] *)

(** C4.  On the sample [[1, 2]] with the default 100 points, the second
    point has population share 1/99 and income share 1/3: the slice
    [values[:index + 1]] counts the element at the index itself, so the
    curve lies above the diagonal there, where the claim says every
    interior income share is at most its population share. *)
Theorem lorenz_interior_above_diagonal :
  ∃ pop inc p s,
    lorenz_curve_data [1; 2] 100 = Ok (pop, inc)
    ∧ pop !! 1%nat = Some p ∧ inc !! 1%nat = Some s
    ∧ p == 1 # 99 ∧ s == 1 # 3 ∧ ¬ s <= p.
Proof.
  do 4 eexists. split; [by vm_compute|].
  split; [by vm_compute|]. split; [by vm_compute|].
  split; [reflexivity|]. split; [reflexivity|].
  intros H. vm_compute in H. by apply H.
Qed.

Lemma np_sum_app (a b : list Q) : np_sum (a ++ b) == np_sum a + np_sum b.
Proof. induction a as [|x a IH]; simpl; [lra|]. rewrite IH. lra. Qed.

Lemma np_sum_upper (c : Q) (a : list Q) :
  (∀ x, x ∈ a → x <= c) → np_sum a <= inject_Z (Z.of_nat (length a)) * c.
Proof.
  induction a as [|x a IH]; intros Hall.
  - simpl. rewrite Qmult_0_l. apply Qle_refl.
  - cbn [np_sum foldr length]. fold (np_sum a).
    rewrite Nat2Z.inj_succ. unfold Z.succ. rewrite inject_Z_plus.
    change (inject_Z 1) with 1.
    assert (x <= c) by (apply Hall; left).
    assert (np_sum a <= inject_Z (Z.of_nat (length a)) * c).
    { apply IH. intros y Hy. apply Hall. by right. }
    lra.
Qed.

Lemma np_sum_lower (c : Q) (a : list Q) :
  (∀ x, x ∈ a → c <= x) → inject_Z (Z.of_nat (length a)) * c <= np_sum a.
Proof.
  induction a as [|x a IH]; intros Hall.
  - simpl. rewrite Qmult_0_l. apply Qle_refl.
  - cbn [np_sum foldr length]. fold (np_sum a).
    rewrite Nat2Z.inj_succ. unfold Z.succ. rewrite inject_Z_plus.
    change (inject_Z 1) with 1.
    assert (c <= x) by (apply Hall; left).
    assert (inject_Z (Z.of_nat (length a)) * c <= np_sum a).
    { apply IH. intros y Hy. apply Hall. by right. }
    lra.
Qed.

(** In an ascending array of positive values the first [m] values hold
    at most the fraction [m/n] of the total. *)
Lemma prefix_share_bound (s : list Q) (m : nat) :
  Sorted Qle s → (∀ x, x ∈ s → 0 < x) → s ≠ [] → (m ≤ length s)%nat →
  np_sum (take m s) / np_sum s
  <= inject_Z (Z.of_nat m) / inject_Z (Z.of_nat (length s)).
Proof.
  intros Hsorted Hpos Hne Hm.
  apply Sorted_StronglySorted in Hsorted; [|apply _].
  set (a := take m s). set (b := drop m s).
  assert (Hs : s = a ++ b) by (symmetry; apply take_drop).
  assert (Hla : length a = m) by (unfold a; rewrite length_take; lia).
  assert (Hlen : length s = (m + length b)%nat).
  { rewrite Hs at 1. rewrite length_app. lia. }
  assert (Htotal : 0 < np_sum s) by by apply np_sum_positive.
  assert (Hn : 0 < inject_Z (Z.of_nat (length s))).
  { destruct s; [done|]. rewrite <- (Zlt_Qlt 0). simpl. lia. }
  assert (Hsum : np_sum s == np_sum a + np_sum b).
  { rewrite Hs at 1. apply np_sum_app. }
  apply Qle_shift_div_r; [done|].
  unfold Qdiv. rewrite <- Qmult_assoc, (Qmult_comm (/ _)), Qmult_assoc.
  apply Qle_shift_div_l; [done|].
  rewrite Hsum, Hlen, Nat2Z.inj_add, inject_Z_plus.
  assert (HM : 0 <= inject_Z (Z.of_nat m)) by (rewrite <- (Zle_Qle 0); lia).
  assert (HB : 0 <= inject_Z (Z.of_nat (length b))) by (rewrite <- (Zle_Qle 0); lia).
  destruct b as [|c b'] eqn:Hb.
  { cbn [length np_sum foldr]. change (inject_Z (Z.of_nat 0)) with 0.
    generalize (np_sum a), (inject_Z (Z.of_nat m)). intros A M. ring_simplify.
    apply Qle_refl. }
  assert (Ha : np_sum a <= inject_Z (Z.of_nat m) * c).
  { rewrite <- Hla. apply np_sum_upper. intros x Hx.
    rewrite Hs in Hsorted.
    eapply (StronglySorted_app_1_elem_of Qle); [exact Hsorted|exact Hx|left]. }
  assert (Hb' : inject_Z (Z.of_nat (length (c :: b'))) * c <= np_sum (c :: b')).
  { apply np_sum_lower. intros x Hx.
    apply elem_of_cons in Hx as [->|Hx]; [lra|].
    rewrite Hs in Hsorted. apply StronglySorted_app_1_r in Hsorted.
    apply StronglySorted_inv in Hsorted as [_ Hall].
    by eapply Forall_forall in Hall. }
  assert (Hc : 0 < c).
  { apply Hpos. rewrite Hs. apply elem_of_app. right. left. }
  revert HM HB Ha Hb' Hc.
  generalize (np_sum a), (np_sum (c :: b')), (inject_Z (Z.of_nat m)),
    (inject_Z (Z.of_nat (length (c :: b')))).
  intros A S M B HM HB Ha Hb' Hc.
  assert (A * B <= M * c * B) by nra.
  assert (M * (B * c) <= M * S) by nra.
  nra.
Qed.

(** What [lorenz_curve_data] does guarantee at an interior point: the
    income share is that of the [index + 1] poorest, hence at most
    [(index + 1) / n]. *)
Lemma lorenz_point_bound (values : list Q) (p : Q) :
  positive_values values ≠ [] → ¬ p == 0 → ¬ p == 1 →
  let s := np_sort (positive_values values) in
  let n := length s in
  let index := Z.to_nat (py_int (p * inject_Z (Z.of_nat n))) in
  let index := if decide (n ≤ index)%nat then (n - 1)%nat else index in
  lorenz_point s (np_sum s) p
  <= inject_Z (Z.of_nat (index + 1)) / inject_Z (Z.of_nat n).
Proof.
  intros Hne Hp0 Hp1. cbv zeta. unfold lorenz_point.
  rewrite decide_False by done. rewrite decide_False by done.
  assert (Hs : np_sort (positive_values values) ≠ []).
  { intros Hnil. apply Hne, Permutation_nil_r. by rewrite <- Hnil, np_sort_perm. }
  apply prefix_share_bound; [apply np_sort_sorted| |done|].
  - intros x Hx. apply (positive_values_pos values). by apply np_sort_elem.
  - destruct (np_sort (positive_values values)); [done|].
    case_decide; simpl in *; lia.
Qed.

(** The first and the last point of the curve, for two points or more. *)
Lemma lorenz_endpoints (values : list Q) (num_points : nat) :
  positive_values values ≠ [] → values ≠ [] → (2 ≤ num_points)%nat →
  ∃ pop inc p0 p1,
    lorenz_curve_data values num_points = Ok (pop, inc)
    ∧ head pop = Some p0 ∧ p0 == 0 ∧ last pop = Some p1 ∧ p1 == 1
    ∧ head inc = Some 0 ∧ last inc = Some 1.
Proof.
  intros Hpos Hne Hn. unfold lorenz_curve_data.
  rewrite decide_False by done.
  rewrite decide_False by (intros H0; by apply nil_length_inv in H0).
  cbv zeta.
  rewrite decide_False by (pose proof (total_income_positive values Hpos); lra).
  destruct num_points as [|[|k]]; [lia..|].
  set (f := λ i : nat, inject_Z (Z.of_nat i) / inject_Z (Z.of_nat (S (S k) - 1))).
  assert (Hlin : np_linspace01 (S (S k)) = f 0%nat :: (f <$> seq 1 k) ++ [f (S k)]).
  { unfold np_linspace01. fold f. rewrite (seq_S (S k)). simpl.
    by rewrite fmap_app. }
  assert (Hf0 : f 0%nat == 0) by (unfold f; reflexivity).
  assert (Hf1 : f (S k) == 1).
  { unfold f. replace (S (S k) - 1)%nat with (S k) by lia.
    apply Qmult_inv_r. intros Hz. unfold Qeq in Hz. simpl in Hz. lia. }
  do 2 eexists. exists (f 0%nat), (f (S k)).
  split; [done|]. rewrite Hlin.
  split; [done|]. split; [done|].
  split; [by rewrite app_comm_cons, last_snoc|]. split; [done|].
  split.
  - simpl. unfold lorenz_point. by rewrite decide_True.
  - rewrite fmap_cons, fmap_app, app_comm_cons.
    change (lorenz_point ?v ?t <$> [f (S k)]) with [lorenz_point v t (f (S k))].
    rewrite last_snoc.
    unfold lorenz_point. rewrite decide_False by (rewrite Hf1; lra).
    by rewrite decide_True.
Qed.

(** ** [calculate_all_metrics] *)

Lemma income_shares_default_ok (values : list Q) (shares : gmap string Q) :
  income_shares values None = Ok shares →
  ∃ s1 s10 s50 s90 s99 : Q,
    shares = <["bottom_50_share" := s50]> (<["top_10_share" := 1 - s90]>
             (<["top_1_share" := 1 - s99]> (<["p99" := s99]> (<["p90" := s90]>
             (<["p50" := s50]> (<["p10" := s10]> (<["p1" := s1]> ∅))))))).
Proof.
  unfold income_shares.
  destruct (decide (values = [])); [done|].
  destruct (decide (length (positive_values values) = 0%nat)); [done|].
  cbv zeta.
  destruct (decide (np_sum (np_sort (positive_values values)) == 0)); [done|].
  simpl default. unfold default_percentiles. simpl foldl.
  rewrite !income_shares_step_below_100 by lia.
  change (share_key 1) with "p1". change (share_key 10) with "p10".
  change (share_key 50) with "p50". change (share_key 90) with "p90".
  change (share_key 99) with "p99".
  rewrite decide_True by (split; set_solver).
  unfold getitem. rewrite lookup_insert_eq. cbn [rbind].
  rewrite lookup_insert_ne by done. rewrite lookup_insert_ne by done.
  rewrite lookup_insert_eq. cbn [rbind].
  rewrite decide_True by set_solver.
  do 4 (rewrite lookup_insert_ne by done). rewrite lookup_insert_eq. cbn [rbind].
  intros [= <-]. by do 5 eexists.
Qed.

Lemma complete_metrics_keys (gini theil atkinson : Q) (palma : pyfloat)
    (shares : gmap string Q) (s1 s10 s50 s90 s99 : Q) :
  shares = <["bottom_50_share" := s50]> (<["top_10_share" := 1 - s90]>
           (<["top_1_share" := 1 - s99]> (<["p99" := s99]> (<["p90" := s90]>
           (<["p50" := s50]> (<["p10" := s10]> (<["p1" := s1]> ∅))))))) →
  let metrics : gmap string pyfloat :=
    (Fin <$> shares)
    ∪ <["atkinson_index" := Fin atkinson]> (<["theil_index" := Fin theil]>
      (<["palma_ratio" := palma]> (<["gini" := Fin gini]> ∅))) in
  ∃ a b c d,
    getitem shares "top_10_share" = Ok a
    ∧ getitem shares "top_1_share" = Ok c
    ∧ getitem shares "bottom_50_share" = Ok b
    ∧ getitem shares "bottom_50_share" = Ok d
    ∧ "top_10_share" ∈ dom shares ∧ "top_1_share" ∈ dom shares
    ∧ "bottom_50_share" ∈ dom shares
    ∧ ∀ k, k ∈ all_metric_keys →
        is_Some ((<["top_1_vs_bottom_50" := np_div c d]>
                  (<["palma_ratio_manual" := np_div a b]> metrics)) !! k).
Proof.
  intros ->. cbv zeta. unfold getitem.
  exists (1 - s90), s50, (1 - s99), s50.
  split; [by simplify_map_eq|]. split; [by simplify_map_eq|].
  split; [by simplify_map_eq|]. split; [by simplify_map_eq|].
  split; [set_solver|]. split; [set_solver|]. split; [set_solver|].
  intros k Hk. unfold all_metric_keys in Hk.
  repeat (apply elem_of_cons in Hk as [->|Hk];
          [rewrite ?lookup_insert_ne by done; rewrite ?lookup_insert_eq;
           rewrite ?lookup_union, ?lookup_fmap;
           by simplify_map_eq|]).
  by apply not_elem_of_nil in Hk.
Qed.

Lemma palma_ratio_small (values : list Q) :
  (length (positive_values values) < 10)%nat →
  ∃ e, palma_ratio values = Raise e.
Proof.
  intros Hn. unfold palma_ratio.
  destruct (decide (values = [])); [by eexists|].
  destruct (decide (length (positive_values values) = 0%nat)); [by eexists|].
  cbv zeta. rewrite np_sort_length. rewrite decide_True by done. by eexists.
Qed.

Lemma gini_coefficient_positive (values : list Q) :
  positive_values values ≠ [] → ∃ g, gini_coefficient values = Ok g.
Proof.
  intros Hne. unfold gini_coefficient. rewrite gini_trace_positive by done.
  cbv zeta. repeat case_decide; by eexists.
Qed.

(** C2.  [calculate_all_metrics] returns a dictionary on every input
    (an error raised inside it never leaves it), and that dictionary is
    either empty or has every key of [all_metric_keys].  A sample with
    fewer than 10 positive values gives the empty dictionary, because
    [palma_ratio] fails; so does a sample of 5 positive values, although
    [gini_coefficient] succeeds on it. *)
Theorem calculate_all_metrics_all_or_nothing
    (np_log np_exp : Q → Q) (np_pow : Q → Q → Q) (values : list Q) :
  let metrics := calculate_all_metrics np_log np_exp np_pow values in
  (metrics = ∅ ∨ ∀ k, k ∈ all_metric_keys → is_Some (metrics !! k))
  ∧ (∀ e, calculate_all_metrics_body np_log np_exp np_pow values = Raise e →
       metrics = ∅)
  ∧ ((length (positive_values values) < 10)%nat → metrics = ∅)
  ∧ (length values = 5%nat → (∀ x, x ∈ values → 0 < x) →
       metrics = ∅ ∧ ∃ g, gini_coefficient values = Ok g).
Proof.
  cbv zeta.
  assert (Hsmall : (length (positive_values values) < 10)%nat →
                   calculate_all_metrics np_log np_exp np_pow values = ∅).
  { intros Hn. destruct (palma_ratio_small values Hn) as [e He].
    unfold calculate_all_metrics, calculate_all_metrics_body.
    destruct (gini_coefficient values); [|done]. cbn [rbind].
    by rewrite He. }
  split; [|split; [|split]].
  - unfold calculate_all_metrics, calculate_all_metrics_body.
    destruct (gini_coefficient values) as [gini|]; [|by left].
    destruct (palma_ratio values) as [palma|]; [|by left].
    destruct (theil_index np_log values) as [theil|]; [|by left].
    destruct (atkinson_index np_log np_exp np_pow values 1) as [atkinson|];
      [|by left].
    destruct (income_shares values None) as [shares|] eqn:Hshares; [|by left].
    cbn [rbind].
    destruct (income_shares_default_ok values shares Hshares)
      as (s1 & s10 & s50 & s90 & s99 & Heq).
    destruct (complete_metrics_keys gini theil atkinson palma shares
                s1 s10 s50 s90 s99 Heq)
      as (a & b & c & d & Ha & Hc & Hb & Hd & Hin10 & Hin1 & Hin50 & Hkeys).
    rewrite !decide_True by done.
    rewrite Ha, Hc. rewrite Hb in Hd |- *. simplify_eq. cbn [rbind].
    right. exact Hkeys.
  - intros e He. unfold calculate_all_metrics. by rewrite He.
  - exact Hsmall.
  - intros Hlen Hpos.
    assert (Hvs : positive_values values = values) by by apply filter_all.
    split.
    + apply Hsmall. rewrite Hvs. lia.
    + apply gini_coefficient_positive. rewrite Hvs.
      intros ->. simpl in Hlen. lia.
Qed.

Lemma calculate_all_metrics_all_or_nothing_witness :
  calculate_all_metrics (λ x, x) (λ x, x) (λ x _, x) [10; 20; 30; 40; 50] = ∅
  ∧ ∃ g, gini_coefficient [10; 20; 30; 40; 50] = Ok g.
Proof.
  apply (calculate_all_metrics_all_or_nothing
           (λ x, x) (λ x, x) (λ x _, x) [10; 20; 30; 40; 50]).
  - reflexivity.
  - intros x Hx. set_unfold in Hx. destruct_or!; subst; lra.
Defined.


Lemma triple_ret {A} h0 (a : A) h (P : A → heap → Prop) :
  h0 `prefix_of` h → P a h → triple h0 (ret a) h P.
Proof. by split. Qed.

Lemma triple_raise {A} h0 e h (P : A → heap → Prop) :
  h0 `prefix_of` h → triple h0 (raise e) h P.
Proof. by split. Qed.

Lemma triple_bind {A B} h0 (m : M A) (k : A → M B) h (P : B → heap → Prop) :
  triple h0 m h (λ a h', triple h0 (k a) h' P) → triple h0 (bind m k) h P.
Proof.
  unfold triple, bind. destruct (m h) as [[a|e] h']; simpl; [|done].
  intros [_ Hk]. exact Hk.
Qed.

Lemma triple_mono {A} h0 (m : M A) h (P P' : A → heap → Prop) :
  triple h0 m h P → (∀ a h', h0 `prefix_of` h' → P a h' → P' a h') →
  triple h0 m h P'.
Proof.
  unfold triple. destruct (m h) as [[a|e] h']; simpl; [|done].
  intros [Hpre HP] Himp. split; [done|]. by apply Himp.
Qed.

(** A computation that keeps the store it started from keeps any
    earlier store too. *)
Lemma triple_base {A} h0 (m : M A) h (P : A → heap → Prop) :
  h0 `prefix_of` h → triple h m h P →
  triple h0 m h (λ a h', h `prefix_of` h' ∧ P a h').
Proof.
  unfold triple. destruct (m h) as [[a|e] h']; simpl.
  - intros Hpre [Hh HP]. split; [by etrans|done].
  - intros Hpre [Hh _]. split; [by etrans|done].
Qed.

Lemma triple_load h0 r h (P : DataFrame → heap → Prop) :
  h0 `prefix_of` h → (∀ d, h !! r = Some d → P d h) → triple h0 (load r) h P.
Proof.
  intros Hpre HP. unfold triple, load.
  destruct (h !! r) as [d|] eqn:Hr; simpl.
  - split; [done|]. by apply HP.
  - by split.
Qed.

Lemma prefix_snoc (h0 h : heap) (d : DataFrame) :
  h0 `prefix_of` h → h0 `prefix_of` h ++ [d].
Proof. intros. by apply prefix_app_r. Qed.

Lemma prefix_update (h0 h : heap) (r : ref) (d : DataFrame) :
  h0 `prefix_of` h → length h0 ≤ r → h0 `prefix_of` <[r := d]> h.
Proof.
  intros [k ->] Hr. exists (<[(r - length h0)%nat := d]> k).
  by rewrite insert_app_r_alt.
Qed.

Lemma triple_alloc h0 d h (P : ref → heap → Prop) :
  h0 `prefix_of` h → P (length h) (h ++ [d]) → triple h0 (alloc d) h P.
Proof. intros Hpre HP. split; [by apply prefix_snoc|done]. Qed.

(** A method that returns a new frame: the reference is a fresh one. *)
Lemma triple_df_new h0 r f h (P : ref → heap → Prop) :
  h0 `prefix_of` h → (∀ d', P (length h) (h ++ [d'])) →
  triple h0 (df_new r f) h P.
Proof.
  intros Hpre HP. unfold df_new. apply triple_bind, triple_load; [done|].
  intros d _. destruct (f d); [by apply triple_alloc | by apply triple_raise].
Qed.

Lemma triple_df_copy h0 r h (P : ref → heap → Prop) :
  h0 `prefix_of` h → (∀ d', P (length h) (h ++ [d'])) →
  triple h0 (df_copy r) h P.
Proof.
  intros Hpre HP. unfold df_copy. apply triple_bind, triple_load; [done|].
  intros d _. by apply triple_alloc.
Qed.

(** A change in place is allowed on an object that [h0] does not have. *)
Lemma triple_df_update h0 r f h (P : unit → heap → Prop) :
  h0 `prefix_of` h → length h0 ≤ r →
  (∀ h', h0 `prefix_of` h' → length h' = length h → P tt h') →
  triple h0 (df_update r f) h P.
Proof.
  intros Hpre Hr HP. unfold df_update. apply triple_bind, triple_load; [done|].
  intros d _. destruct (f d) as [d'|e]; [|by apply triple_raise].
  split; simpl; [by apply prefix_update|].
  apply HP; [by apply prefix_update | by rewrite length_insert].
Qed.

Lemma triple_for_each {A} h0 (l : list A) (body : A → M unit) h (I : heap → Prop) :
  h0 `prefix_of` h → I h →
  (∀ a h, h0 `prefix_of` h → I h → triple h0 (body a) h (λ _ h', I h')) →
  triple h0 (for_each l body) h (λ _ h', I h').
Proof.
  intros Hpre HI Hbody. revert h Hpre HI.
  induction l as [|a l IH]; intros h Hpre HI; simpl.
  - by apply triple_ret.
  - apply triple_bind. eapply triple_mono; [by apply Hbody|].
    intros u h' Hpre' HI'. by apply IH.
Qed.

Lemma triple_for_fold {A S} h0 (l : list A) (s : S) (body : S → A → M S) h
    (I : S → heap → Prop) :
  h0 `prefix_of` h → I s h →
  (∀ s a h, h0 `prefix_of` h → I s h → triple h0 (body s a) h I) →
  triple h0 (for_fold l s body) h I.
Proof.
  intros Hpre HI Hbody. revert s h Hpre HI.
  induction l as [|a l IH]; intros s h Hpre HI; simpl.
  - by apply triple_ret.
  - apply triple_bind. eapply triple_mono; [by apply Hbody|].
    intros s' h' Hpre' HI'. by apply IH.
Qed.


Lemma fresh_alloc (h0 h : heap) (d : DataFrame) :
  h0 `prefix_of` h → fresh h0 (h ++ [d]) (length h).
Proof.
  intros Hpre. apply prefix_length in Hpre. unfold fresh.
  rewrite length_app. simpl. lia.
Qed.

Lemma fresh_grow (h0 h h' : heap) (r : ref) :
  fresh h0 h r → length h ≤ length h' → fresh h0 h' r.
Proof. unfold fresh. lia. Qed.

Lemma step_new h0 r f h (P : ref → heap → Prop) :
  h0 `prefix_of` h →
  (∀ r' h', h0 `prefix_of` h' → length h ≤ length h' → fresh h0 h' r' → P r' h') →
  triple h0 (df_new r f) h P.
Proof.
  intros Hpre HP. apply triple_df_new; [done|]. intros d'.
  apply HP; [by apply prefix_snoc | rewrite length_app; lia | by apply fresh_alloc].
Qed.

Lemma step_copy h0 r h (P : ref → heap → Prop) :
  h0 `prefix_of` h →
  (∀ r' h', h0 `prefix_of` h' → length h ≤ length h' → fresh h0 h' r' → P r' h') →
  triple h0 (df_copy r) h P.
Proof.
  intros Hpre HP. apply triple_df_copy; [done|]. intros d'.
  apply HP; [by apply prefix_snoc | rewrite length_app; lia | by apply fresh_alloc].
Qed.

Lemma step_alloc h0 d h (P : ref → heap → Prop) :
  h0 `prefix_of` h →
  (∀ r' h', h0 `prefix_of` h' → length h ≤ length h' → fresh h0 h' r' → P r' h') →
  triple h0 (alloc d) h P.
Proof.
  intros Hpre HP. apply triple_alloc; [done|].
  apply HP; [by apply prefix_snoc | rewrite length_app; lia | by apply fresh_alloc].
Qed.

Lemma step_update h0 r f h (P : unit → heap → Prop) :
  h0 `prefix_of` h → fresh h0 h r →
  (∀ h', h0 `prefix_of` h' → length h ≤ length h' → P tt h') →
  triple h0 (df_update r f) h P.
Proof.
  intros Hpre [Hr _] HP. apply triple_df_update; [done..|].
  intros h' Hpre' Hlen. apply HP; [done|lia].
Qed.

Lemma step_for_each {A} h0 (l : list A) (body : A → M unit) h (P : unit → heap → Prop) :
  h0 `prefix_of` h →
  (∀ a h1, h0 `prefix_of` h1 → length h ≤ length h1 →
     triple h0 (body a) h1 (λ _ h2, length h1 ≤ length h2)) →
  (∀ h', h0 `prefix_of` h' → length h ≤ length h' → P tt h') →
  triple h0 (for_each l body) h P.
Proof.
  intros Hpre Hbody HP.
  eapply triple_mono.
  - apply (triple_for_each h0 l body h (λ h', length h ≤ length h')); [done..|].
    intros a h1 Hpre1 Hlen1. eapply triple_mono; [by apply Hbody|].
    simpl. intros _ h2 _ Hlen2. lia.
  - simpl. intros [] h' Hpre' Hlen'. by apply HP.
Qed.


Lemma step_call h0 (f : ref → M ref) arg h (P : ref → heap → Prop) :
  pipeline_function f →
  h0 `prefix_of` h → fresh h0 h arg →
  (∀ r' h', h0 `prefix_of` h' → length h ≤ length h' → fresh h0 h' r' → P r' h') →
  triple h0 (f arg) h P.
Proof.
  intros Hf Hpre Harg HP.
  eapply triple_mono; [apply triple_base; [done|apply Hf]|].
  simpl. intros r' h' Hpre' [Hhh' Hr'].
  apply prefix_length in Hhh'. apply prefix_length in Hpre.
  apply HP; [done..|].
  destruct Hr' as [->|[? ?]]; [by eapply fresh_grow|]. unfold fresh. lia.
Qed.

(** The references known to be new stay so when the store grows. *)
Ltac heap_grow :=
  repeat match goal with
         | Hlen : length ?h ≤ length ?h', Hf : fresh ?h0 ?h ?r |- _ =>
             apply (fresh_grow h0 h h' r) in Hf; [|exact Hlen]
         end.

Ltac heap_step :=
  lazymatch goal with
  | |- triple _ (bind _ _) _ _ => apply triple_bind
  | |- triple _ (ret _) _ _ => apply triple_ret; [done|]
  | |- triple _ (raise _) _ _ => by apply triple_raise
  | |- triple _ (load _) _ _ => apply triple_load; [done|]; intros ? ?
  | |- triple _ (df_copy _) _ _ =>
      apply step_copy; [done|]; intros ? ? ? ? ?; heap_grow
  | |- triple _ (df_new _ _) _ _ =>
      apply step_new; [done|]; intros ? ? ? ? ?; heap_grow
  | |- triple _ (alloc _) _ _ =>
      apply step_alloc; [done|]; intros ? ? ? ? ?; heap_grow
  | |- triple _ (df_update _ _) _ _ =>
      apply step_update; [done|done|]; intros ? ? ?; heap_grow
  | |- triple _ (for_each _ _) _ _ =>
      apply step_for_each;
      [done | intros ? ? ? ?; heap_grow | intros ? ? ?; heap_grow]
  | |- triple _ (if ?b then _ else _) _ _ => destruct b eqn:?
  end.

Ltac heap_steps := repeat heap_step; first [done | simpl; lia].

(** ** The cleaning functions and the store *)

Section store_properties.
Context `{Library}.

Lemma triple_dangling (f : ref → M ref) h df :
  f df h = (Raise DanglingReference, h) →
  triple h (f df) h (λ r h', r = df ∨ fresh h h' r).
Proof. intros Hf. unfold triple. by rewrite Hf. Qed.

Lemma triple_alias (f : ref → M ref) h df :
  f df h = (Ok df, h) →
  triple h (f df) h (λ r h', r = df ∨ fresh h h' r).
Proof. intros Hf. unfold triple. rewrite Hf. simpl. split; [done|by left]. Qed.

(** *** [clean_gini_data] *)

Lemma clean_gini_data_alias h df d :
  h !! df = Some d → df_empty d = true →
  DataModels.clean_gini_data df h = (Ok df, h).
Proof.
  intros Hd He. unfold DataModels.clean_gini_data, bind, load.
  rewrite Hd. by rewrite He.
Qed.

Lemma clean_gini_data_new h df d :
  h !! df = Some d → df_empty d = false →
  triple h (DataModels.clean_gini_data df) h (λ r h', fresh h h' r).
Proof.
  intros Hd He. unfold DataModels.clean_gini_data.
  do 2 heap_step. simplify_eq. rewrite He.
  heap_steps.
Qed.

Lemma clean_gini_data_pipeline : pipeline_function DataModels.clean_gini_data.
Proof.
  intros h df. destruct (h !! df) as [d|] eqn:Hd.
  - destruct (df_empty d) eqn:He.
    + by eapply triple_alias, clean_gini_data_alias.
    + eapply triple_mono; [by eapply clean_gini_data_new|]. naive_solver.
  - apply triple_dangling. unfold DataModels.clean_gini_data, bind, load.
    by rewrite Hd.
Qed.

(** *** [handle_missing_values] of [data_models.py] *)

Lemma dm_handle_missing_values_alias h df d method :
  h !! df = Some d → df_empty d = true →
  DataModels.handle_missing_values df method h = (Ok df, h).
Proof.
  intros Hd He. unfold DataModels.handle_missing_values, bind, load.
  rewrite Hd. by rewrite He.
Qed.

Lemma dm_handle_missing_values_new h df d method :
  h !! df = Some d → df_empty d = false →
  triple h (DataModels.handle_missing_values df method) h (λ r h', fresh h h' r).
Proof.
  intros Hd He. unfold DataModels.handle_missing_values.
  do 2 heap_step. simplify_eq. rewrite He.
  heap_steps.
Qed.

Lemma dm_handle_missing_values_pipeline method :
  pipeline_function (λ df, DataModels.handle_missing_values df method).
Proof.
  intros h df. destruct (h !! df) as [d|] eqn:Hd.
  - destruct (df_empty d) eqn:He.
    + apply (triple_alias (λ df, DataModels.handle_missing_values df method)).
      by eapply dm_handle_missing_values_alias.
    + eapply triple_mono; [by eapply dm_handle_missing_values_new|]. naive_solver.
  - apply (triple_dangling (λ df, DataModels.handle_missing_values df method)).
    unfold DataModels.handle_missing_values, bind, load. by rewrite Hd.
Qed.

(** *** [normalize_country_codes] *)

Lemma normalize_country_codes_alias h df d country_column :
  h !! df = Some d → has_column d country_column = false →
  DataCleaning.normalize_country_codes df country_column h = (Ok df, h).
Proof.
  intros Hd Hc. unfold DataCleaning.normalize_country_codes, bind, load.
  rewrite Hd. by rewrite Hc.
Qed.

Lemma normalize_country_codes_new h df d country_column :
  h !! df = Some d → has_column d country_column = true →
  triple h (DataCleaning.normalize_country_codes df country_column) h
    (λ r h', fresh h h' r).
Proof.
  intros Hd Hc. unfold DataCleaning.normalize_country_codes.
  do 2 heap_step. simplify_eq. rewrite Hc. simpl.
  heap_steps.
Qed.

Lemma normalize_country_codes_pipeline country_column :
  pipeline_function (λ df, DataCleaning.normalize_country_codes df country_column).
Proof.
  intros h df. destruct (h !! df) as [d|] eqn:Hd.
  - destruct (has_column d country_column) eqn:Hc.
    + eapply triple_mono; [by eapply normalize_country_codes_new|]. naive_solver.
    + apply (triple_alias
               (λ df, DataCleaning.normalize_country_codes df country_column)).
      by eapply normalize_country_codes_alias.
  - apply (triple_dangling
             (λ df, DataCleaning.normalize_country_codes df country_column)).
    unfold DataCleaning.normalize_country_codes, bind, load. by rewrite Hd.
Qed.

(** *** The helpers of [clean_inequality_data] *)

Lemma dc_handle_missing_values_new h df :
  triple h (DataCleaning.handle_missing_values df) h (λ r h', fresh h h' r).
Proof.
  unfold DataCleaning.handle_missing_values. heap_steps.
Qed.

Lemma standardize_column_names_new h df :
  triple h (DataCleaning.standardize_column_names df) h (λ r h', fresh h h' r).
Proof. unfold DataCleaning.standardize_column_names. heap_steps. Qed.

Lemma validate_data_types_new h df :
  triple h (DataCleaning.validate_data_types df) h (λ r h', fresh h h' r).
Proof.
  unfold DataCleaning.validate_data_types. heap_steps.
Qed.

Lemma always_new_pipeline (f : ref → M ref) :
  (∀ h df, triple h (f df) h (λ r h', fresh h h' r)) → pipeline_function f.
Proof. intros Hf h df. eapply triple_mono; [apply Hf|]. naive_solver. Qed.

(** *** [clean_inequality_data] *)

Lemma clean_inequality_data_alias h df d :
  h !! df = Some d → df_empty d = true →
  DataCleaning.clean_inequality_data df h = (Ok df, h).
Proof.
  intros Hd He. unfold DataCleaning.clean_inequality_data, bind, load.
  rewrite Hd. by rewrite He.
Qed.

Lemma clean_inequality_data_new h df d :
  h !! df = Some d → df_empty d = false →
  triple h (DataCleaning.clean_inequality_data df) h (λ r h', fresh h h' r).
Proof.
  intros Hd He. unfold DataCleaning.clean_inequality_data.
  do 2 heap_step. simplify_eq. rewrite He.
  do 5 heap_step.
  assert (Hrest : ∀ r1 h1, h `prefix_of` h1 → fresh h h1 r1 →
    triple h
      (let* df_clean := DataCleaning.handle_missing_values r1 in
       let* df_clean := DataCleaning.standardize_column_names df_clean in
       let* df_clean := DataCleaning.validate_data_types df_clean in
       let* d := load df_clean in
       let* df_clean := df_new df_clean (drop_duplicates (columns d) KeepFirst) in
       let* d := load df_clean in
       let* df_clean :=
         (if has_column d "country_code" && has_column d "year"
          then df_new df_clean (sort_values ["country_code"; "year"])
          else ret df_clean) in
       ret df_clean) h1 (λ r h', fresh h h' r)).
  { intros r1 h1 Hpre1 Hfresh1.
    heap_step.
    apply (step_call h DataCleaning.handle_missing_values);
      [apply always_new_pipeline, dc_handle_missing_values_new|done..|].
    intros r2 h2 Hpre2 Hlen2 Hfresh2. heap_step.
    apply (step_call h DataCleaning.standardize_column_names);
      [apply always_new_pipeline, standardize_column_names_new|done..|].
    intros r3 h3 Hpre3 Hlen3 Hfresh3. heap_step.
    apply (step_call h DataCleaning.validate_data_types);
      [apply always_new_pipeline, validate_data_types_new|done..|].
    intros r4 h4 Hpre4 Hlen4 Hfresh4.
    heap_steps. }
  heap_step.
  - apply (step_call h (λ df, DataCleaning.normalize_country_codes df "country_code"));
      [apply normalize_country_codes_pipeline|done..|].
    intros r1 h1 Hpre1 Hlen1 Hfresh1. by apply Hrest.
  - heap_step. by apply Hrest.
Qed.

Lemma clean_inequality_data_pipeline :
  pipeline_function DataCleaning.clean_inequality_data.
Proof.
  intros h df. destruct (h !! df) as [d|] eqn:Hd.
  - destruct (df_empty d) eqn:He.
    + by eapply triple_alias, clean_inequality_data_alias.
    + eapply triple_mono; [by eapply clean_inequality_data_new|]. naive_solver.
  - apply triple_dangling. unfold DataCleaning.clean_inequality_data, bind, load.
    by rewrite Hd.
Qed.
End store_properties.

Lemma copies_unless_intro (guard : DataFrame → bool) (f : ref → M ref) :
  (∀ h df d, h !! df = Some d → guard d = true → f df h = (Ok df, h)) →
  (∀ h df d, h !! df = Some d → guard d = false →
     triple h (f df) h (λ r h', fresh h h' r)) →
  copies_unless guard f.
Proof.
  intros Halias Hnew h df d Hd. destruct (guard d) eqn:Hg.
  - rewrite (Halias h df d Hd Hg). simpl. done.
  - destruct (Hnew h df d Hd Hg) as [Hpre Hres].
    split; [done|]. split; [by eapply prefix_lookup_Some|].
    intros r Hr. rewrite Hr in Hres. destruct Hres as [? ?].
    split; [done|]. by apply lookup_lt_is_Some.
Qed.

(** C10, as stated, fails: on a table without rows [clean_gini_data]
    returns the table it was given, not a new one. *)
Lemma clean_gini_data_returns_argument_counterexample :
  ¬ copies_unless (λ _, false) (@DataModels.clean_gini_data plain_library).
Proof.
  intros Hcopy.
  destruct (Hcopy [ {| columns := ["year"; "value"; "country_code"]; rows := [] |} ]
              0%nat _ eq_refl) as (_ & _ & Hnew).
  destruct (Hnew 0%nat eq_refl) as [Hlt _]. simpl in Hlt. lia.
Qed.

(** C10, amended.  Each of the four cleaning functions leaves the table
    it is given, and every other table of the caller, exactly as it was.
    It returns a new table, except where its first test sends the argument
    back: [normalize_country_codes] when the country column is absent, the
    other three when the table is empty; the table returned is then the
    argument itself. *)
Theorem cleaning_functions_keep_input `{Library} (country_column method : string) :
  copies_unless (λ d, negb (has_column d country_column))
    (λ df, DataCleaning.normalize_country_codes df country_column)
  ∧ copies_unless df_empty DataCleaning.clean_inequality_data
  ∧ copies_unless df_empty DataModels.clean_gini_data
  ∧ copies_unless df_empty (λ df, DataModels.handle_missing_values df method).
Proof.
  split; [|split; [|split]]; apply copies_unless_intro.
  - intros h df d Hd Hg. apply (normalize_country_codes_alias h df d); [done|].
    by destruct (has_column d country_column).
  - intros h df d Hd Hg. apply (normalize_country_codes_new h df d); [done|].
    by destruct (has_column d country_column).
  - apply clean_inequality_data_alias.
  - apply clean_inequality_data_new.
  - apply clean_gini_data_alias.
  - apply clean_gini_data_new.
  - intros h df d. apply dm_handle_missing_values_alias.
  - intros h df d. apply dm_handle_missing_values_new.
Qed.

(** ** The order of [sort_values] *)

Lemma cell_compare_antisym (a b : cell) :
  cell_compare b a = CompOpp (cell_compare a b).
Proof.
  destruct a, b; simpl; try done.
  - apply Z.compare_antisym.
  - by rewrite <- Qcompare_antisym.
  - by rewrite <- Qcompare_antisym.
  - by rewrite <- Qcompare_antisym.
  - apply String.compare_antisym.
Qed.

Lemma key_compare_antisym (k1 k2 : list cell) :
  key_compare k2 k1 = CompOpp (key_compare k1 k2).
Proof.
  revert k2. induction k1 as [|a k1 IH]; intros [|b k2]; simpl; try done.
  rewrite (cell_compare_antisym a b).
  destruct (cell_compare a b); simpl; [apply IH|done..].
Qed.

#[global] Instance row_le_total (by_ : list string) : Total (row_le by_).
Proof.
  intros r1 r2. unfold row_le, key_le.
  rewrite (key_compare_antisym (row_key by_ r1) (row_key by_ r2)).
  destruct (key_compare (row_key by_ r1) (row_key by_ r2)); simpl; auto.
Qed.

(** ** The API-response adapter *)


Lemma adapter_row_year y v c : cell_of (adapter_row y v c) "year" = CInt y.
Proof. reflexivity. Qed.
Lemma adapter_row_value y v c : cell_of (adapter_row y v c) "value" = CNum v.
Proof. reflexivity. Qed.
Lemma adapter_row_code y v c : cell_of (adapter_row y v c) "country_code" = CStr c.
Proof. reflexivity. Qed.

Lemma adapter_row_set_value y v c w :
  <["value" := CNum w]> (adapter_row y v c) = adapter_row y w c.
Proof. reflexivity. Qed.
Lemma adapter_row_set_code y v c c' :
  <["country_code" := CStr c']> (adapter_row y v c) = adapter_row y v c'.
Proof. reflexivity. Qed.

Lemma percent_range (v : Q) : 0 <= v <= 100 → 0 <= percent v <= 100.
Proof. unfold percent. case_decide; lra. Qed.

Section adapter.
Context `{Library}.

Lemma convert_entry_admitted code acc fields y v :
  admitted fields y v →
  DataModels.convert_entry code acc (Entry fields)
  = acc ++ [adapter_row y (percent v) (str_upper code)].
Proof.
  intros (Hy & Hyr & Hv & Hvr). unfold DataModels.convert_entry.
  unfold DataModels.validate_year, DataModels.validate_gini_value.
  rewrite Hy, Hv.
  destruct (cell_of fields "date") eqn:Hd; [done|..];
    (destruct (cell_of fields "value") eqn:Hval; [done|..]); simpl;
    rewrite bool_decide_true by done;
    rewrite (bool_decide_true (0 <= v ∧ v <= 100)) by done; simpl; done.
Qed.

Lemma convert_entry_inv code acc entry :
  DataModels.convert_entry code acc entry = acc
  ∨ ∃ fields y v, entry = Entry fields ∧ admitted fields y v.
Proof.
  destruct entry as [|fields]; [by left|]. unfold DataModels.convert_entry.
  destruct (is_na _ || is_na _); [by left|].
  destruct (DataModels.validate_year _) eqn:Hy; [|by left].
  destruct (DataModels.validate_gini_value _) eqn:Hv; [|by left]. simpl.
  unfold DataModels.validate_year in Hy.
  unfold DataModels.validate_gini_value in Hv.
  destruct (DataModels.int_of_cell _) as [y|] eqn:Hyi; [|done].
  destruct (DataModels.float_of_cell _) as [v|] eqn:Hvi; [|done].
  right. exists fields, y, v. split; [done|].
  apply bool_decide_eq_true in Hy.
  apply orb_true_iff in Hv as [Hv|Hv]; apply bool_decide_eq_true in Hv;
    destruct Hv; (split; [done|]); (split; [done|]); (split; [done|]); lra.
Qed.

Lemma processed_data_elem code resp acc row :
  row ∈ foldl (DataModels.convert_entry code) acc resp ↔
  row ∈ acc
  ∨ ∃ fields y v, Entry fields ∈ resp ∧ admitted fields y v
      ∧ row = adapter_row y (percent v) (str_upper code).
Proof.
  revert acc. induction resp as [|entry resp IH]; intros acc; simpl.
  { split; [by left|]. intros [?|(? & ? & ? & Hin & _)]; [done|].
    by apply not_elem_of_nil in Hin. }
  rewrite IH. clear IH.
  destruct (convert_entry_inv code acc entry) as [Heq|(fields & y & v & -> & Hadm)].
  - rewrite Heq. split.
    + intros [?|(f & y & v & Hin & ?)]; [by left|].
      right. exists f, y, v. split; [by right|done].
    + intros [?|(f & y & v & Hin & Hadm & ->)]; [by left|].
      apply elem_of_cons in Hin as [Hentry|Hin].
      * subst entry.
        rewrite (convert_entry_admitted code acc f y v Hadm) in Heq.
        apply (f_equal length) in Heq. rewrite length_app in Heq.
        simpl in Heq. lia.
      * right. by exists f, y, v.
  - rewrite (convert_entry_admitted code acc fields y v Hadm).
    rewrite elem_of_app, list_elem_of_singleton. split.
    + intros [[?| ->]|(f & y' & v' & Hin & ?)].
      * by left.
      * right. exists fields, y, v. split; [by left|done].
      * right. exists f, y', v'. split; [by right|done].
    + intros [?|(f & y' & v' & Hin & Hadm' & ->)]; [by left; left|].
      apply elem_of_cons in Hin as [[= ->]|Hin].
      * left; right.
        destruct Hadm as (Hy & _ & Hv & _), Hadm' as (Hy' & _ & Hv' & _).
        congruence.
      * right. by exists f, y', v'.
Qed.
End adapter.

(** *** Running the adapter *)

Lemma exec_bind {A B} (m : M A) (k : A → M B) h a h1 :
  m h = (Ok a, h1) → bind m k h = k a h1.
Proof. intros Hm. unfold bind. by rewrite Hm. Qed.

Lemma exec_load (h : heap) r d : h !! r = Some d → load r h = (Ok d, h).
Proof. intros Hr. unfold load. by rewrite Hr. Qed.

Lemma exec_new (h : heap) r d f d' :
  h !! r = Some d → f d = Ok d' → df_new r f h = (Ok (length h), h ++ [d']).
Proof.
  intros Hr Hf. unfold df_new. rewrite (exec_bind _ _ _ _ _ (exec_load h r d Hr)).
  by rewrite Hf.
Qed.

Lemma exec_copy (h : heap) r d :
  h !! r = Some d → df_copy r h = (Ok (length h), h ++ [d]).
Proof.
  intros Hr. unfold df_copy. by rewrite (exec_bind _ _ _ _ _ (exec_load h r d Hr)).
Qed.

Lemma exec_update (h : heap) r d f d' :
  h !! r = Some d → f d = Ok d' → df_update r f h = (Ok tt, <[r := d']> h).
Proof.
  intros Hr Hf. unfold df_update. rewrite (exec_bind _ _ _ _ _ (exec_load h r d Hr)).
  by rewrite Hf.
Qed.

Lemma mapM_result_ok {A B} (f : A → result B) (g : A → B) (l : list A) :
  Forall (λ a, f a = Ok (g a)) l → mapM_result f l = Ok (g <$> l).
Proof.
  induction 1 as [|a l Ha _ IH]; [done|]. simpl. by rewrite Ha, IH.
Qed.




Lemma forallb_Forall_true {A} (f : A → bool) (l : list A) :
  Forall (λ a, f a = true) l → forallb f l = true.
Proof. induction 1 as [|a l Ha _ IH]; [done|]. simpl. by rewrite Ha, IH. Qed.

Lemma sortable_year (l : list (gmap string cell)) :
  Forall shaped l →
  sortable (column {| columns := DataModels.required_columns; rows := l |} "year") = true.
Proof.
  intros Hl. unfold sortable, column. simpl. apply orb_true_iff. left.
  apply forallb_Forall_true, Forall_fmap. eapply Forall_impl; [done|].
  intros row (y & v & c & ->). done.
Qed.

Lemma sort_values_year (l : list (gmap string cell)) :
  Forall shaped l →
  sort_values ["year"] {| columns := DataModels.required_columns; rows := l |}
  = Ok {| columns := DataModels.required_columns;
          rows := merge_sort (row_le ["year"]) l |}.
Proof.
  intros Hl. unfold sort_values.
  change (list_find _ ["year"]) with (@None (nat * string)).
  cbn [forallb]. by rewrite sortable_year.
Qed.


Lemma set_value_row w y v c : set_value w (adapter_row y v c) = adapter_row y (w v) c.
Proof. reflexivity. Qed.
Lemma set_code_row w y v c : set_code w (adapter_row y v c) = adapter_row y v (w c).
Proof. reflexivity. Qed.

Lemma shaped_set_value w l : Forall shaped l → Forall shaped (set_value w <$> l).
Proof.
  intros Hl. apply Forall_fmap. eapply Forall_impl; [done|].
  intros row (y & v & c & ->). by exists y, (w v), c.
Qed.

Lemma assign_value_shaped (f : cell → result cell) (w : Q → Q) l :
  (∀ v, f (CNum v) = Ok (CNum (w v))) → Forall shaped l →
  assign_apply "value" "value" f
    {| columns := DataModels.required_columns; rows := l |}
  = Ok {| columns := DataModels.required_columns; rows := set_value w <$> l |}.
Proof.
  intros Hf Hl. unfold assign_apply.
  change (has_column _ "value") with true. cbn [rows columns].
  erewrite (mapM_result_ok _ (set_value w)); [done|].
  eapply Forall_impl; [done|]. intros row (y & v & c & ->).
  rewrite adapter_row_value, Hf. simpl.
  by rewrite adapter_row_set_value, set_value_row.
Qed.

Lemma assign_code_shaped (f : cell → result cell) (w : string → string) l :
  (∀ c, f (CStr c) = Ok (CStr (w c))) → Forall shaped l →
  assign_apply "country_code" "country_code" f
    {| columns := DataModels.required_columns; rows := l |}
  = Ok {| columns := DataModels.required_columns; rows := set_code w <$> l |}.
Proof.
  intros Hf Hl. unfold assign_apply.
  change (has_column _ "country_code") with true. cbn [rows columns].
  erewrite (mapM_result_ok _ (set_code w)); [done|].
  eapply Forall_impl; [done|]. intros row (y & v & c & ->).
  rewrite adapter_row_code, Hf. simpl.
  by rewrite adapter_row_set_code, set_code_row.
Qed.

Lemma finish_shaped l :
  Forall shaped l →
  set_code str_upper <$> (set_value round2 <$> (set_value percent <$> l))
  = finish <$> l.
Proof.
  intros Hl. rewrite <- !list_fmap_compose. apply Forall_fmap_ext.
  eapply Forall_impl; [done|]. intros row (y & v & c & ->). simpl.
  by rewrite !set_value_row, set_code_row.
Qed.

Lemma lookup_snoc (h : heap) (d : DataFrame) : (h ++ [d]) !! length h = Some d.
Proof. by rewrite list_lookup_middle. Qed.

Lemma insert_snoc (h : heap) (d d' : DataFrame) :
  <[length h := d']> (h ++ [d]) = h ++ [d'].
Proof. rewrite insert_app_r_alt by lia. by rewrite Nat.sub_diag. Qed.

Lemma for_each_skip {A} (l : list A) (body : A → M unit) (h : heap) :
  Forall (λ a, body a h = (Ok tt, h)) l → for_each l body h = (Ok tt, h).
Proof.
  induction 1 as [|a l Ha _ IH]; [done|]. simpl.
  by rewrite (exec_bind _ _ _ _ _ Ha).
Qed.

Section adapter_run.
Context `{Library}.


Lemma shaped_processed code resp :
  Forall shaped (foldl (DataModels.convert_entry code) [] resp).
Proof.
  apply Forall_forall. intros row Hrow.
  apply processed_data_elem in Hrow as [Hrow|(? & y & v & _ & _ & ->)].
  - by apply not_elem_of_nil in Hrow.
  - by eexists _, _, _.
Qed.

Lemma keep_first_elem subset (l : list (gmap string cell)) row :
  row ∈ keep_first subset l → row ∈ l.
Proof.
  induction l as [|r l IH]; simpl; [done|].
  intros [->|Hrow]%elem_of_cons; [by left|].
  apply list_elem_of_filter in Hrow as [_ Hrow]. right. by apply IH.
Qed.

Lemma keep_first_year (l : list (gmap string cell)) row :
  Forall shaped l → row ∈ l →
  ∃ row', row' ∈ keep_first ["year"; "country_code"] l
          ∧ year_of row' = year_of row.
Proof.
  induction 1 as [|r l Hr Hl IH]; [by intros ?%not_elem_of_nil|].
  intros [->|Hrow]%elem_of_cons.
  { exists r. split; [by left|done]. }
  destruct (IH Hrow) as (row' & Hin' & Hyear).
  cbn [keep_first].
  destruct (key_same (row_key ["year"; "country_code"] r)
              (row_key ["year"; "country_code"] row')) eqn:Hsame.
  - exists r. split; [by left|]. rewrite <- Hyear.
    destruct Hr as (y & v & c & ->).
    assert (Hs : shaped row').
    { eapply Forall_forall; [exact Hl|]. by eapply keep_first_elem. }
    destruct Hs as (y' & v' & c' & ->).
    simpl in Hsame. apply andb_true_iff in Hsame as [Hsame _].
    rewrite !adapter_row_year in Hsame. simpl in Hsame.
    apply bool_decide_eq_true in Hsame. by subst.
  - exists row'. split; [|done]. right.
    apply list_elem_of_filter. split; [|done]. by rewrite Hsame.
Qed.

Lemma cleaned_rows_elem processed row :
  row ∈ cleaned_rows processed → row ∈ processed.
Proof.
  unfold cleaned_rows. cbv zeta.
  rewrite merge_sort_Permutation, elem_of_reverse.
  intros Hrow%keep_first_elem. rewrite elem_of_reverse in Hrow.
  apply list_elem_of_filter in Hrow as [_ Hrow].
  apply list_elem_of_filter in Hrow as [_ Hrow].
  by rewrite merge_sort_Permutation in Hrow.
Qed.

Lemma shaped_cleaned_rows processed :
  Forall shaped processed → Forall shaped (cleaned_rows processed).
Proof.
  intros Hp. apply Forall_forall. intros row Hrow%cleaned_rows_elem.
  by eapply Forall_forall in Hp.
Qed.


Lemma cleaned_rows_year processed row :
  Forall shaped processed → row ∈ processed → passes row →
  ∃ row', row' ∈ cleaned_rows processed ∧ year_of row' = year_of row.
Proof.
  intros Hp Hrow [Hy Hv].
  set (value_ok :=
    filter (λ row, DataModels.validate_gini_value (cell_of row "value"))
      (filter (λ row, DataModels.validate_year (cell_of row "year"))
         (merge_sort (row_le ["year"]) processed))).
  assert (Hin : row ∈ reverse value_ok).
  { rewrite elem_of_reverse. unfold value_ok.
    apply list_elem_of_filter. split; [by rewrite Hv|].
    apply list_elem_of_filter. split; [by rewrite Hy|].
    by rewrite merge_sort_Permutation. }
  assert (Hs : Forall shaped (reverse value_ok)).
  { apply Forall_forall. intros r Hr. rewrite elem_of_reverse in Hr.
    unfold value_ok in Hr.
    apply list_elem_of_filter in Hr as [_ Hr].
    apply list_elem_of_filter in Hr as [_ Hr].
    rewrite merge_sort_Permutation in Hr. by eapply Forall_forall in Hp. }
  destruct (keep_first_year _ row Hs Hin) as (row' & Hin' & Hyear).
  exists row'. split; [|done]. unfold cleaned_rows. cbv zeta.
  rewrite merge_sort_Permutation, elem_of_reverse. exact Hin'.
Qed.

Lemma select_year l :
  select_by "year" DataModels.validate_year
    {| columns := DataModels.required_columns; rows := l |}
  = Ok {| columns := DataModels.required_columns;
          rows := filter (λ row, DataModels.validate_year (cell_of row "year")) l |}.
Proof. reflexivity. Qed.

Lemma select_value l :
  select_by "value" DataModels.validate_gini_value
    {| columns := DataModels.required_columns; rows := l |}
  = Ok {| columns := DataModels.required_columns;
          rows := filter (λ row, DataModels.validate_gini_value (cell_of row "value")) l |}.
Proof. reflexivity. Qed.

Lemma drop_duplicates_year_code l :
  drop_duplicates ["year"; "country_code"] KeepLast
    {| columns := DataModels.required_columns; rows := l |}
  = Ok {| columns := DataModels.required_columns;
          rows := reverse (keep_first ["year"; "country_code"] (reverse l)) |}.
Proof. reflexivity. Qed.

Lemma clean_gini_data_shaped (h : heap) df (l : list (gmap string cell)) :
  h !! df = Some {| columns := DataModels.required_columns; rows := l |} →
  l ≠ [] → Forall shaped l →
  run_from h (DataModels.clean_gini_data df)
  = Ok {| columns := DataModels.required_columns;
          rows := finish <$>
            merge_sort (row_le ["year"])
              (reverse (keep_first ["year"; "country_code"] (reverse
                 (filter (λ row, DataModels.validate_gini_value (cell_of row "value"))
                    (filter (λ row, DataModels.validate_year (cell_of row "year"))
                       l))))) |}.
Proof.
  intros Hdf Hne Hl. unfold run_from, DataModels.clean_gini_data.
  rewrite (exec_bind _ _ _ _ _ (exec_load _ _ _ Hdf)).
  assert (He : df_empty {| columns := DataModels.required_columns; rows := l |} = false).
  { unfold df_empty. simpl. by rewrite bool_decide_false. }
  rewrite He.
  set (unique := reverse (keep_first ["year"; "country_code"] (reverse
                 (filter (λ row, DataModels.validate_gini_value (cell_of row "value"))
                    (filter (λ row, DataModels.validate_year (cell_of row "year"))
                       l))))).
  assert (Hu : Forall shaped unique).
  { apply Forall_reverse, Forall_forall. intros row Hrow%keep_first_elem.
    rewrite elem_of_reverse in Hrow.
    apply list_elem_of_filter in Hrow as [_ Hrow].
    apply list_elem_of_filter in Hrow as [_ Hrow].
    by eapply Forall_forall in Hl. }
  assert (Hs : Forall shaped (merge_sort (row_le ["year"]) unique)).
  { by rewrite merge_sort_Permutation. }
  rewrite (exec_bind _ _ _ _ _ (exec_copy _ _ _ Hdf)).
  erewrite exec_bind; cycle 1.
  { apply for_each_skip. repeat constructor.
    all: by rewrite (exec_bind _ _ _ _ _ (exec_load _ _ _ (lookup_snoc _ _))). }
  erewrite exec_bind;
    [|eapply exec_new; [apply lookup_snoc|apply select_year]].
  erewrite exec_bind;
    [|eapply exec_new; [apply lookup_snoc|apply select_value]].
  erewrite exec_bind;
    [|eapply exec_new; [apply lookup_snoc|apply drop_duplicates_year_code]].
  erewrite exec_bind;
    [|eapply exec_new; [apply lookup_snoc|by apply sort_values_year]].
  erewrite exec_bind;
    [|eapply exec_new; [apply lookup_snoc|reflexivity]].
  erewrite exec_bind; cycle 1.
  { eapply exec_update; [apply lookup_snoc|].
    apply (assign_value_shaped _ percent); [|done].
    intros v. unfold percent. simpl. by case_decide. }
  rewrite insert_snoc.
  erewrite exec_bind; cycle 1.
  { eapply exec_update; [apply lookup_snoc|].
    apply (assign_value_shaped _ round2); [done|]. by apply shaped_set_value. }
  rewrite insert_snoc.
  erewrite exec_bind; cycle 1.
  { eapply exec_update; [apply lookup_snoc|].
    apply (assign_code_shaped _ str_upper); [done|].
    by do 2 apply shaped_set_value. }
  rewrite insert_snoc. unfold ret. rewrite lookup_snoc.
  by rewrite finish_shaped.
Qed.

Lemma run_from_bind {A} (m : M A) (k : A → M ref) h a h1 :
  m h = (Ok a, h1) → run_from h (bind m k) = run_from h1 (k a).
Proof. intros Hm. unfold run_from. by rewrite (exec_bind _ _ _ _ _ Hm). Qed.

Lemma adapter_pipeline_run api_response country_code :
  ∃ cols,
    run_from [] (DataModels.adapter_pipeline api_response country_code)
    = Ok {| columns := cols;
            rows := finish <$>
              cleaned_rows
                (foldl (DataModels.convert_entry country_code) [] api_response) |}.
Proof.
  unfold DataModels.adapter_pipeline,
    DataModels.convert_api_response_to_dataframe.
  destruct (decide (api_response = [])) as [->|Hresp].
  { exists DataModels.required_columns. reflexivity. }
  pose proof (shaped_processed country_code api_response) as Hshaped.
  destruct (foldl (DataModels.convert_entry country_code) [] api_response)
    as [|row processed] eqn:Hp.
  { exists []. reflexivity. }
  exists DataModels.required_columns.
  erewrite run_from_bind; cycle 1.
  { cbv zeta.
    erewrite exec_bind; [|reflexivity].
    erewrite exec_bind; [|reflexivity].
    change (df_empty _) with false. cbn [negb].
    erewrite exec_bind; cycle 1.
    { erewrite exec_bind;
        [|eapply exec_new; [reflexivity|by apply sort_values_year]].
      eapply exec_new; reflexivity. }
    reflexivity. }
  rewrite (clean_gini_data_shaped _ _ (merge_sort (row_le ["year"]) (row :: processed))).
  - reflexivity.
  - reflexivity.
  - intros Hnil. apply (f_equal length) in Hnil.
    rewrite (Permutation_length (merge_sort_Permutation _ _)) in Hnil. done.
  - by rewrite merge_sort_Permutation.
Qed.

Lemma sorted_years (l : list (gmap string cell)) :
  Forall shaped l → Sorted (row_le ["year"]) l → Sorted Z.le (year_of <$> l).
Proof.
  intros Hl Hsorted. induction Hsorted as [|row l _ IH Hhd]; [constructor|].
  apply Forall_cons in Hl as [Hrow Hl]. simpl. constructor; [by apply IH|].
  destruct Hhd as [|row' l' Hle]; simpl; constructor.
  apply Forall_cons in Hl as [Hrow' _].
  destruct Hrow as (y & v & c & ->), Hrow' as (y' & v' & c' & ->).
  unfold row_le, key_le in Hle. simpl in Hle.
  rewrite !adapter_row_year in Hle. simpl in Hle.
  change (year_of (adapter_row y v c)) with y.
  change (year_of (adapter_row y' v' c')) with y'.
  apply Z.compare_le_iff. intros Hgt. by rewrite Hgt in Hle.
Qed.

Lemma admitted_passes fields y v c :
  admitted fields y v → passes (adapter_row y (percent v) c).
Proof.
  intros (_ & Hy & _ & Hv). apply percent_range in Hv. split.
  - rewrite adapter_row_year. unfold DataModels.validate_year. simpl.
    by apply bool_decide_eq_true.
  - rewrite adapter_row_value. unfold DataModels.validate_gini_value. simpl.
    by rewrite bool_decide_true.
Qed.
End adapter_run.

Lemma percent_twice (value : Q) :
  1 # 100 < value → percent (percent value) == percent value.
Proof. intros Hv. unfold percent. repeat case_decide; lra. Qed.

(** C7, as stated, fails: a raw value of 0.005 leaves the converter as
    0.5, which the cleaning step, seeing a value of at most 1, multiplies
    by 100 again; the cleaned value is 50, not 0.5. *)
Lemma adapter_pipeline_scales_twice_counterexample :
  Qred <$> cleaned_values
    (run_from []
       (@DataModels.adapter_pipeline plain_library
          [Entry {[ "date" := CStr "2020"; "value" := CNum (5 # 1000) ]}] "USA"))
  = [50]
  ∧ ¬ 50 == round2 (percent (5 # 1000)).
Proof.
  split; [vm_compute; reflexivity|].
  intros Heq. vm_compute in Heq. discriminate Heq.
Qed.

(** C7, amended.  The adapter returns a table for every response.  Each
    of its rows comes from an admitted entry of the response, with that
    entry's year and with its value normalized by each of the two stages
    and rounded to 2 decimals; every admitted entry has its year in the
    table; the years ascend.  For a value above 0.01 the two
    normalizations amount to one: a value of at most 1 is multiplied by
    100, a larger one is kept; so 0.355 gives 35.5 and 36.0 stays 36.0.  A
    value of at most 0.01 is multiplied by 100 twice. *)
Theorem adapter_pipeline_spec `{Library}
    (api_response : list api_entry) (country_code : string) :
  ∃ table,
    run_from [] (DataModels.adapter_pipeline api_response country_code) = Ok table
    ∧ (∀ row, row ∈ rows table →
         ∃ fields year value,
           Entry fields ∈ api_response ∧ admitted fields year value
           ∧ cell_of row "year" = CInt year
           ∧ cell_of row "value" = CNum (round2 (percent (percent value))))
    ∧ (∀ fields year value,
         Entry fields ∈ api_response → admitted fields year value →
         ∃ row, row ∈ rows table ∧ cell_of row "year" = CInt year)
    ∧ Sorted Z.le (year_of <$> rows table)
    ∧ (∀ value, 1 # 100 < value → percent (percent value) == percent value)
    ∧ round2 (percent (percent (355 # 1000))) == 355 # 10
    ∧ round2 (percent (percent 36)) == 36.
Proof.
  destruct (adapter_pipeline_run api_response country_code) as [cols Hrun].
  pose proof (shaped_processed country_code api_response) as Hshaped.
  eexists. split; [exact Hrun|]. cbn [rows].
  split; [|split; [|split; [|split; [|split]]]].
  - intros row (r & -> & Hr%cleaned_rows_elem)%list_elem_of_fmap.
    apply processed_data_elem in Hr as [Hr|(fields & y & v & Hin & Hadm & ->)].
    { by apply not_elem_of_nil in Hr. }
    exists fields, y, v. done.
  - intros fields y v Hin Hadm.
    destruct (cleaned_rows_year _ (adapter_row y (percent v) (str_upper country_code))
                Hshaped) as (row' & Hin' & Hyear).
    { apply processed_data_elem. right. by exists fields, y, v. }
    { by eapply admitted_passes. }
    exists (finish row'). split; [by apply list_elem_of_fmap_2|].
    unfold finish. rewrite adapter_row_year. by rewrite Hyear.
  - rewrite <- list_fmap_compose.
    apply (sorted_years _ (shaped_cleaned_rows _ Hshaped)).
    apply (Sorted_merge_sort (row_le ["year"])).
  - apply percent_twice.
  - by vm_compute.
  - by vm_compute.
Qed.

Lemma adapter_pipeline_spec_witness :
  ∃ table,
    run_from []
      (@DataModels.adapter_pipeline plain_library
         [Entry {[ "date" := CStr "2020"; "value" := CNum (355 # 1000) ]};
          Entry {[ "date" := CStr "2019"; "value" := CNum 36 ]}] "usa") = Ok table
    ∧ ∃ row, row ∈ rows table ∧ cell_of row "year" = CInt 2020.
Proof.
  destruct (@adapter_pipeline_spec plain_library
              [Entry {[ "date" := CStr "2020"; "value" := CNum (355 # 1000) ]};
               Entry {[ "date" := CStr "2019"; "value" := CNum 36 ]}] "usa")
    as (table & Hrun & _ & Hin & _).
  exists table. split; [exact Hrun|].
  apply (Hin {[ "date" := CStr "2020"; "value" := CNum (355 # 1000) ]} 2020%Z (355 # 1000)).
  - left.
  - repeat split; try reflexivity; try lia; by vm_compute.
Defined.

(** ** [validate_inequality_metrics] *)

(** C8.  On a table with a Gini value of 1.5 and a missing one, the code
    finds the invalid row and then keeps the rows with [0 <= gini <= 1]:
    the comparison is false on the missing value, and that row goes too,
    where the claim says it is retained.  On a table without any invalid
    row the filter is not applied and the row with the missing value
    stays. *)
Theorem validate_inequality_metrics_drops_missing :
  call DataCleaning.validate_inequality_metrics
    {| columns := ["country_code"; "gini"];
       rows := [metric_row "USA" (CNum (15 # 10)); metric_row "DEU" CNA] |}
  = Ok {| columns := ["country_code"; "gini"]; rows := [] |}
  ∧ call DataCleaning.validate_inequality_metrics
      {| columns := ["country_code"; "gini"];
         rows := [metric_row "USA" (CNum (5 # 10)); metric_row "DEU" CNA] |}
    = Ok {| columns := ["country_code"; "gini"];
            rows := [metric_row "USA" (CNum (5 # 10)); metric_row "DEU" CNA] |}.
Proof. split; vm_compute; reflexivity. Qed.

(** * Further properties *)

(** ** Sums, filters and percentiles *)

Lemma np_sum_filter_bounds (P : Q → Prop) `{∀ x, Decision (P x)} (a : list Q) :
  (∀ x, x ∈ a → 0 <= x) → 0 <= np_sum (filter P a) <= np_sum a.
Proof.
  induction a as [|x a IH]; intros Hall; [simpl; lra|].
  assert (0 <= x) by (apply Hall; left).
  assert (0 <= np_sum (filter P a) <= np_sum a) as [? ?].
  { apply IH. intros y Hy. apply Hall. by right. }
  destruct (decide (P x)).
  - rewrite filter_cons_True by done. simpl. fold (np_sum (filter P a)).
    fold (np_sum a). lra.
  - rewrite filter_cons_False by done. simpl. fold (np_sum a). lra.
Qed.

Lemma share_bounds (P : Q → Prop) `{∀ x, Decision (P x)} (a : list Q) :
  a ≠ [] → (∀ x, x ∈ a → 0 < x) → 0 <= np_sum (filter P a) / np_sum a <= 1.
Proof.
  intros Hne Hpos.
  assert (0 < np_sum a) by by apply np_sum_positive.
  assert (0 <= np_sum (filter P a) <= np_sum a) as [? ?].
  { apply np_sum_filter_bounds. intros x Hx. apply Qlt_le_weak. by apply Hpos. }
  split.
  - apply Qle_shift_div_l; [done|]. lra.
  - apply Qle_shift_div_r; [done|]. lra.
Qed.

Lemma share_positive (P : Q → Prop) `{∀ x, Decision (P x)} (a : list Q) (y : Q) :
  (∀ x, x ∈ a → 0 < x) → y ∈ a → P y → 0 < np_sum (filter P a) / np_sum a.
Proof.
  intros Hpos Hy HP.
  assert (0 < np_sum a).
  { apply np_sum_positive; [|done]. intros ->. by apply not_elem_of_nil in Hy. }
  assert (0 < np_sum (filter P a)).
  { apply np_sum_positive.
    - intros Hnil. assert (Hin : y ∈ filter P a) by by apply list_elem_of_filter.
      rewrite Hnil in Hin. by apply not_elem_of_nil in Hin.
    - intros x Hx. apply list_elem_of_filter in Hx as [_ Hx]. by apply Hpos. }
  apply Qlt_shift_div_l; [done|]. lra.
Qed.

Lemma sorted_lookup_le (s : list Q) (i j : nat) (x y : Q) :
  Sorted Qle s → (i ≤ j)%nat → s !! i = Some x → s !! j = Some y → x <= y.
Proof.
  intros Hs Hij Hi Hj.
  apply Sorted_StronglySorted in Hs; [|apply _].
  destruct (decide (i = j)) as [->|Hne].
  { rewrite Hi in Hj. injection Hj as ->. apply Qle_refl. }
  rewrite <- (take_drop_middle s i x Hi) in Hs, Hj.
  apply StronglySorted_app_1_r in Hs.
  apply StronglySorted_inv in Hs as [_ Hall].
  rewrite Forall_forall in Hall. apply Hall.
  assert (Hlen : length (take i s) = i).
  { rewrite length_take. apply lookup_lt_Some in Hi. lia. }
  rewrite lookup_app_r in Hj by lia. rewrite Hlen in Hj.
  destruct (j - i)%nat as [|k] eqn:Hk; [lia|]. simpl in Hj.
  by eapply list_elem_of_lookup_2.
Qed.

(** A percentile of a non-empty array lies between two of its values. *)
Lemma np_percentile_between (a : list Q) (q : Q) :
  a ≠ [] → 0 <= q <= 100 →
  ∃ xlo xhi, xlo ∈ a ∧ xhi ∈ a ∧ xlo <= np_percentile a q <= xhi.
Proof.
  intros Hne [Hq0 Hq1]. unfold np_percentile.
  set (s := np_sort a).
  assert (Hn : (1 ≤ length s)%nat).
  { unfold s. rewrite np_sort_length. destruct a; [done|simpl; lia]. }
  set (m := inject_Z (Z.of_nat (length s - 1))).
  assert (Hm : 0 <= m) by (unfold m; rewrite <- (Zle_Qle 0); lia).
  set (h := q / 100 * m).
  assert (Hh0 : 0 <= h).
  { unfold h. apply Qmult_le_0_compat; [|done]. apply Qle_shift_div_l; lra. }
  assert (Hh1 : h <= m).
  { unfold h. assert (q / 100 <= 1) by (apply Qle_shift_div_r; lra).
    assert (0 <= q / 100) by (apply Qle_shift_div_l; lra).
    revert Hm. generalize (q / 100) m H H0. intros; nra. }
  assert (Hf0 : (0 ≤ Qfloor h)%Z).
  { change 0%Z with (Qfloor 0). by apply Qfloor_resp_le. }
  assert (Hf1 : (Qfloor h ≤ Z.of_nat (length s - 1))%Z).
  { rewrite <- (Qfloor_Z (Z.of_nat (length s - 1))). by apply Qfloor_resp_le. }
  set (lo := Z.to_nat (Qfloor h)).
  set (hi := Nat.min (S lo) (length s - 1)).
  assert (Hlo : (lo < length s)%nat) by (unfold lo; lia).
  assert (Hhi : (hi < length s)%nat) by (unfold hi; lia).
  assert (Hlohi : (lo ≤ hi)%nat) by (unfold hi, lo; lia).
  destruct (lookup_lt_is_Some_2 s lo Hlo) as [xlo Hxlo].
  destruct (lookup_lt_is_Some_2 s hi Hhi) as [xhi Hxhi].
  rewrite Hxlo, Hxhi. cbn [from_option]. unfold id.
  exists xlo, xhi.
  split; [apply np_sort_elem; by eapply list_elem_of_lookup_2|].
  split; [apply np_sort_elem; by eapply list_elem_of_lookup_2|].
  assert (Hle : xlo <= xhi).
  { eapply (sorted_lookup_le s lo hi); [apply np_sort_sorted|done..]. }
  pose proof (Qfloor_le h) as Hg0. pose proof (Qlt_floor h) as Hg1.
  rewrite inject_Z_plus in Hg1. change (inject_Z 1) with 1 in Hg1.
  revert Hg0 Hg1 Hle. generalize (inject_Z (Qfloor h)). generalize h.
  intros h' f Hg0 Hg1 Hle.
  assert (0 <= (xhi - xlo) * (h' - f)) by (apply Qmult_le_0_compat; lra).
  assert (0 <= (xhi - xlo) * (1 - (h' - f))) by (apply Qmult_le_0_compat; lra).
  split; lra.
Qed.

Lemma sorted_positive_elem (values : list Q) (x : Q) :
  x ∈ np_sort (positive_values values) → 0 < x.
Proof. intros Hx. apply (positive_values_pos values). by apply np_sort_elem. Qed.

Lemma sorted_positive_nonempty (values : list Q) :
  positive_values values ≠ [] → np_sort (positive_values values) ≠ [].
Proof.
  intros Hne Hnil. apply Hne, Permutation_nil_r. by rewrite <- Hnil, np_sort_perm.
Qed.

(** ** [palma_ratio] on ten values or more *)

Lemma palma_ratio_large (values : list Q) :
  (10 ≤ length (positive_values values))%nat →
  ∃ r, palma_ratio values = Ok (Fin r) ∧ 0 < r.
Proof.
  intros Hn.
  assert (Hpos : positive_values values ≠ []) by (intros E; rewrite E in Hn; simpl in Hn; lia).
  assert (Hne : values ≠ []) by (intros ->; by apply Hpos).
  unfold palma_ratio.
  rewrite decide_False by done.
  rewrite decide_False by (intros H0; by apply nil_length_inv in H0).
  cbv zeta. rewrite np_sort_length. rewrite decide_False by lia.
  set (s := np_sort (positive_values values)).
  assert (Hs : s ≠ []) by by apply sorted_positive_nonempty.
  assert (Hall : ∀ x, x ∈ s → 0 < x) by apply sorted_positive_elem.
  destruct (np_percentile_between s 90 Hs) as (_ & top & _ & Htop & _ & Htop'); [lra|].
  destruct (np_percentile_between s 40 Hs) as (bot & _ & Hbot & _ & Hbot' & _); [lra|].
  assert (Ht : 0 < np_sum (filter (λ x, np_percentile s 90 <= x) s) / np_sum s).
  { by apply (share_positive _ s top). }
  assert (Hb : 0 < np_sum (filter (λ x, x <= np_percentile s 40) s) / np_sum s).
  { by apply (share_positive _ s bot). }
  rewrite decide_False by lra.
  unfold np_div. rewrite decide_False by lra.
  eexists. split; [done|].
  apply Qlt_shift_div_l; [done|]. lra.
Qed.



(** ** [income_shares] for any list of percentiles *)




Lemma shares_loop_range (values : list Q) (percentiles : list Z)
    (shares : gmap string Q) :
  values ≠ [] → (∀ x, x ∈ values → 0 < x) →
  map_Forall (λ _ share, 0 <= share <= 1) shares →
  map_Forall (λ _ share, 0 <= share <= 1)
    (foldl (income_shares_step values (np_sum values)) shares percentiles).
Proof.
  intros Hne Hpos. revert shares.
  induction percentiles as [|p ps IH]; intros shares Hall; [done|].
  cbn [foldl]. apply IH. unfold income_shares_step.
  case_decide; [done|]. cbv zeta.
  apply map_Forall_insert_2; [|done].
  case_decide; [lra|]. by apply share_bounds.
Qed.

Lemma income_shares_range (values : list Q)
    (percentiles : option (list Z)) (shares : gmap string Q) :
  income_shares values percentiles = Ok shares →
  ∀ key share, shares !! key = Some share → 0 <= share <= 1.
Proof.
  unfold income_shares.
  destruct (decide (values = [])); [done|].
  destruct (decide (length (positive_values values) = 0%nat)) as [|Hlen]; [done|].
  cbv zeta.
  destruct (decide (np_sum (np_sort (positive_values values)) == 0)); [done|].
  set (s := np_sort (positive_values values)).
  assert (Hloop : map_Forall (λ _ share, 0 <= share <= 1)
            (foldl (income_shares_step s (np_sum s)) ∅
               (default default_percentiles percentiles))).
  { apply shares_loop_range; [|apply sorted_positive_elem|apply map_Forall_empty].
    apply sorted_positive_nonempty. intros E. by rewrite E in Hlen. }
  revert Hloop.
  generalize (foldl (income_shares_step s (np_sum s)) ∅
                (default default_percentiles percentiles)).
  intros loop Hloop.
  assert (Hget : ∀ (m : gmap string Q) k v,
            map_Forall (λ _ share, 0 <= share <= 1) m →
            getitem m k = Ok v → 0 <= v <= 1).
  { intros m k v Hm. unfold getitem. destruct (m !! k) eqn:E; [|done].
    intros [= <-]. by apply (Hm k). }
  set (top := if decide (1%Z ∈ default default_percentiles percentiles
                         ∧ 10%Z ∈ default default_percentiles percentiles)
              then _ else _).
  assert (Htop : ∀ m, top = Ok m → map_Forall (λ _ share, 0 <= share <= 1) m).
  { unfold top. case_decide; [|by intros m [= <-]].
    intros m. destruct (getitem loop "p99") as [p99|] eqn:E99; [|done].
    cbn [rbind].
    destruct (getitem (<["top_1_share":=1 - p99]> loop) "p90") as [p90|] eqn:E90;
      [|done].
    cbn [rbind]. intros [= <-].
    pose proof (Hget _ _ _ Hloop E99).
    assert (H1 : map_Forall (λ _ share, 0 <= share <= 1)
                   (<["top_1_share":=1 - p99]> loop)).
    { apply map_Forall_insert_2; [lra|done]. }
    pose proof (Hget _ _ _ H1 E90).
    apply map_Forall_insert_2; [lra|done]. }
  destruct top as [m|]; [|done]. specialize (Htop m eq_refl). cbn [rbind].
  case_decide.
  - destruct (getitem m "p50") as [p50|] eqn:E50; [|done]. cbn [rbind].
    intros [= <-] key share Hk.
    pose proof (Hget _ _ _ Htop E50).
    revert Hk. apply (map_Forall_insert_2 (λ _ share, 0 <= share <= 1)); done.
  - cbn [rbind]. intros [= <-] key share Hk. by apply (Htop key).
Qed.

(** X2.  Whatever the percentiles asked for, every number of a dictionary
    that [income_shares] returns lies between 0 and 1: the percentile
    shares, and the three derived shares. *)
Theorem income_shares_unit_interval (values : list Q)
    (percentiles : option (list Z)) (shares : gmap string Q) :
  income_shares values percentiles = Ok shares →
  ∀ key share, shares !! key = Some share → 0 <= share <= 1.
Proof. apply income_shares_range. Qed.

Lemma income_shares_unit_interval_witness :
  ∃ shares, income_shares [1; 2; 3] (Some [25; 100]%Z) = Ok shares
    ∧ ∀ key share, shares !! key = Some share → 0 <= share <= 1.
Proof.
  eexists. split; [reflexivity|].
  apply (income_shares_unit_interval [1; 2; 3] (Some [25; 100]%Z)).
  reflexivity.
Defined.

Ltac absent H :=
  repeat (apply elem_of_cons in H as [H|H]; [discriminate H|]);
  apply not_elem_of_nil in H.






Lemma shares_loop_filter (values : list Q) (total : Q) (percentiles : list Z)
    (shares : gmap string Q) :
  foldl (income_shares_step values total) shares
    (filter (λ p, (0 ≤ p ≤ 100)%Z) percentiles)
  = foldl (income_shares_step values total) shares percentiles.
Proof.
  revert shares. induction percentiles as [|p ps IH]; intros shares; [done|].
  destruct (decide (0 ≤ p ≤ 100)%Z) as [Hin|Hout].
  - rewrite filter_cons_True by done. cbn [foldl]. apply IH.
  - rewrite filter_cons_False by done. cbn [foldl]. rewrite IH. f_equal.
    unfold income_shares_step. by rewrite decide_True by lia.
Qed.

(** X4.  A percentile below 0 or above 100 is passed over without a word:
    the call gives what it gives on the list without those percentiles,
    result or exception. *)
Theorem income_shares_out_of_range (values : list Q) (percentiles : list Z) :
  income_shares values (Some percentiles)
  = income_shares values (Some (filter (λ p, (0 ≤ p ≤ 100)%Z) percentiles)).
Proof.
  assert (Hin : ∀ p, (0 ≤ p ≤ 100)%Z →
            p ∈ filter (λ p, (0 ≤ p ≤ 100)%Z) percentiles ↔ p ∈ percentiles).
  { intros p Hp. rewrite list_elem_of_filter. tauto. }
  unfold income_shares. simpl default.
  destruct (decide (values = [])); [done|].
  destruct (decide (length (positive_values values) = 0%nat)); [done|].
  cbv zeta.
  destruct (decide (np_sum (np_sort (positive_values values)) == 0)); [done|].
  rewrite shares_loop_filter.
  rewrite (decide_ext (1%Z ∈ filter _ percentiles ∧ 10%Z ∈ filter _ percentiles)
             (1%Z ∈ percentiles ∧ 10%Z ∈ percentiles))
    by (rewrite !Hin by lia; done).
  destruct (if decide (1%Z ∈ percentiles ∧ 10%Z ∈ percentiles) then _ else _);
    [|done].
  cbn [rbind].
  by rewrite (decide_ext (50%Z ∈ filter _ percentiles) (50%Z ∈ percentiles))
    by (rewrite !Hin by lia; done).
Qed.

(** ** What the metrics raise *)


(** ** Non-positive values *)

Lemma positive_values_idemp (values : list Q) :
  positive_values (positive_values values) = positive_values values.
Proof.
  apply filter_all. intros x Hx. by apply (positive_values_pos values).
Qed.

(** X6.  Values that are zero or negative count for nothing: on a sample
    with a positive value, each of the six metrics gives what it gives on
    the positive values alone. *)
Theorem metrics_ignore_nonpositive (np_log np_exp : Q → Q) (np_pow : Q → Q → Q)
    (values : list Q) (percentiles : option (list Z)) (num_points : nat)
    (epsilon : Q) :
  (∃ x, x ∈ values ∧ 0 < x) →
  let kept := positive_values values in
  gini_coefficient values = gini_coefficient kept
  ∧ palma_ratio values = palma_ratio kept
  ∧ income_shares values percentiles = income_shares kept percentiles
  ∧ lorenz_curve_data values num_points = lorenz_curve_data kept num_points
  ∧ theil_index np_log values = theil_index np_log kept
  ∧ atkinson_index np_log np_exp np_pow values epsilon
    = atkinson_index np_log np_exp np_pow kept epsilon.
Proof.
  intros Hpos. destruct (positive_values_nonempty values Hpos) as [Hne Hkept].
  cbv zeta.
  unfold gini_coefficient, gini_trace, palma_ratio, income_shares,
    lorenz_curve_data, theil_index, atkinson_index.
  rewrite positive_values_idemp.
  destruct (decide (values = [])) as [|_]; [done|].
  destruct (decide (positive_values values = [])) as [|_]; [done|].
  done.
Qed.

Lemma metrics_ignore_nonpositive_witness :
  gini_coefficient [0; 3; -2; 1] = gini_coefficient [3; 1]
  ∧ income_shares [0; 3; -2; 1] None = income_shares [3; 1] None.
Proof.
  assert (Hpos : ∃ x : Q, x ∈ [0; 3; -2; 1] ∧ 0 < x).
  { exists 3. split; [right; left|reflexivity]. }
  pose proof (metrics_ignore_nonpositive (λ x, x) (λ x, x) (λ x _, x)
                [0; 3; -2; 1] None 0%nat 1 Hpos) as H.
  split; [exact (proj1 H)|exact (proj1 (proj2 (proj2 H)))].
Defined.

(** ** The Lorenz curve *)

Lemma np_sum_take_mono (s : list Q) (i j : nat) :
  (∀ x, x ∈ s → 0 <= x) → (i ≤ j)%nat → np_sum (take i s) <= np_sum (take j s).
Proof.
  revert i j. induction s as [|x s IH]; intros i j Hall Hij.
  - rewrite !take_nil. apply Qle_refl.
  - assert (0 <= x) by (apply Hall; left).
    assert (Hall' : ∀ y, y ∈ s → 0 <= y) by (intros y Hy; apply Hall; by right).
    destruct i as [|i], j as [|j]; [apply Qle_refl| |lia|].
    + cbn [take np_sum foldr]. fold (np_sum (take j s)).
      pose proof (IH 0%nat j Hall' ltac:(lia)) as Hle. rewrite take_0 in Hle.
      simpl in Hle. lra.
    + cbn [take np_sum foldr]. fold (np_sum (take i s)). fold (np_sum (take j s)).
      pose proof (IH i j Hall' ltac:(lia)). lra.
Qed.

Lemma np_sum_take_le (s : list Q) (i : nat) :
  (∀ x, x ∈ s → 0 <= x) → np_sum (take i s) <= np_sum s.
Proof.
  intros Hall. destruct (decide (i ≤ length s)%nat).
  - rewrite <- (take_ge s (length s)) at 2 by lia. by apply np_sum_take_mono.
  - rewrite take_ge by lia. apply Qle_refl.
Qed.

Lemma py_int_nonneg (x : Q) : 0 <= x → py_int x = Qfloor x.
Proof.
  intros Hx. unfold py_int. destruct x as [n d]. simpl.
  apply Z.quot_div_nonneg; [|lia].
  unfold Qle in Hx. simpl in Hx. lia.
Qed.

(** The share of income at a population share grows with it. *)
Lemma lorenz_point_mono (s : list Q) (p q : Q) :
  s ≠ [] → (∀ x, x ∈ s → 0 < x) → 0 <= p → p <= q → q <= 1 →
  lorenz_point s (np_sum s) p <= lorenz_point s (np_sum s) q.
Proof.
  intros Hne Hpos Hp Hpq Hq.
  assert (Htotal : 0 < np_sum s) by by apply np_sum_positive.
  assert (Hnn : ∀ x, x ∈ s → 0 <= x) by (intros x Hx; apply Qlt_le_weak; auto).
  assert (Hshare : ∀ i, 0 <= np_sum (take i s) / np_sum s <= 1).
  { intros i. split.
    - apply Qle_shift_div_l; [done|]. rewrite Qmult_0_l.
      pose proof (np_sum_take_mono s 0 i Hnn ltac:(lia)) as H0.
      by rewrite take_0 in H0.
    - apply Qle_shift_div_r; [done|]. rewrite Qmult_1_l. by apply np_sum_take_le. }
  unfold lorenz_point.
  destruct (decide (p == 0)) as [|Hp0].
  { destruct (decide (q == 0)); [lra|]. destruct (decide (q == 1)); [lra|].
    apply Hshare. }
  destruct (decide (q == 0)) as [|_]; [lra|].
  destruct (decide (q == 1)) as [|Hq1].
  { destruct (decide (p == 1)); [lra|]. apply Hshare. }
  destruct (decide (p == 1)) as [|_]; [lra|].
  cbv zeta.
  set (n := length s).
  assert (Hn : 0 <= inject_Z (Z.of_nat n)) by (rewrite <- (Zle_Qle 0); lia).
  assert (Hidx : (py_int (p * inject_Z (Z.of_nat n))
                  ≤ py_int (q * inject_Z (Z.of_nat n)))%Z).
  { rewrite !py_int_nonneg.
    - apply Qfloor_resp_le. apply Qmult_le_compat_r; done.
    - apply Qmult_le_0_compat; [lra|done].
    - apply Qmult_le_0_compat; [lra|done]. }
  apply Qle_shift_div_l; [done|].
  unfold Qdiv. rewrite <- Qmult_assoc, (Qmult_comm (/ _)), Qmult_inv_r by lra.
  rewrite Qmult_1_r.
  apply np_sum_take_mono; [done|].
  repeat case_decide; lia.
Qed.

Lemma sorted_weaken {A} (R R' : relation A) (l : list A) :
  (∀ x y, R x y → R' x y) → Sorted R l → Sorted R' l.
Proof.
  intros HR. induction 1 as [|x l _ IH Hd]; constructor; [done|].
  destruct Hd; constructor. by apply HR.
Qed.

Lemma sorted_seq (a n : nat) : Sorted (λ i j, (i < j < a + n)%nat) (seq a n).
Proof.
  revert a. induction n as [|n IH]; intros a; [constructor|].
  simpl. constructor.
  - eapply sorted_weaken; [|apply (IH (S a))]. intros i j. simpl. lia.
  - destruct n; simpl; constructor. lia.
Qed.

Lemma np_linspace01_length (num_points : nat) :
  length (np_linspace01 num_points) = num_points.
Proof.
  destruct num_points as [|[|k]]; [done..|].
  unfold np_linspace01. by rewrite length_fmap, length_seq.
Qed.

(** [np.linspace(0, 1, n)] ascends within [[0, 1]]. *)
Lemma np_linspace01_sorted (num_points : nat) :
  Sorted (λ p q, 0 <= p ∧ p <= q ∧ q <= 1) (np_linspace01 num_points).
Proof.
  destruct num_points as [|[|k]]; [constructor|repeat constructor|].
  unfold np_linspace01.
  eapply Sorted_fmap; [|apply sorted_seq].
  intros i j Hij. simpl in Hij.
  replace (S (S k) - 1)%nat with (S k) by lia.
  assert (Hd : 0 < inject_Z (Z.of_nat (S k))) by (rewrite <- (Zlt_Qlt 0); lia).
  assert (0 <= inject_Z (Z.of_nat i)) by (rewrite <- (Zle_Qle 0); lia).
  assert (inject_Z (Z.of_nat i) <= inject_Z (Z.of_nat j)) by (rewrite <- Zle_Qle; lia).
  assert (inject_Z (Z.of_nat j) <= inject_Z (Z.of_nat (S k))) by (rewrite <- Zle_Qle; lia).
  split; [|split].
  - apply Qle_shift_div_l; [done|]. lra.
  - apply Qle_shift_div_l; [done|].
    unfold Qdiv. rewrite <- Qmult_assoc, (Qmult_comm (/ _)), Qmult_inv_r by lra.
    lra.
  - apply Qle_shift_div_r; [done|]. lra.
Qed.

Lemma sorted_range_elem (l : list Q) (p : Q) :
  Sorted (λ p q, 0 <= p ∧ p <= q ∧ q <= 1) l → (2 ≤ length l)%nat →
  p ∈ l → 0 <= p <= 1.
Proof.
  induction 1 as [|x l Hs IH Hd]; intros Hlen Hp; [by apply not_elem_of_nil in Hp|].
  destruct Hd as [|y l Hxy]; [simpl in Hlen; lia|].
  apply elem_of_cons in Hp as [->|Hp]; [lra|].
  destruct l as [|z l].
  - apply list_elem_of_singleton in Hp as ->. lra.
  - apply IH; [simpl; lia|done].
Qed.

(** X7.  On a sample with a positive value [lorenz_curve_data] returns two
    lists of [num_points] numbers each, all between 0 and 1, and both
    ascending: the curve never turns down. *)
Theorem lorenz_curve_data_monotone (values : list Q) (num_points : nat) :
  (∃ x, x ∈ values ∧ 0 < x) →
  ∃ population_shares income_shares,
    lorenz_curve_data values num_points = Ok (population_shares, income_shares)
    ∧ length population_shares = num_points
    ∧ length income_shares = num_points
    ∧ (∀ p, p ∈ population_shares → 0 <= p <= 1)
    ∧ (∀ share, share ∈ income_shares → 0 <= share <= 1)
    ∧ Sorted Qle population_shares
    ∧ Sorted Qle income_shares.
Proof.
  intros Hex. destruct (positive_values_nonempty values Hex) as [Hne Hkept].
  unfold lorenz_curve_data.
  rewrite decide_False by done.
  rewrite decide_False by (intros H0; by apply nil_length_inv in H0).
  cbv zeta.
  rewrite decide_False by (pose proof (total_income_positive values Hkept); lra).
  set (s := np_sort (positive_values values)).
  assert (Hs : s ≠ []) by by apply sorted_positive_nonempty.
  assert (Hpos : ∀ x, x ∈ s → 0 < x) by apply sorted_positive_elem.
  pose proof (np_linspace01_sorted num_points) as Hlin.
  assert (Hpop : ∀ p, p ∈ np_linspace01 num_points → 0 <= p <= 1).
  { intros p Hp. destruct num_points as [|[|k]].
    - by apply not_elem_of_nil in Hp.
    - apply list_elem_of_singleton in Hp as ->. lra.
    - apply (sorted_range_elem _ p Hlin); [|done].
      rewrite np_linspace01_length. lia. }
  do 2 eexists. split; [done|].
  split; [apply np_linspace01_length|].
  split; [by rewrite length_fmap, np_linspace01_length|].
  split; [done|]. split; [|split].
  - intros share Hshare. apply list_elem_of_fmap in Hshare as (p & -> & Hp).
    apply Hpop in Hp as [Hp0 Hp1]. split.
    + assert (H0 : lorenz_point s (np_sum s) 0 = 0).
      { unfold lorenz_point. by rewrite decide_True. }
      apply (Qle_trans _ (lorenz_point s (np_sum s) 0)); [rewrite H0; apply Qle_refl|].
      apply lorenz_point_mono; done || lra.
    + assert (H1 : lorenz_point s (np_sum s) 1 = 1).
      { unfold lorenz_point. rewrite decide_False by done. by rewrite decide_True. }
      apply (Qle_trans _ (lorenz_point s (np_sum s) 1)); [|rewrite H1; apply Qle_refl].
      apply lorenz_point_mono; done || lra.
  - eapply sorted_weaken; [|exact Hlin]. intros p q. simpl. tauto.
  - eapply Sorted_fmap; [|exact Hlin].
    intros p q (Hp & Hpq & Hq). by apply lorenz_point_mono.
Qed.

Lemma lorenz_curve_data_monotone_witness :
  ∃ population_shares income_shares,
    lorenz_curve_data [2; 0; 1] 5 = Ok (population_shares, income_shares)
    ∧ length population_shares = 5%nat
    ∧ length income_shares = 5%nat
    ∧ (∀ p, p ∈ population_shares → 0 <= p <= 1)
    ∧ (∀ share, share ∈ income_shares → 0 <= share <= 1)
    ∧ Sorted Qle population_shares
    ∧ Sorted Qle income_shares.
Proof.
  apply (lorenz_curve_data_monotone [2; 0; 1] 5).
  exists 2. split; [left|reflexivity].
Defined.

(** ** [validate_metric_values] on the result of [calculate_all_metrics] *)

Lemma gini_coefficient_range (values : list Q) (g : Q) :
  gini_coefficient values = Ok g → 0 <= g <= 1.
Proof.
  unfold gini_coefficient, gini_trace.
  repeat case_decide; simpl; intros [= <-]; try lra. apply clamp_bounds.
Qed.

Lemma theil_index_range (np_log : Q → Q) (values : list Q) (t : Q) :
  theil_index np_log values = Ok t → 0 <= t.
Proof.
  unfold theil_index. repeat case_decide; intros [= <-]; try lra.
  unfold py_max. case_decide; lra.
Qed.

Lemma atkinson_index_range (np_log np_exp : Q → Q) (np_pow : Q → Q → Q)
    (values : list Q) (epsilon a : Q) :
  atkinson_index np_log np_exp np_pow values epsilon = Ok a → 0 <= a <= 1.
Proof.
  unfold atkinson_index.
  destruct (decide (values = [])); [done|].
  destruct (decide (epsilon <= 0)); [done|].
  destruct (decide (length (positive_values values) = 0%nat)); [done|].
  intros [= <-]. apply clamp_bounds.
Qed.

Lemma palma_ratio_range (values : list Q) (palma : pyfloat) :
  palma_ratio values = Ok palma → ∃ r, palma = Fin r ∧ 0 < r.
Proof.
  intros Hp.
  destruct (decide (length (positive_values values) < 10)%nat) as [Hn|Hn].
  { destruct (palma_ratio_small values Hn) as [e He]. congruence. }
  destruct (palma_ratio_large values) as (r & Hr & ?); [lia|].
  exists r. split; [congruence|done].
Qed.

(** The dictionary [calculate_all_metrics] builds when nothing fails. *)
Lemma calculate_all_metrics_body_ok (np_log np_exp : Q → Q) (np_pow : Q → Q → Q)
    (values : list Q) (metrics : gmap string pyfloat) :
  calculate_all_metrics_body np_log np_exp np_pow values = Ok metrics →
  ∃ (gini theil atkinson : Q) (palma : pyfloat) (s1 s10 s50 s90 s99 : Q),
    gini_coefficient values = Ok gini
    ∧ palma_ratio values = Ok palma
    ∧ theil_index np_log values = Ok theil
    ∧ atkinson_index np_log np_exp np_pow values 1 = Ok atkinson
    ∧ income_shares values None =
        Ok (<["bottom_50_share" := s50]> (<["top_10_share" := 1 - s90]>
           (<["top_1_share" := 1 - s99]> (<["p99" := s99]> (<["p90" := s90]>
           (<["p50" := s50]> (<["p10" := s10]> (<["p1" := s1]> ∅))))))))
    ∧ metrics !! "gini" = Some (Fin gini)
    ∧ metrics !! "palma_ratio" = Some palma
    ∧ metrics !! "theil_index" = Some (Fin theil)
    ∧ metrics !! "atkinson_index" = Some (Fin atkinson)
    ∧ metrics !! "top_1_share" = Some (Fin (1 - s99))
    ∧ metrics !! "top_10_share" = Some (Fin (1 - s90))
    ∧ metrics !! "bottom_50_share" = Some (Fin s50).
Proof.
  unfold calculate_all_metrics_body.
  destruct (gini_coefficient values) as [gini|]; [|done].
  destruct (palma_ratio values) as [palma|]; [|done].
  destruct (theil_index np_log values) as [theil|]; [|done].
  destruct (atkinson_index np_log np_exp np_pow values 1) as [atkinson|]; [|done].
  destruct (income_shares values None) as [shares|] eqn:Hshares; [|done].
  cbn [rbind].
  destruct (income_shares_default_ok values shares Hshares)
    as (s1 & s10 & s50 & s90 & s99 & Heq).
  destruct (complete_metrics_keys gini theil atkinson palma shares
              s1 s10 s50 s90 s99 Heq)
    as (a & b & c & d & Ha & Hc & Hb & Hd & Hin10 & Hin1 & Hin50 & _).
  rewrite !decide_True by done.
  rewrite Ha, Hc, Hb. cbn [rbind]. rewrite decide_True by done. cbn [rbind].
  clear Ha Hb Hc Hd Hin10 Hin1 Hin50.
  intros [= Hmetrics].
  exists gini, theil, atkinson, palma, s1, s10, s50, s90, s99.
  split; [done|]. split; [done|]. split; [done|]. split; [done|].
  split; [by rewrite Heq|].
  assert (Hlookup : ∀ k, k ≠ "top_1_vs_bottom_50" → k ≠ "palma_ratio_manual" →
            metrics !! k
            = union_with (λ x _, Some x) (Fin <$> shares !! k)
                ((<["atkinson_index" := Fin atkinson]> (<["theil_index" := Fin theil]>
                  (<["palma_ratio" := palma]> (<["gini" := Fin gini]> ∅)))
                  : gmap string pyfloat) !! k)).
  { intros k Hk1 Hk2. rewrite <- Hmetrics.
    rewrite !lookup_insert_ne by done. by rewrite lookup_union, lookup_fmap. }
  clear Hmetrics. subst shares.
  repeat split; rewrite Hlookup by done; by simplify_map_eq.
Qed.

(** X8.  [validate_metric_values] finds nothing wrong with a result of
    [calculate_all_metrics]: every verdict it gives on it is True, and on
    a result that is not the empty dictionary it gives a verdict on each
    of the seven metrics it knows.  This holds whatever [np.log],
    [np.exp] and [**] compute, since the Theil and Atkinson indices are
    clamped after them. *)
Theorem validate_metric_values_accepts
    (np_log np_exp : Q → Q) (np_pow : Q → Q → Q) (values : list Q) :
  let metrics := calculate_all_metrics np_log np_exp np_pow values in
  let validation := validate_metric_values metrics in
  (∀ key verdict, validation !! key = Some verdict → verdict = true)
  ∧ (metrics ≠ ∅ →
     ∀ key,
       key ∈ ["gini"; "palma_ratio"; "theil_index"; "atkinson_index";
              "top_1_share"; "top_10_share"; "bottom_50_share"] →
       validation !! key = Some true).
Proof.
  cbv zeta. unfold calculate_all_metrics.
  destruct (calculate_all_metrics_body np_log np_exp np_pow values)
    as [metrics|] eqn:Hbody; [|done].
  destruct (calculate_all_metrics_body_ok _ _ _ _ _ Hbody)
    as (gini & theil & atkinson & palma & s1 & s10 & s50 & s90 & s99
        & Hgini & Hpalma & Htheil & Hatkinson & Hshares
        & Hk1 & Hk2 & Hk3 & Hk4 & Hk5 & Hk6 & Hk7).
  pose proof (gini_coefficient_range _ _ Hgini) as [? ?].
  destruct (palma_ratio_range _ _ Hpalma) as (r & -> & ?).
  pose proof (theil_index_range _ _ _ Htheil).
  pose proof (atkinson_index_range _ _ _ _ _ _ Hatkinson) as [? ?].
  pose proof (income_shares_range _ _ _ Hshares) as Hrange.
  assert (0 <= 1 - s99 <= 1) as [? ?].
  { apply (Hrange "top_1_share"). by simplify_map_eq. }
  assert (0 <= 1 - s90 <= 1) as [? ?].
  { apply (Hrange "top_10_share"). by simplify_map_eq. }
  assert (0 <= s50 <= 1) as [? ?].
  { apply (Hrange "bottom_50_share"). by simplify_map_eq. }
  unfold validate_metric_values. cbv zeta. cbn [foldl].
  rewrite Hk1, Hk2, Hk3, Hk4, Hk5, Hk6, Hk7.
  unfold float_in_0_1, float_ge_0, float_le_1.
  rewrite !bool_decide_eq_true_2 by lra. cbn [andb].
  split.
  - intros key verdict.
    repeat (rewrite lookup_insert_Some; intros [[_ <-]|[_ Hk]]; [done|revert Hk]).
    by rewrite lookup_empty.
  - intros _ key Hkey.
    repeat (apply elem_of_cons in Hkey as [->|Hkey]; [by simplify_map_eq|]).
    by apply not_elem_of_nil in Hkey.
Qed.

Lemma validate_metric_values_accepts_witness :
  validate_metric_values
    (calculate_all_metrics (λ x, x) (λ x, x) (λ x _, x)
       [1; 2; 3; 4; 5; 6; 7; 8; 9; 10]) !! "palma_ratio"
  = Some true.
Proof.
  refine (proj2 (validate_metric_values_accepts (λ x, x) (λ x, x) (λ x _, x)
                   [1; 2; 3; 4; 5; 6; 7; 8; 9; 10]) _ "palma_ratio" _).
  - intros Hempty. apply (f_equal (λ m, m !! "gini")) in Hempty.
    vm_compute in Hempty. discriminate Hempty.
  - right; left.
Defined.

(** ** [gini_coefficient]: the order and the unit of the values *)

Lemma same_number_trans (r1 r2 r3 : result Q) :
  same_number r1 r2 → same_number r2 r3 → same_number r1 r3.
Proof.
  destruct r1, r2, r3; simpl; try done; [|congruence].
  intros H1 H2. by rewrite H1.
Qed.

Lemma same_number_refl (r : result Q) : same_number r r.
Proof. destruct r; simpl; [reflexivity|done]. Qed.

Lemma gini_coefficient_sorted (values : list Q) :
  positive_values values ≠ [] →
  gini_coefficient values = gini_sorted (np_sort (positive_values values)).
Proof.
  intros Hne. unfold gini_coefficient. rewrite gini_trace_positive by done.
  cbv zeta. unfold gini_sorted.
  destruct (decide (length (np_sort (positive_values values)) = 1%nat)); [done|].
  by destruct (decide (Forall _ _)).
Qed.

(** Two ascending arrangements of the same numbers agree place by place. *)
Lemma sorted_perm_Qeq (s1 s2 : list Q) :
  Sorted Qle s1 → Sorted Qle s2 → Qred <$> s1 ≡ₚ Qred <$> s2 →
  Forall2 Qeq s1 s2.
Proof.
  intros H1 H2 Hperm.
  assert (Heq : Qred <$> s1 = Qred <$> s2).
  { apply (Sorted_unique_strong Qle); [| | |done].
    - intros x1 x2 Hx1 Hx2 Hle Hge.
      apply list_elem_of_fmap in Hx1 as (y1 & -> & _).
      apply list_elem_of_fmap in Hx2 as (y2 & -> & _).
      apply Qred_complete. rewrite !Qred_correct in Hle, Hge. lra.
    - eapply Sorted_fmap; [|exact H1]. intros x y Hxy. by rewrite !Qred_correct.
    - eapply Sorted_fmap; [|exact H2]. intros x y Hxy. by rewrite !Qred_correct. }
  clear -Heq. revert s2 Heq.
  induction s1 as [|x s1 IH]; intros [|y s2] Heq; try done.
  injection Heq as Hxy Heq. constructor; [|by apply IH].
  by rewrite <- (Qred_correct x), <- (Qred_correct y), Hxy.
Qed.

Lemma np_sort_perm_Qeq (l1 l2 : list Q) :
  l1 ≡ₚ l2 → Forall2 Qeq (np_sort l1) (np_sort l2).
Proof.
  intros Hperm. apply sorted_perm_Qeq; [apply np_sort_sorted..|].
  by rewrite !np_sort_perm, Hperm.
Qed.

Lemma np_sum_Qeq (s1 s2 : list Q) : Forall2 Qeq s1 s2 → np_sum s1 == np_sum s2.
Proof.
  induction 1 as [|x y s1 s2 Hxy _ IH]; [reflexivity|].
  simpl. fold (np_sum s1) (np_sum s2). by rewrite Hxy, IH.
Qed.

Lemma rank_products_Qeq (ranks s1 s2 : list Q) :
  Forall2 Qeq s1 s2 →
  Forall2 Qeq (zip_with Qmult ranks s1) (zip_with Qmult ranks s2).
Proof.
  intros H. revert ranks.
  induction H as [|x y s1 s2 Hxy _ IH]; intros [|r ranks]; simpl; try constructor.
  - by rewrite Hxy.
  - apply IH.
Qed.

Lemma gini_formula_Qeq (s1 s2 : list Q) :
  Forall2 Qeq s1 s2 → gini_formula s1 == gini_formula s2.
Proof.
  intros H. unfold gini_formula. cbv zeta.
  rewrite (Forall2_length _ _ _ H).
  rewrite (np_sum_Qeq _ _ (rank_products_Qeq _ _ _ H)).
  by rewrite (np_sum_Qeq _ _ H).
Qed.

Lemma clamp_Qeq (g1 g2 : Q) :
  g1 == g2 → py_max 0 (py_min 1 g1) == py_max 0 (py_min 1 g2).
Proof. intros H. unfold py_max, py_min. repeat case_decide; lra. Qed.

Lemma all_equal_Qeq (s1 s2 : list Q) :
  Forall2 Qeq s1 s2 →
  Forall (λ x, x == first s1) s1 → Forall (λ x, x == first s2) s2.
Proof.
  intros H. assert (Hf : first s1 == first s2) by (destruct H; [reflexivity|done]).
  revert Hf. generalize (first s1) (first s2). intros f1 f2 Hf.
  induction H as [|x y s1 s2 Hxy _ IH]; [done|].
  intros Hall. apply Forall_cons in Hall as [Hx Hall].
  constructor; [|by apply IH]. by rewrite <- Hxy, Hx.
Qed.

Lemma gini_sorted_Qeq (s1 s2 : list Q) :
  Forall2 Qeq s1 s2 → same_number (gini_sorted s1) (gini_sorted s2).
Proof.
  intros H. unfold gini_sorted.
  rewrite (Forall2_length _ _ _ H).
  destruct (decide (length s2 = 1%nat)); [reflexivity|].
  assert (H' : Forall2 Qeq s2 s1).
  { apply Forall2_flip. eapply Forall2_impl; [exact H|]. by intros x y Hxy. }
  destruct (decide (Forall (λ x, x == first s1) s1)) as [Ha|Ha];
    destruct (decide (Forall (λ x, x == first s2) s2)) as [Hb|Hb]; simpl.
  - reflexivity.
  - destruct Hb. by apply (all_equal_Qeq s1).
  - destruct Ha. by apply (all_equal_Qeq s2).
  - by apply clamp_Qeq, gini_formula_Qeq.
Qed.

(** X9.  The Gini coefficient does not depend on the order of the values:
    two samples that are rearrangements of one another get the same
    exception or the same number. *)
Theorem gini_coefficient_permutation (values1 values2 : list Q) :
  values1 ≡ₚ values2 →
  same_number (gini_coefficient values1) (gini_coefficient values2).
Proof.
  intros Hperm.
  assert (Hpos : positive_values values1 ≡ₚ positive_values values2).
  { unfold positive_values. by rewrite Hperm. }
  destruct (decide (positive_values values1 = [])) as [Hnil|Hne].
  - assert (Hnil2 : positive_values values2 = []).
    { apply Permutation_nil. by rewrite <- Hpos, Hnil. }
    unfold gini_coefficient, gini_trace. rewrite Hnil, Hnil2.
    destruct (decide (values1 = [])) as [->|Hv1].
    + apply Permutation_nil in Hperm as ->. done.
    + rewrite (decide_False (P := values2 = [])); [done|].
      intros ->. by apply Permutation_nil_r in Hperm.
  - assert (Hne2 : positive_values values2 ≠ []).
    { intros Hnil. apply Hne, Permutation_nil. by rewrite Hpos, Hnil. }
    rewrite !gini_coefficient_sorted by done.
    by apply gini_sorted_Qeq, np_sort_perm_Qeq.
Qed.

Lemma gini_coefficient_permutation_witness :
  same_number (gini_coefficient [3; 1; 0; 2]) (gini_coefficient [0; 2; 3; 1]).
Proof.
  apply gini_coefficient_permutation.
  apply (Permutation_trans (l' := [1; 3; 0; 2])); [apply perm_swap|].
  apply (Permutation_trans (l' := [1; 0; 3; 2])); [apply perm_skip, perm_swap|].
  apply (Permutation_trans (l' := [0; 1; 3; 2])); [apply perm_swap|].
  apply perm_skip.
  apply (Permutation_trans (l' := [1; 2; 3])); [apply perm_skip, perm_swap|].
  apply (Permutation_trans (l' := [2; 1; 3])); [apply perm_swap|].
  apply perm_skip, perm_swap.
Defined.

Lemma positive_values_scale (c : Q) (values : list Q) :
  0 < c → positive_values (Qmult c <$> values) = Qmult c <$> positive_values values.
Proof.
  intros Hc. unfold positive_values.
  induction values as [|x l IH]; [done|].
  rewrite fmap_cons. destruct (decide (0 < x)) as [Hx|Hx].
  - rewrite !filter_cons_True; [|done|by apply Qmult_lt_0_compat].
    by rewrite fmap_cons, IH.
  - rewrite !filter_cons_False; [done|done|].
    intros Hcx. apply Hx. apply Qnot_le_lt. intros Hle.
    assert (c * x <= c * 0) by (apply Qmult_le_l; done).
    lra.
Qed.

Lemma np_sum_scale (c : Q) (s : list Q) : np_sum (Qmult c <$> s) == c * np_sum s.
Proof.
  induction s as [|x s IH]; simpl; [ring|].
  fold (np_sum (Qmult c <$> s)) (np_sum s). rewrite IH. ring.
Qed.

Lemma rank_products_scale (c : Q) (ranks s : list Q) :
  np_sum (zip_with Qmult ranks (Qmult c <$> s))
  == c * np_sum (zip_with Qmult ranks s).
Proof.
  revert ranks. induction s as [|x s IH]; intros [|r ranks]; simpl; try ring.
  fold (np_sum (zip_with Qmult ranks (Qmult c <$> s))).
  fold (np_sum (zip_with Qmult ranks s)). rewrite IH. ring.
Qed.

Lemma gini_formula_scale (c : Q) (s : list Q) :
  0 < c → gini_formula (Qmult c <$> s) == gini_formula s.
Proof.
  intros Hc. unfold gini_formula. cbv zeta. rewrite length_fmap.
  rewrite rank_products_scale, np_sum_scale.
  generalize (np_sum (zip_with Qmult (np_arange1 (length s)) s)).
  generalize (np_sum s). generalize (inject_Z (Z.of_nat (length s))).
  intros n total ranked.
  destruct (Qeq_dec (n * total) 0) as [Hz|Hz].
  - assert (Hz' : n * (c * total) == 0).
    { transitivity (c * (n * total)); [ring|]. rewrite Hz. ring. }
    unfold Qdiv. rewrite Hz, Hz'. change (/ 0) with 0. ring.
  - assert (¬ n == 0) by (intros E; apply Hz; rewrite E; ring).
    assert (¬ total == 0) by (intros E; apply Hz; rewrite E; ring).
    field. repeat split; done || lra.
Qed.

Lemma gini_sorted_scale (c : Q) (s : list Q) :
  0 < c → same_number (gini_sorted (Qmult c <$> s)) (gini_sorted s).
Proof.
  intros Hc. unfold gini_sorted. rewrite length_fmap.
  destruct (decide (length s = 1%nat)); [reflexivity|].
  assert (Hfirst : first (Qmult c <$> s) = c * first s ∨ s = []).
  { destruct s; [by right|by left]. }
  assert (Hall : Forall (λ x, x == first (Qmult c <$> s)) (Qmult c <$> s)
                 ↔ Forall (λ x, x == first s) s).
  { destruct Hfirst as [->| ->]; [|done].
    generalize (first s). intros f. rewrite Forall_fmap.
    apply Forall_proper; [|done]. intros x. simpl. split; intros Hx.
    - apply (Qmult_inj_l _ _ c); [lra|done].
    - by rewrite Hx. }
  destruct (decide (Forall (λ x, x == first (Qmult c <$> s)) (Qmult c <$> s)))
    as [Ha|Ha];
    destruct (decide (Forall (λ x, x == first s) s)) as [Hb|Hb]; simpl.
  - reflexivity.
  - destruct Hb. by apply Hall.
  - destruct Ha. by apply Hall.
  - by apply clamp_Qeq, gini_formula_scale.
Qed.

(** X10.  The Gini coefficient does not depend on the unit of the values:
    multiplying every value by the same positive factor leaves the
    result, exception or number, as it is. *)
Theorem gini_coefficient_scale (c : Q) (values : list Q) :
  0 < c →
  same_number (gini_coefficient (Qmult c <$> values)) (gini_coefficient values).
Proof.
  intros Hc.
  destruct (decide (positive_values values = [])) as [Hnil|Hne].
  - unfold gini_coefficient, gini_trace.
    rewrite positive_values_scale, Hnil by done.
    destruct values; done.
  - assert (Hne' : positive_values (Qmult c <$> values) ≠ []).
    { rewrite positive_values_scale by done.
      intros Hnil. by apply fmap_nil_inv in Hnil. }
    rewrite !gini_coefficient_sorted by done.
    rewrite positive_values_scale by done.
    eapply same_number_trans; [|by apply gini_sorted_scale].
    apply gini_sorted_Qeq, sorted_perm_Qeq.
    + apply np_sort_sorted.
    + eapply Sorted_fmap; [|apply np_sort_sorted].
      intros x y Hxy. by apply Qmult_le_l.
    + by rewrite !np_sort_perm.
Qed.

Lemma gini_coefficient_scale_witness :
  same_number (gini_coefficient (Qmult 100 <$> [1; 2; 3; 4]))
              (gini_coefficient [1; 2; 3; 4]).
Proof. apply gini_coefficient_scale. reflexivity. Defined.

(** ** src/utils.py *)

Lemma COUNTRY_CODES_items : COUNTRY_CODES = list_to_map COUNTRY_ITEMS.
Proof. reflexivity. Qed.

(** X11.  Codes and names go back and forth.  For a code that
    [COUNTRY_CODES] knows in some letter case, [get_country_name] gives
    its name, [get_country_code] takes that name back to the code in
    upper case, and [get_country_name] gives the name again. *)
Theorem country_code_name_round_trip (code name : string) :
  COUNTRY_CODES !! str_upper code = Some name →
  get_country_name code = name
  ∧ get_country_code name = str_upper code
  ∧ get_country_name (get_country_code name) = name.
Proof.
  intros Hcode.
  assert (Hall : map_Forall (λ k v, get_country_code v = k ∧ get_country_name k = v)
                   COUNTRY_CODES).
  { apply (bool_decide_unpack _). vm_compute. reflexivity. }
  destruct (Hall _ _ Hcode) as [Hback Hname].
  split; [|split].
  - unfold get_country_name. by rewrite Hcode.
  - done.
  - by rewrite Hback.
Qed.

Lemma country_code_name_round_trip_witness :
  get_country_name "deu" = "Germany"
  ∧ get_country_code "Germany" = "DEU"
  ∧ get_country_name (get_country_code "Germany") = "Germany".
Proof. apply (country_code_name_round_trip "deu" "Germany"). reflexivity. Defined.

(** X12.  [validate_year_range] always returns a start that is not after
    the end.  When the years come in order, the end is not before 1960
    and the start is not after the current year, the result is the range
    cut to 1960 and the current year.  Otherwise the swap undoes the cut:
    an end before 1960 becomes the start as it is, and a start after the
    current year becomes the end as it is. *)
Theorem validate_year_range_spec (current_year start_year end_year : Z) :
  let range := validate_year_range current_year start_year end_year in
  (range.1 ≤ range.2)%Z
  ∧ ((start_year ≤ end_year)%Z → (1960 ≤ end_year)%Z → (start_year ≤ current_year)%Z →
     (1960 ≤ current_year)%Z →
     range = (Z.max start_year 1960, Z.min end_year current_year))
  ∧ ((end_year < 1960)%Z → (end_year ≤ current_year)%Z → range.1 = end_year)
  ∧ ((current_year < start_year)%Z → (1960 ≤ start_year)%Z → range.2 = start_year).
Proof.
  cbv zeta. unfold validate_year_range.
  repeat split; intros; repeat case_decide; simpl; try lia; f_equal; lia.
Qed.

Lemma validate_year_range_spec_witness :
  validate_year_range 2025 1950 2030 = (1960, 2025)%Z
  ∧ (validate_year_range 2025 1970 1950).1 = 1950%Z.
Proof.
  split.
  - refine (proj1 (proj2 (validate_year_range_spec 2025 1950 2030)) _ _ _ _); lia.
  - refine (proj1 (proj2 (proj2 (validate_year_range_spec 2025 1970 1950))) _ _); lia.
Defined.



(** ** [handle_missing_values] of [data_models.py]: the table returned *)

Lemma dropna_complete (d : DataFrame) (d' : DataFrame) (row : gmap string cell)
    (col : string) :
  dropna d = Ok d' → row ∈ rows d' → col ∈ columns d' →
  is_na (cell_of row col) = false.
Proof.
  intros [= <-]. simpl. intros Hrow Hcol.
  apply list_elem_of_filter in Hrow as [Hrow _].
  apply Is_true_true in Hrow. rewrite forallb_forall in Hrow.
  apply negb_true_iff. apply Hrow. by apply list_elem_of_In.
Qed.

Lemma run_from_new (h : heap) (r : ref) (d : DataFrame)
    (f : DataFrame → result DataFrame) :
  h !! r = Some d → run_from h (df_new r f) = f d.
Proof.
  intros Hr. unfold run_from, df_new.
  rewrite (exec_bind _ _ _ _ _ (exec_load h r d Hr)).
  destruct (f d); [|done]. unfold alloc. by rewrite lookup_snoc.
Qed.

Lemma bind_assoc {A B} (m : M A) (k : A → M B) (k' : B → M ref) (h : heap) :
  run_from h (bind (bind m k) k') = run_from h (bind m (λ a, bind (k a) k')).
Proof. unfold run_from, bind. by destruct (m h) as [[a|e] h']. Qed.

Section missing_values.
Context `{Library}.

Lemma dm_handle_missing_values_run (d : DataFrame) (method : string) :
  df_empty d = false →
  call (λ df, DataModels.handle_missing_values df method) d =
    if decide (method = "drop") then dropna d
    else if decide (method = "interpolate") then
      dropna (if has_column d "value"
              then {| columns := with_column d "value";
                      rows := zip_with (λ row v, <["value" := v]> row) (rows d)
                                (interpolate_linear (column d "value")) |}
              else d)
    else if decide (method = "forward_fill") then
      dropna {| columns := columns d; rows := ffill_rows (columns d) ∅ (rows d) |}
    else Raise (UnknownMethodError method).
Proof.
  intros He. unfold call, DataModels.handle_missing_values.
  rewrite (run_from_bind _ _ _ _ _ (exec_load [d] 0 d eq_refl)). rewrite He.
  rewrite (run_from_bind _ _ _ _ _ (exec_copy [d] 0 d eq_refl)).
  change (length [d]) with 1%nat. change ([d] ++ [d]) with [d; d].
  destruct (decide (method = "drop")).
  { erewrite run_from_bind; [|by eapply (exec_new [d; d] 1%nat d)].
    by erewrite run_from_new by apply lookup_snoc. }
  destruct (decide (method = "interpolate")).
  { rewrite bind_assoc.
    rewrite (run_from_bind _ _ _ _ _ (exec_load [d; d] 1%nat d eq_refl)).
    rewrite bind_assoc.
    destruct (has_column d "value").
    - erewrite run_from_bind; [|by eapply (exec_update [d; d] 1%nat d)].
      erewrite run_from_bind; [|by eapply exec_new].
      by erewrite run_from_new by apply lookup_snoc.
    - erewrite run_from_bind; [|reflexivity].
      erewrite run_from_bind; [|by eapply (exec_new [d; d] 1%nat d)].
      by erewrite run_from_new by apply lookup_snoc. }
  destruct (decide (method = "forward_fill")).
  { rewrite bind_assoc.
    erewrite run_from_bind; [|by eapply (exec_new [d; d] 1%nat d)].
    erewrite run_from_bind; [|by eapply exec_new; [apply lookup_snoc|]].
    by erewrite run_from_new by apply lookup_snoc. }
  reflexivity.
Qed.

(** X14.  What [handle_missing_values] returns.  An empty table is sent
    back as it is, even with a method the function does not know; on any
    other table an unknown method raises [ValueError].  With 'drop' the
    result has the columns of the table and its rows without a missing
    value, in their order.  With each of the three methods, no row of
    the result has a missing value in any column. *)
Theorem dm_handle_missing_values_spec (d : DataFrame) (method : string) :
  let returned := call (λ df, DataModels.handle_missing_values df method) d in
  (df_empty d = true → returned = Ok d)
  ∧ (df_empty d = false → method ∉ ["drop"; "interpolate"; "forward_fill"] →
     returned = Raise (UnknownMethodError method))
  ∧ (df_empty d = false → method = "drop" →
     returned = Ok {| columns := columns d;
                    rows := filter (λ row, Forall (λ col, is_na (cell_of row col) = false)
                                             (columns d)) (rows d) |})
  ∧ (df_empty d = false →
     ∀ d', returned = Ok d' →
       ∀ row col, row ∈ rows d' → col ∈ columns d' → cell_of row col ≠ CNA).
Proof.
  cbv zeta. split; [|split; [|split]].
  - intros He. unfold call, run_from, DataModels.handle_missing_values, bind, load.
    simpl. by rewrite He.
  - intros He Hm. rewrite dm_handle_missing_values_run by done.
    rewrite !decide_False; [done|..]; intros ->; apply Hm; set_solver.
  - intros He ->. rewrite dm_handle_missing_values_run by done.
    rewrite decide_True by done. unfold dropna. do 2 f_equal.
    apply list_filter_iff. intros row. rewrite Is_true_true, forallb_forall, Forall_forall.
    split; intros Hrow col Hcol.
    + specialize (Hrow col (proj1 (list_elem_of_In _ _) Hcol)).
      by apply negb_true_iff.
    + specialize (Hrow col (proj2 (list_elem_of_In _ _) Hcol)).
      by apply negb_true_iff.
  - intros He d'. rewrite dm_handle_missing_values_run by done.
    intros Hr row col Hrow Hcol.
    assert (Hna : is_na (cell_of row col) = false).
    { revert Hr. repeat case_decide; [..|done]; intros Hr;
        by eapply dropna_complete. }
    intros Heq. by rewrite Heq in Hna.
Qed.
End missing_values.

Lemma dm_handle_missing_values_spec_witness :
  call (λ df, @DataModels.handle_missing_values plain_library df "mean")
    {| columns := ["year"]; rows := [] |}
  = Ok {| columns := ["year"]; rows := [] |}
  ∧ call (λ df, @DataModels.handle_missing_values plain_library df "mean")
      {| columns := ["year"]; rows := [{[ "year" := CNA ]}] |}
    = Raise (UnknownMethodError "mean")
  ∧ call (λ df, @DataModels.handle_missing_values plain_library df "drop")
      {| columns := ["year"]; rows := [{[ "year" := CNA ]}; {[ "year" := CInt 2020 ]}] |}
    = Ok {| columns := ["year"]; rows := [{[ "year" := CInt 2020 ]}] |}.
Proof.
  split; [|split].
  - refine (proj1 (@dm_handle_missing_values_spec plain_library _ "mean") _).
    reflexivity.
  - refine (proj1 (proj2 (@dm_handle_missing_values_spec plain_library _ "mean")) _ _).
    + reflexivity.
    + intros Hin. by absent Hin.
  - refine (proj1 (proj2 (proj2 (@dm_handle_missing_values_spec plain_library
                                   {| columns := ["year"];
                                      rows := [{[ "year" := CNA ]}; {[ "year" := CInt 2020 ]}] |}
                                   "drop"))) _ _); reflexivity.
Defined.

(** ** [GiniTimeSeries] *)

Lemma value_for_year_app (l1 l2 : list Series.GiniDataPoint) (y : Z) :
  Series.value_for_year (l1 ++ l2) y
  = match Series.value_for_year l1 y with
    | Some v => Some v
    | None => Series.value_for_year l2 y
    end.
Proof.
  induction l1 as [|p l1 IH]; [done|]. simpl. by case_decide.
Qed.

Lemma value_for_year_None (l : list Series.GiniDataPoint) (y : Z) :
  (∀ p, p ∈ l → Series.year p ≠ y) → Series.value_for_year l y = None.
Proof.
  induction l as [|p l IH]; intros Hall; [done|]. simpl.
  rewrite decide_False by (apply Hall; left).
  apply IH. intros q Hq. apply Hall. by right.
Qed.

(** The point [max] returns after the points of [seen], of which [best]
    is the first with the greatest year. *)
Lemma py_max_key_year (seen l : list Series.GiniDataPoint)
    (best : Series.GiniDataPoint) :
  best ∈ seen →
  (∀ p, p ∈ seen → (Series.year p ≤ Series.year best)%Z) →
  Series.value_for_year seen (Series.year best) = Some (Series.value best) →
  let latest := Series.py_max_key Series.year best l in
  latest ∈ seen ++ l
  ∧ (∀ p, p ∈ seen ++ l → (Series.year p ≤ Series.year latest)%Z)
  ∧ Series.value_for_year (seen ++ l) (Series.year latest)
    = Some (Series.value latest).
Proof.
  revert seen best. induction l as [|a l IH]; intros seen best Hin Hmax Hfirst.
  { simpl. by rewrite app_nil_r. }
  cbn [Series.py_max_key]. cbv zeta.
  replace (seen ++ a :: l) with ((seen ++ [a]) ++ l) by by rewrite <- app_assoc.
  apply IH.
  - case_decide; apply elem_of_app; [right; left|by left].
  - intros p Hp. apply elem_of_app in Hp as [Hp|Hp].
    + specialize (Hmax p Hp). case_decide; lia.
    + apply list_elem_of_singleton in Hp as ->. case_decide; lia.
  - rewrite value_for_year_app. case_decide as Hlt.
    + rewrite value_for_year_None.
      * simpl. by rewrite decide_True.
      * intros p Hp. specialize (Hmax p Hp). lia.
    + by rewrite Hfirst.
Qed.

(** X15.  [get_latest_value] returns nothing exactly on a series without
    points.  Otherwise it returns a point of the series whose year no
    other point exceeds; of several points of that year it is the first,
    so that [get_value_for_year] at its year gives its value. *)
Theorem get_latest_value_spec (self : Series.GiniTimeSeries) :
  match Series.get_latest_value self with
  | None => Series.data_points self = []
  | Some latest =>
      latest ∈ Series.data_points self
      ∧ (∀ point, point ∈ Series.data_points self →
           (Series.year point ≤ Series.year latest)%Z)
      ∧ Series.get_value_for_year self (Series.year latest)
        = Some (Series.value latest)
  end.
Proof.
  unfold Series.get_latest_value, Series.get_value_for_year.
  destruct (Series.data_points self) as [|point points]; [done|].
  apply (py_max_key_year [point] points point).
  - left.
  - intros p Hp. apply list_elem_of_singleton in Hp as ->. lia.
  - simpl. by rewrite decide_True.
Qed.

Lemma sorted_year_cells (l : list (gmap string cell)) :
  Forall (λ row, ∃ y, cell_of row "year" = CInt y) l →
  Sorted (row_le ["year"]) l → Sorted Z.le (year_of <$> l).
Proof.
  intros Hl Hsorted. induction Hsorted as [|row l _ IH Hhd]; [constructor|].
  apply Forall_cons in Hl as [Hrow Hl]. simpl. constructor; [by apply IH|].
  destruct Hhd as [|row' l' Hle]; simpl; constructor.
  apply Forall_cons in Hl as [Hrow' _].
  destruct Hrow as [y Hy], Hrow' as [y' Hy'].
  unfold row_le, key_le in Hle. simpl in Hle. unfold year_of.
  rewrite Hy, Hy' in *. simpl in Hle.
  apply Z.compare_le_iff. intros Hgt. by rewrite Hgt in Hle.
Qed.

(** X16.  [to_dataframe] never fails.  The table has the four columns
    and one row for each point of the series, built from that point; the
    rows come by ascending year. *)
Theorem to_dataframe_spec (self : Series.GiniTimeSeries) :
  ∃ table,
    Series.to_dataframe self = Ok table
    ∧ columns table = ["year"; "value"; "country_code"; "country_name"]
    ∧ rows table ≡ₚ
        (λ point, {[ "year" := CInt (Series.year point);
                     "value" := CNum (Series.value point);
                     "country_code" := CStr (Series.country_code point);
                     "country_name" := CStr (Series.name (Series.country self)) ]})
          <$> Series.data_points self
    ∧ Sorted Z.le (year_of <$> rows table).
Proof.
  unfold Series.to_dataframe.
  destruct (decide (Series.data_points self = [])) as [Hnil|Hne].
  { eexists. split; [done|]. rewrite Hnil. split; [done|]. split; [done|].
    constructor. }
  cbv zeta.
  set (data := _ <$> Series.data_points self).
  assert (Hyear : Forall (λ row, ∃ y, cell_of row "year" = CInt y) data).
  { unfold data. apply Forall_fmap, Forall_forall. intros p _. by eexists. }
  assert (Hsort : sort_values ["year"]
                    {| columns := Series.series_columns; rows := data |}
                  = Ok {| columns := Series.series_columns;
                          rows := merge_sort (row_le ["year"]) data |}).
  { unfold sort_values.
    change (list_find _ ["year"]) with (@None (nat * string)).
    cbn [forallb]. unfold sortable, column. cbn [rows].
    rewrite (forallb_Forall_true is_number); [done|].
    apply Forall_fmap. eapply Forall_impl; [exact Hyear|].
    intros row [y Hy]. simpl. by rewrite Hy. }
  rewrite Hsort. cbn [rbind]. eexists. split; [done|]. cbn [columns rows].
  split; [done|]. split; [apply merge_sort_Permutation|].
  apply sorted_year_cells.
  - by rewrite merge_sort_Permutation.
  - apply (Sorted_merge_sort _).
Qed.

(** ** [filter_by_year_range] and [filter_by_countries] *)

Lemma select_rows_filter (p : gmap string cell → result bool)
    (q : gmap string cell → bool) (d : DataFrame) :
  Forall (λ row, p row = Ok (q row)) (rows d) →
  select_rows p d = Ok {| columns := columns d;
                          rows := filter (λ row, q row = true) (rows d) |}.
Proof.
  intros Hall. unfold select_rows.
  rewrite (mapM_result_ok p q) by done. cbn [rbind]. do 2 f_equal.
  clear Hall. induction (rows d) as [|row l IH]; [done|].
  cbn [fmap list_fmap zip zip_with].
  destruct (q row) eqn:Hq.
  - rewrite !filter_cons_True by done. simpl. f_equal. apply IH.
  - rewrite !filter_cons_False by (simpl; congruence). apply IH.
Qed.

Lemma Forall_filter_keep {A} (P Q : A → Prop) `{∀ x, Decision (Q x)} (l : list A) :
  Forall P l → Forall P (filter Q l).
Proof.
  rewrite !Forall_forall. intros Hall x Hx%list_elem_of_filter. apply Hall, Hx.
Qed.

Lemma mapM_result_raise {A B} (f : A → result B) (l : list A) (e : error) :
  Exists (λ a, f a = Raise e) l →
  Forall (λ a, f a = Raise e ∨ ∃ b, f a = Ok b) l →
  mapM_result f l = Raise e.
Proof.
  induction 1 as [a l Ha|a l _ IH]; intros Hall; simpl.
  - by rewrite Ha.
  - apply Forall_cons in Hall as [[Ha|[b Ha]] Hall]; rewrite Ha; [done|].
    cbn [rbind]. by rewrite IH.
Qed.

Lemma year_in_range_number (start_year end_year : Z) (row : gmap string cell) :
  (∀ s, cell_of row "year" ≠ CStr s) →
  year_in_range start_year end_year row = Ok (year_within start_year end_year row).
Proof.
  intros Hrow. unfold year_in_range, year_within, DataCleaning.compare_cell.
  destruct (cell_of row "year") as [|z|q|s]; simpl; [done| |..].
  - f_equal.
    apply eq_true_iff_eq. rewrite andb_true_iff, !bool_decide_eq_true.
    by rewrite <- !Zle_Qle.
  - f_equal.
    apply eq_true_iff_eq. rewrite andb_true_iff, !bool_decide_eq_true. done.
  - by destruct (Hrow s).
Qed.

Lemma run_from_copy (h : heap) (r : ref) (d : DataFrame) :
  h !! r = Some d → run_from h (let* r' := df_copy r in ret r') = Ok d.
Proof.
  intros Hr. rewrite (run_from_bind _ _ _ _ _ (exec_copy h r d Hr)).
  unfold run_from, ret. by rewrite lookup_snoc.
Qed.

Lemma filter_by_year_range_run (d : DataFrame) (start_year end_year : Z) :
  call (λ df, filter_by_year_range df start_year end_year) d =
    if has_column d "year"
    then select_rows (year_in_range start_year end_year) d
    else Ok d.
Proof.
  unfold call, filter_by_year_range.
  rewrite (run_from_bind _ _ _ _ _ (exec_load [d] 0 d eq_refl)).
  destruct (has_column d "year"); [|done]. cbn [negb].
  destruct (select_rows (year_in_range start_year end_year) d) as [d'|e] eqn:Hsel.
  - rewrite (run_from_bind _ _ _ _ _ (exec_new [d] 0%nat d _ d' eq_refl Hsel)).
    by apply run_from_copy.
  - unfold run_from, bind, df_new, bind, load. simpl. by rewrite Hsel.
Qed.

Lemma filter_by_countries_run (d : DataFrame) (country_codes : list string) :
  call (λ df, filter_by_countries df country_codes) d =
    Ok (if has_column d "country_code"
        then {| columns := columns d;
                rows := filter (λ row, isin country_codes (cell_of row "country_code"))
                          (rows d) |}
        else d).
Proof.
  unfold call, filter_by_countries.
  rewrite (run_from_bind _ _ _ _ _ (exec_load [d] 0 d eq_refl)).
  destruct (has_column d "country_code") eqn:Hcol; [|done]. cbn [negb].
  erewrite run_from_bind; cycle 1.
  { eapply (exec_new [d] 0%nat d); [done|]. unfold select_by. by rewrite Hcol. }
  by apply run_from_copy.
Qed.

(** X17.  [filter_by_year_range] on a table with a year column.  If no
    year is a string, the result has the columns of the table and, in
    their order, the rows whose year is a number between the two bounds,
    both included; a row without a year is dropped, and a start after the
    end gives a table without rows rather than an error.  If some year
    is a string the call raises [TypeError].  A table without a year
    column is returned as it is. *)
Theorem filter_by_year_range_spec (d : DataFrame) (start_year end_year : Z) :
  let returned := call (λ df, filter_by_year_range df start_year end_year) d in
  (has_column d "year" = false → returned = Ok d)
  ∧ (has_column d "year" = true →
     Forall (λ row, ∀ s, cell_of row "year" ≠ CStr s) (rows d) →
     returned = Ok {| columns := columns d;
                      rows := filter (λ row, year_within start_year end_year row = true)
                                (rows d) |}
     ∧ ((end_year < start_year)%Z →
        returned = Ok {| columns := columns d; rows := [] |}))
  ∧ (has_column d "year" = true →
     Exists (λ row, ∃ s, cell_of row "year" = CStr s) (rows d) →
     returned = Raise TypeError).
Proof.
  cbv zeta. rewrite filter_by_year_range_run. split; [|split].
  - by intros ->.
  - intros -> Hrows.
    rewrite (select_rows_filter _ (year_within start_year end_year)).
    + split; [done|]. intros Hlt. do 2 f_equal. clear Hrows.
      induction (rows d) as [|row l IH]; [done|].
      rewrite filter_cons_False; [exact IH|].
      unfold year_within. destruct (cell_of row "year"); simpl; try done.
      * rewrite bool_decide_eq_true. lia.
      * rewrite bool_decide_eq_true. rewrite Zlt_Qlt in Hlt. intros [? ?]. lra.
    + eapply Forall_impl; [exact Hrows|]. intros row Hrow.
      by apply year_in_range_number.
  - intros -> Hstr. unfold select_rows.
    rewrite (mapM_result_raise _ _ TypeError); [done| |].
    + eapply Exists_impl; [exact Hstr|]. intros row [s Hs].
      unfold year_in_range. by rewrite Hs.
    + apply Forall_forall. intros row _.
      unfold year_in_range, DataCleaning.compare_cell.
      destruct (cell_of row "year"); simpl; eauto.
Qed.

Lemma filter_by_year_range_spec_witness :
  call (λ df, filter_by_year_range df 2000 2010)
    {| columns := ["year"];
       rows := [{[ "year" := CInt 1999 ]}; {[ "year" := CInt 2005 ]};
                {[ "year" := CNA ]}] |}
  = Ok {| columns := ["year"]; rows := [{[ "year" := CInt 2005 ]}] |}.
Proof.
  refine (proj1 (proj1 (proj2 (filter_by_year_range_spec
            {| columns := ["year"];
               rows := [{[ "year" := CInt 1999 ]}; {[ "year" := CInt 2005 ]};
                        {[ "year" := CNA ]}] |} 2000 2010)) _ _)).
  - reflexivity.
  - repeat constructor; intros s Hs; discriminate Hs.
Defined.

(** X18.  The two filters in either order.  On a table whose years are
    not strings, filtering by countries and then by years gives what
    filtering by years and then by countries gives, result or
    exception. *)
Theorem filters_commute (d : DataFrame) (country_codes : list string)
    (start_year end_year : Z) :
  Forall (λ row, ∀ s, cell_of row "year" ≠ CStr s) (rows d) →
  (d' ←r call (λ df, filter_by_countries df country_codes) d;
   call (λ df, filter_by_year_range df start_year end_year) d')
  = (d' ←r call (λ df, filter_by_year_range df start_year end_year) d;
     call (λ df, filter_by_countries df country_codes) d').
Proof.
  intros Hrows.
  assert (Hyear : ∀ l, Forall (λ row, ∀ s, cell_of row "year" ≠ CStr s) l →
            Forall (λ row, year_in_range start_year end_year row
                           = Ok (year_within start_year end_year row)) l).
  { intros l Hl. eapply Forall_impl; [exact Hl|]. intros row Hrow.
    by apply year_in_range_number. }
  assert (Hcols : ∀ l c, has_column {| columns := columns d; rows := l |} c
                         = has_column d c) by done.
  rewrite filter_by_countries_run. cbn [rbind].
  rewrite !filter_by_year_range_run.
  destruct (has_column d "country_code") eqn:Hc; rewrite ?Hcols;
    destruct (has_column d "year") eqn:Hy.
  - rewrite !(select_rows_filter _ (year_within start_year end_year));
      [|by apply Hyear|by apply Hyear, Forall_filter_keep].
    cbn [rbind rows columns]. rewrite filter_by_countries_run.
    rewrite Hcols, Hc. cbn [rows columns]. do 2 f_equal.
    rewrite !list_filter_filter. apply list_filter_iff. intros row. tauto.
  - cbn [rbind]. rewrite filter_by_countries_run. by rewrite Hc.
  - rewrite (select_rows_filter _ (year_within start_year end_year))
      by by apply Hyear.
    cbn [rbind]. rewrite filter_by_countries_run. by rewrite Hcols, Hc.
  - cbn [rbind]. rewrite filter_by_countries_run. by rewrite Hc.
Qed.

Lemma filters_commute_witness :
  (d' ←r call (λ df, filter_by_countries df ["USA"])
           {| columns := ["country_code"; "year"];
              rows := [{[ "country_code" := CStr "USA"; "year" := CInt 2005 ]};
                       {[ "country_code" := CStr "DEU"; "year" := CInt 2006 ]}] |};
   call (λ df, filter_by_year_range df 2000 2010) d')
  = (d' ←r call (λ df, filter_by_year_range df 2000 2010)
           {| columns := ["country_code"; "year"];
              rows := [{[ "country_code" := CStr "USA"; "year" := CInt 2005 ]};
                       {[ "country_code" := CStr "DEU"; "year" := CInt 2006 ]}] |};
     call (λ df, filter_by_countries df ["USA"]) d').
Proof.
  apply filters_commute.
  repeat constructor; intros s Hs; discriminate Hs.
Defined.

(** Without the condition on the years the two orders differ: a row
    that the country filter drops can hold the string that makes the
    year filter fail. *)
Lemma filters_commute_string_year :
  let d := {| columns := ["country_code"; "year"];
              rows := [{[ "country_code" := CStr "DEU"; "year" := CStr "n/a" ]}] |} in
  (d' ←r call (λ df, filter_by_countries df ["USA"]) d;
   call (λ df, filter_by_year_range df 2000 2010) d')
  = Ok {| columns := ["country_code"; "year"]; rows := [] |}
  ∧ (d' ←r call (λ df, filter_by_year_range df 2000 2010) d;
     call (λ df, filter_by_countries df ["USA"]) d')
    = Raise TypeError.
Proof. cbv zeta. split; vm_compute; reflexivity. Qed.

(** ** [validate_inequality_metrics]: the table returned *)

Lemma validate_column_exec (col : string)
    (invalid valid : gmap string cell → result bool)
    (h : heap) (r : ref) (d : DataFrame) :
  h !! r = Some d →
  match validated col invalid valid d with
  | Ok d' => ∃ r' h',
      DataCleaning.validate_column col invalid valid r h = (Ok r', h')
      ∧ h' !! r' = Some d'
  | Raise e => ∃ h',
      DataCleaning.validate_column col invalid valid r h = (Raise e, h')
  end.
Proof.
  intros Hr. unfold validated, DataCleaning.validate_column.
  rewrite (exec_bind _ _ _ _ _ (exec_load h r d Hr)).
  destruct (has_column d col); [|by exists r, h].
  destruct (select_rows invalid d) as [i|e] eqn:Hi; cbn [rbind].
  - rewrite (exec_bind _ _ _ _ _ (exec_new h r d _ i Hr Hi)).
    rewrite (exec_bind _ _ _ _ _ (exec_load _ _ _ (lookup_snoc h i))).
    assert (Hr' : (h ++ [i]) !! r = Some d) by by apply lookup_app_l_Some.
    destruct (df_empty i); cbn [negb].
    + exists r, (h ++ [i]). done.
    + destruct (select_rows valid d) as [d'|e] eqn:Hv.
      * exists (length (h ++ [i])), ((h ++ [i]) ++ [d']).
        split; [by eapply exec_new|apply lookup_snoc].
      * eexists. unfold df_new.
        rewrite (exec_bind _ _ _ _ _ (exec_load _ _ _ Hr')). by rewrite Hv.
  - eexists. unfold bind at 1. unfold df_new.
    rewrite (exec_bind _ _ _ _ _ (exec_load _ _ _ Hr)). by rewrite Hi.
Qed.

Lemma validate_inequality_metrics_run (d : DataFrame) :
  call DataCleaning.validate_inequality_metrics d =
   (d ←r validated "gini" (DataCleaning.outside_0_1 "gini")
           (DataCleaning.within_0_1 "gini") d;
    d ←r validated "top_10_share" (DataCleaning.outside_0_1 "top_10_share")
           (DataCleaning.within_0_1 "top_10_share") d;
    d ←r validated "bottom_50_share" (DataCleaning.outside_0_1 "bottom_50_share")
           (DataCleaning.within_0_1 "bottom_50_share") d;
    d ←r validated "top_1_share" (DataCleaning.outside_0_1 "top_1_share")
           (DataCleaning.within_0_1 "top_1_share") d;
    validated "palma_ratio"
      (λ row, DataCleaning.compare_cell (λ x, bool_decide (x < 0))
                (cell_of row "palma_ratio"))
      (λ row, DataCleaning.compare_cell (λ x, bool_decide (0 <= x))
                (cell_of row "palma_ratio")) d).
Proof.
  unfold call, run_from, DataCleaning.validate_inequality_metrics.
  rewrite (exec_bind _ _ _ _ _ (exec_copy [d] 0 d eq_refl)).
  assert (Hstep : ∀ col invalid valid (h : heap) (r : ref) (d0 : DataFrame)
                    (k : ref → M ref) (g : DataFrame → result DataFrame),
            h !! r = Some d0 →
            (∀ h' r' d', h' !! r' = Some d' →
               match k r' h' with
               | (Ok r, h') =>
                   match h' !! r with Some d' => Ok d' | None => Raise DanglingReference end
               | (Raise e, _) => Raise e
               end = g d') →
            match bind (DataCleaning.validate_column col invalid valid r) k h with
            | (Ok r, h') =>
                match h' !! r with Some d' => Ok d' | None => Raise DanglingReference end
            | (Raise e, _) => Raise e
            end = rbind (validated col invalid valid d0) g).
  { intros col invalid valid h r d0 k g Hr Hk.
    pose proof (validate_column_exec col invalid valid h r d0 Hr) as Hexec.
    destruct (validated col invalid valid d0) as [d'|e].
    - destruct Hexec as (r' & h' & Hrun & Hr').
      rewrite (exec_bind _ _ _ _ _ Hrun). cbn [rbind]. by apply Hk.
    - destruct Hexec as (h' & Hrun). unfold bind. by rewrite Hrun. }
  apply Hstep; [apply lookup_snoc|]. intros h1 r1 d1 Hr1.
  cbn [for_fold].
  assert (Hassoc : ∀ {A B} (m : M A) (k : A → M B) (k' : B → M ref) (h : heap),
            bind (bind m k) k' h = bind m (λ a, bind (k a) k') h).
  { intros A B m k k' h. unfold bind. by destruct (m h) as [[a|e] h']. }
  rewrite Hassoc.
  apply Hstep; [done|]. intros h2 r2 d2 Hr2.
  rewrite Hassoc.
  apply Hstep; [done|]. intros h3 r3 d3 Hr3.
  rewrite Hassoc.
  apply Hstep; [done|]. intros h4 r4 d4 Hr4.
  unfold ret at 1. unfold bind at 1.
  pose proof (validate_column_exec "palma_ratio"
    (λ row, DataCleaning.compare_cell (λ x, bool_decide (x < 0))
              (cell_of row "palma_ratio"))
    (λ row, DataCleaning.compare_cell (λ x, bool_decide (0 <= x))
              (cell_of row "palma_ratio")) h4 r4 d4 Hr4) as Hexec.
  destruct (validated "palma_ratio" _ _ d4) as [d'|e].
  - destruct Hexec as (r' & h' & Hrun & Hr').
    rewrite (exec_bind _ _ _ _ _ Hrun). unfold ret. by rewrite Hr'.
  - destruct Hexec as (h' & Hrun). unfold bind. by rewrite Hrun.
Qed.

Lemma mapM_result_inv {A B} (f : A → result B) (l : list A) (bs : list B) :
  mapM_result f l = Ok bs → Forall2 (λ a b, f a = Ok b) l bs.
Proof.
  revert bs. induction l as [|a l IH]; intros bs; simpl.
  - intros [= <-]. constructor.
  - destruct (f a) as [b|] eqn:Hb; [|done]. cbn [rbind].
    destruct (mapM_result f l) as [bs'|]; [|done]. cbn [rbind].
    intros [= <-]. constructor; [done|]. by apply IH.
Qed.

(** A row-wise selection keeps the rows on which the test came out
    true, and the test raised on none. *)
Lemma select_rows_inv (p : gmap string cell → result bool) (d d' : DataFrame) :
  select_rows p d = Ok d' →
  d' = {| columns := columns d;
          rows := filter (λ row, holds (p row) = true) (rows d) |}
  ∧ Forall (λ row, ∃ b, p row = Ok b) (rows d).
Proof.
  unfold select_rows.
  destruct (mapM_result p (rows d)) as [mask|] eqn:Hmask; [|done].
  cbn [rbind]. intros [= <-]. apply mapM_result_inv in Hmask.
  split.
  - f_equal. induction Hmask as [|row b l mask Hb _ IH]; [done|].
    cbn [zip zip_with].
    destruct b.
    + rewrite !filter_cons_True by (by rewrite ?Hb). simpl. by f_equal.
    + rewrite !filter_cons_False by (rewrite ?Hb; simpl; congruence). done.
  - induction Hmask as [|row b l mask Hb _ IH]; constructor; [by exists b|done].
Qed.

Lemma filter_none {A} (P : A → Prop) `{∀ x, Decision (P x)} (l : list A) :
  filter P l = [] → Forall (λ x, ¬ P x) l.
Proof.
  induction l as [|a l IH]; [constructor|].
  destruct (decide (P a)).
  - by rewrite filter_cons_True.
  - rewrite filter_cons_False by done. intros Hl. constructor; [done|by apply IH].
Qed.

(** One validation, for two tests of which the second is the opposite
    of the first: the table keeps its columns and loses rows at most;
    every row left is missing the value or passes the second test; and a
    table of which every row does is returned as it is. *)
Lemma validated_spec (col : string) (invalid valid : Q → bool) (P : Q → Prop)
    (d d' : DataFrame) :
  (∀ x, valid x = negb (invalid x)) → (∀ x, valid x = true ↔ P x) →
  validated col (λ row, DataCleaning.compare_cell invalid (cell_of row col))
    (λ row, DataCleaning.compare_cell valid (cell_of row col)) d = Ok d' →
  columns d' = columns d
  ∧ rows d' `sublist_of` rows d
  ∧ (has_column d col = true →
     ∀ row, row ∈ rows d' → number_in P (cell_of row col))
  ∧ ((has_column d col = true →
      ∀ row, row ∈ rows d → number_in P (cell_of row col)) → d' = d).
Proof.
  intros Hopp HP. unfold validated.
  destruct (has_column d col) eqn:Hcol; [|by intros [= <-]].
  destruct (select_rows _ d) as [i|] eqn:Hi; [|done]. cbn [rbind].
  apply select_rows_inv in Hi as [-> Hno].
  assert (Hcols : columns d ≠ []).
  { unfold has_column in Hcol. apply bool_decide_eq_true in Hcol.
    intros E. rewrite E in Hcol. by apply not_elem_of_nil in Hcol. }
  unfold df_empty. cbn [columns rows]. rewrite (bool_decide_false _ Hcols).
  cbn [orb].
  destruct (bool_decide _) eqn:Hinv; cbn [negb].
  - (* no invalid row *)
    apply bool_decide_eq_true, filter_none in Hinv.
    intros [= <-]. split; [done|]. split; [done|]. split; [|done].
    intros _ row Hrow. rewrite Forall_forall in Hinv, Hno.
    specialize (Hinv row Hrow). destruct (Hno row Hrow) as [b Hb].
    revert Hinv Hb. unfold DataCleaning.compare_cell, number_in.
    destruct (cell_of row col) as [|z|q|s]; simpl; try done.
    + intros Hinv _. apply HP. rewrite Hopp. by destruct (invalid (inject_Z z)).
    + intros Hinv _. apply HP. rewrite Hopp. by destruct (invalid q).
  - (* some invalid row: the valid ones are kept *)
    apply bool_decide_eq_false in Hinv.
    intros Hv. apply select_rows_inv in Hv as [-> _]. cbn [columns rows].
    split; [done|]. split; [apply sublist_filter|]. split.
    + intros _ row Hrow. apply list_elem_of_filter in Hrow as [Hrow _].
      revert Hrow. unfold DataCleaning.compare_cell, number_in, holds.
      destruct (cell_of row col) as [|z|q|s]; simpl; try done; apply HP.
    + intros Hall. destruct Hinv. specialize (Hall eq_refl).
      clear Hno. revert Hall.
      induction (rows d) as [|row l IH]; intros Hall; [done|].
      rewrite filter_cons_False.
      * apply IH. intros row' Hrow'. apply Hall. by right.
      * specialize (Hall row ltac:(left)). revert Hall.
        unfold DataCleaning.compare_cell, number_in, holds.
        destruct (cell_of row col) as [|z|q|s]; simpl; try done.
        -- intros Hz%HP. rewrite Hopp in Hz. by destruct (invalid (inject_Z z)).
        -- intros Hq%HP. rewrite Hopp in Hq. by destruct (invalid q).
Qed.

Lemma unit_tests (x : Q) :
  (bool_decide (0 <= x) && bool_decide (x <= 1)
   = negb (bool_decide (x < 0) || bool_decide (1 < x)))
  ∧ (bool_decide (0 <= x) && bool_decide (x <= 1) = true ↔ 0 <= x <= 1).
Proof.
  split.
  - apply eq_true_iff_eq.
    rewrite andb_true_iff, negb_true_iff, orb_false_iff,
      !bool_decide_eq_true, !bool_decide_eq_false. lra.
  - rewrite andb_true_iff, !bool_decide_eq_true. done.
Qed.

Lemma nonneg_tests (x : Q) :
  (bool_decide (0 <= x) = negb (bool_decide (x < 0)))
  ∧ (bool_decide (0 <= x) = true ↔ 0 <= x).
Proof.
  split.
  - apply eq_true_iff_eq.
    rewrite negb_true_iff, bool_decide_eq_true, bool_decide_eq_false. lra.
  - by rewrite bool_decide_eq_true.
Qed.

(** X19.  The table [validate_inequality_metrics] returns, when it
    returns one.  It has the columns of the table given and a part of
    its rows, in their order.  In each row left, a Gini value or share
    is missing or lies in [[0,1]], and a Palma ratio is missing or is not
    negative.  A table of which every row is already so comes back as it
    is. *)
Theorem validate_inequality_metrics_spec (d d' : DataFrame) :
  call DataCleaning.validate_inequality_metrics d = Ok d' →
  let shares := ["gini"; "top_10_share"; "bottom_50_share"; "top_1_share"] in
  let accepted (d : DataFrame) (row : gmap string cell) :=
    (∀ col, col ∈ shares → has_column d col = true →
       number_in (λ x, 0 <= x <= 1) (cell_of row col))
    ∧ (has_column d "palma_ratio" = true →
       number_in (λ x, 0 <= x) (cell_of row "palma_ratio")) in
  columns d' = columns d
  ∧ rows d' `sublist_of` rows d
  ∧ (∀ row, row ∈ rows d' → accepted d row)
  ∧ ((∀ row, row ∈ rows d → accepted d row) → d' = d).
Proof.
  rewrite validate_inequality_metrics_run. cbv zeta.
  unfold DataCleaning.outside_0_1, DataCleaning.within_0_1.
  destruct (validated "gini" _ _ d) as [d1|] eqn:H1; [|done]. cbn [rbind].
  destruct (validated "top_10_share" _ _ d1) as [d2|] eqn:H2; [|done]. cbn [rbind].
  destruct (validated "bottom_50_share" _ _ d2) as [d3|] eqn:H3; [|done].
  cbn [rbind].
  destruct (validated "top_1_share" _ _ d3) as [d4|] eqn:H4; [|done]. cbn [rbind].
  intros H5.
  apply (validated_spec _ _ _ (λ x, 0 <= x <= 1)) in H1
    as (C1 & S1 & R1 & E1); [|apply unit_tests..].
  apply (validated_spec _ _ _ (λ x, 0 <= x <= 1)) in H2
    as (C2 & S2 & R2 & E2); [|apply unit_tests..].
  apply (validated_spec _ _ _ (λ x, 0 <= x <= 1)) in H3
    as (C3 & S3 & R3 & E3); [|apply unit_tests..].
  apply (validated_spec _ _ _ (λ x, 0 <= x <= 1)) in H4
    as (C4 & S4 & R4 & E4); [|apply unit_tests..].
  apply (validated_spec _ _ _ (λ x, 0 <= x)) in H5
    as (C5 & S5 & R5 & E5); [|apply nonneg_tests..].
  assert (Hcol : ∀ c, has_column d' c = has_column d c
                      ∧ has_column d4 c = has_column d c
                      ∧ has_column d3 c = has_column d c
                      ∧ has_column d2 c = has_column d c
                      ∧ has_column d1 c = has_column d c).
  { intros c. unfold has_column. by rewrite C5, C4, C3, C2, C1. }
  split; [by rewrite C5, C4, C3, C2, C1|].
  split; [by rewrite S5, S4, S3, S2|].
  split.
  - intros row Hrow.
    assert (Hr4 : row ∈ rows d4) by by eapply elem_of_sublist.
    assert (Hr3 : row ∈ rows d3) by by eapply elem_of_sublist.
    assert (Hr2 : row ∈ rows d2) by by eapply elem_of_sublist.
    assert (Hr1 : row ∈ rows d1) by by eapply elem_of_sublist.
    split.
    + intros col Hcol' Hhas.
      repeat (apply elem_of_cons in Hcol' as [->|Hcol']).
      * by apply R1.
      * apply R2; [|done]. by rewrite (proj2 (proj2 (proj2 (proj2 (Hcol _))))).
      * apply R3; [|done]. by rewrite (proj1 (proj2 (proj2 (proj2 (Hcol _))))).
      * apply R4; [|done]. by rewrite (proj1 (proj2 (proj2 (Hcol _)))).
      * by apply not_elem_of_nil in Hcol'.
    + intros Hhas. apply R5; [|done]. by rewrite (proj1 (proj2 (Hcol _))).
  - intros Hall.
    assert (D1 : d1 = d).
    { apply E1. intros Hhas row Hrow. apply (Hall row Hrow); [left|done]. }
    subst d1.
    assert (D2 : d2 = d).
    { apply E2. intros Hhas row Hrow.
      apply (Hall row Hrow); [right; left|done]. }
    subst d2.
    assert (D3 : d3 = d).
    { apply E3. intros Hhas row Hrow.
      apply (Hall row Hrow); [right; right; left|done]. }
    subst d3.
    assert (D4 : d4 = d).
    { apply E4. intros Hhas row Hrow.
      apply (Hall row Hrow); [right; right; right; left|done]. }
    subst d4.
    apply E5. intros Hhas row Hrow. by apply (Hall row Hrow).
Qed.

Lemma validate_inequality_metrics_spec_witness :
  number_in (λ x, 0 <= x <= 1) (cell_of (metric_row "USA" (CNum (5 # 10))) "gini").
Proof.
  refine (proj1 (proj1 (proj2 (proj2 (validate_inequality_metrics_spec
            {| columns := ["country_code"; "gini"];
               rows := [metric_row "USA" (CNum (5 # 10)); metric_row "DEU" CNA] |}
            {| columns := ["country_code"; "gini"];
               rows := [metric_row "USA" (CNum (5 # 10)); metric_row "DEU" CNA] |}
            _))) (metric_row "USA" (CNum (5 # 10))) _) "gini" _ _).
  - vm_compute. reflexivity.
  - left.
  - left.
  - reflexivity.
Defined.

(** ** The other functions of [data_cleaning.py] and the store *)

Lemma returns_new_intro (m : M ref) :
  (∀ h, triple h m h (λ r h', fresh h h' r)) → returns_new m.
Proof.
  intros Hm h. destruct (Hm h) as [Hpre Hres]. split; [done|].
  intros r Hr. rewrite Hr in Hres. destruct Hres as [? ?].
  split; [done|]. by apply lookup_lt_is_Some.
Qed.

Lemma triple_validate_column (col : string)
    (invalid valid : gmap string cell → result bool) h0 h (r : ref)
    (P : ref → heap → Prop) :
  h0 `prefix_of` h → fresh h0 h r →
  (∀ r' h', h0 `prefix_of` h' → length h ≤ length h' → fresh h0 h' r' → P r' h') →
  triple h0 (DataCleaning.validate_column col invalid valid r) h P.
Proof.
  intros Hpre Hr HP. unfold DataCleaning.validate_column.
  repeat heap_step; apply HP; done || lia.
Qed.

Lemma validate_inequality_metrics_new h df :
  triple h (DataCleaning.validate_inequality_metrics df) h (λ r h', fresh h h' r).
Proof.
  unfold DataCleaning.validate_inequality_metrics.
  do 2 heap_step.
  heap_step. apply triple_validate_column; [done..|].
  intros r1 h1 Hpre1 Hlen1 Hfresh1.
  heap_step.
  eapply triple_mono.
  { apply (triple_for_fold h _ _ _ h1 (λ r' h', fresh h h' r')); [done..|].
    intros s col h2 Hpre2 Hs. by apply triple_validate_column. }
  simpl. intros r2 h2 Hpre2 Hfresh2.
  heap_step. apply triple_validate_column; [done..|].
  intros r3 h3 Hpre3 Hlen3 Hfresh3. heap_steps.
Qed.

Lemma filter_by_year_range_new h df d start_year end_year :
  h !! df = Some d → has_column d "year" = true →
  triple h (filter_by_year_range df start_year end_year) h (λ r h', fresh h h' r).
Proof.
  intros Hd Hcol. unfold filter_by_year_range.
  do 2 heap_step. simplify_eq. rewrite Hcol. cbn [negb]. heap_steps.
Qed.

Lemma filter_by_countries_new h df d country_codes :
  h !! df = Some d → has_column d "country_code" = true →
  triple h (filter_by_countries df country_codes) h (λ r h', fresh h h' r).
Proof.
  intros Hd Hcol. unfold filter_by_countries.
  do 2 heap_step. simplify_eq. rewrite Hcol. cbn [negb]. heap_steps.
Qed.

(** X20.  The functions of [data_cleaning.py] beside the cleaning
    pipeline and the store.  [handle_missing_values],
    [standardize_column_names], [validate_data_types] and
    [validate_inequality_metrics] leave the table they are given, and
    every other table of the caller, as it was, and return a new table.
    So do the two filters, except on a table without the column they
    filter on: that table itself is returned. *)
Theorem data_cleaning_functions_keep_input `{Library}
    (start_year end_year : Z) (country_codes : list string) :
  copies_unless (λ _, false) DataCleaning.handle_missing_values
  ∧ copies_unless (λ _, false) DataCleaning.standardize_column_names
  ∧ copies_unless (λ _, false) DataCleaning.validate_data_types
  ∧ copies_unless (λ _, false) DataCleaning.validate_inequality_metrics
  ∧ copies_unless (λ d, negb (has_column d "year"))
      (λ df, filter_by_year_range df start_year end_year)
  ∧ copies_unless (λ d, negb (has_column d "country_code"))
      (λ df, filter_by_countries df country_codes).
Proof.
  split; [|split; [|split; [|split; [|split]]]]; apply copies_unless_intro;
    try done.
  - intros h df d _ _. apply dc_handle_missing_values_new.
  - intros h df d _ _. apply standardize_column_names_new.
  - intros h df d _ _. apply validate_data_types_new.
  - intros h df d _ _. apply validate_inequality_metrics_new.
  - intros h df d Hd Hg. unfold filter_by_year_range, bind, load.
    rewrite Hd. by rewrite Hg.
  - intros h df d Hd Hg. apply (filter_by_year_range_new h df d); [done|].
    by destruct (has_column d "year").
  - intros h df d Hd Hg. unfold filter_by_countries, bind, load.
    rewrite Hd. by rewrite Hg.
  - intros h df d Hd Hg. apply (filter_by_countries_new h df d); [done|].
    by destruct (has_column d "country_code").
Qed.

Section merge_store.
Context `{Library}.

Lemma merge_data_sources_new (dataframes : list (string * ref)) h :
  triple h (merge_data_sources dataframes) h (λ r h', fresh h h' r).
Proof.
  unfold merge_data_sources.
  case_decide; [heap_steps|].
  heap_step.
  eapply triple_mono.
  { apply (triple_for_fold h _ _ _ h (λ _ _, True)); [done..|].
    intros cleaned_dfs item h1 Hpre1 _.
    do 2 heap_step. destruct (df_empty d) eqn:He; cbn [negb]; [heap_steps|].
    heap_step.
    eapply triple_mono.
    { apply triple_base; [done|].
      by apply (clean_inequality_data_new h1 item.2 d). }
    simpl. intros r2 h2 Hpre2 [Hgrow Hfresh2].
    assert (fresh h h2 r2).
    { apply prefix_length in Hpre1. unfold fresh in *. lia. }
    heap_steps. }
  simpl. intros cleaned_dfs h1 Hpre1 _.
  case_decide; [heap_steps|].
  heap_step.
  eapply triple_mono.
  { apply (triple_for_fold h _ _ _ h1 (λ _ h', length h1 ≤ length h')); [done..|].
    intros frames item h2 Hpre2 Hlen2. heap_steps. }
  simpl. intros frames h2 Hpre2 Hlen2.
  heap_steps.
Qed.

(** X21.  [merge_data_sources] changes none of the tables it is given,
    nor any other table of the caller, and what it returns is a new
    table.  The column [source] is written into the table that
    [clean_inequality_data] returned; that function returns its argument
    when the argument is empty, but the loop skips the empty tables, so
    the table written to is always a copy. *)
Theorem merge_data_sources_keeps_inputs (dataframes : list (string * ref)) :
  returns_new (merge_data_sources dataframes).
Proof. apply returns_new_intro. intros h. apply merge_data_sources_new. Qed.
End merge_store.

(** ** [standardize_column_names] twice *)

Lemma str_map_map (f g : ascii → ascii) (s : string) :
  str_map f (str_map g s) = str_map (λ a, f (g a)) s.
Proof. induction s as [|a s IH]; [done|]. simpl. by rewrite IH. Qed.

Lemma str_map_ext (f g : ascii → ascii) (s : string) :
  (∀ a, f a = g a) → str_map f s = str_map g s.
Proof. intros Hfg. induction s as [|a s IH]; [done|]. simpl. by rewrite Hfg, IH. Qed.

Lemma ascii_label_idemp (a : ascii) :
  let f a := if decide (ascii_lower a = " "%char) then "_"%char else ascii_lower a in
  f (f a) = f a.
Proof.
  destruct a as [[] [] [] [] [] [] [] []]; vm_compute; reflexivity.
Qed.

Lemma label_idemp (c : string) :
  str_underscore (str_lower (str_underscore (str_lower c)))
  = str_underscore (str_lower c).
Proof.
  unfold str_underscore, str_lower. rewrite !str_map_map.
  apply str_map_ext. intros a. apply (ascii_label_idemp a).
Qed.

(** Every label that [column_mapping] replaces has a capital letter. *)
Lemma column_mapping_keys :
  map_Forall (λ k _, str_underscore (str_lower k) ≠ k) DataCleaning.column_mapping.
Proof. apply (bool_decide_unpack _). vm_compute. reflexivity. Qed.

Lemma column_mapping_standard (c : string) :
  str_underscore (str_lower c) = c →
  default c (DataCleaning.column_mapping !! c) = c.
Proof.
  intros Hc. destruct (DataCleaning.column_mapping !! c) as [v|] eqn:Hv; [|done].
  by destruct (column_mapping_keys c v Hv).
Qed.

Lemma lookup_keyed {A} (value : string → A) (l : list string) (k : string) :
  (list_to_map ((λ c, (c, value c)) <$> l) : gmap string A) !! k
  = if decide (k ∈ l) then Some (value k) else None.
Proof.
  induction l as [|c l IH]; [done|]. cbn [fmap list_fmap list_to_map foldr].
  destruct (decide (c = k)) as [->|Hne].
  - rewrite lookup_insert_eq. by rewrite decide_True by left.
  - rewrite lookup_insert_ne by done. rewrite IH.
    apply decide_ext. rewrite elem_of_cons.
    split; [by right|]. intros [?|?]; [congruence|done].
Qed.

(** A row that has a cell for each column and no other. *)
Lemma row_of_columns (row : gmap string cell) (cols : list string) :
  (∀ k, is_Some (row !! k) ↔ k ∈ cols) →
  list_to_map ((λ c, (c, cell_of row c)) <$> cols) = row.
Proof.
  intros Hdom. apply map_eq. intros k. rewrite lookup_keyed.
  case_decide as Hk.
  - apply Hdom in Hk as [v Hv]. unfold cell_of. by rewrite Hv.
  - symmetry. apply eq_None_not_Some. by rewrite Hdom.
Qed.

Lemma relabel_rows (f : string → string) (d d' : DataFrame) :
  DataCleaning.relabel f d = Ok d' →
  columns d' = f <$> columns d
  ∧ length (rows d') = length (rows d)
  ∧ Forall (λ row, ∀ k, is_Some (row !! k) ↔ k ∈ columns d') (rows d').
Proof.
  intros [= <-]. cbn [columns rows]. split; [done|].
  split; [by rewrite length_fmap|].
  apply Forall_fmap, Forall_forall. intros row _ k. simpl.
  rewrite <- not_eq_None_Some. rewrite <- not_elem_of_list_to_map.
  rewrite <- list_fmap_compose.
  split; [apply dec_stable|]. by intros ? ?.
Qed.

Lemma relabel_fixed (f : string → string) (d : DataFrame) :
  Forall (λ c, f c = c) (columns d) →
  Forall (λ row, ∀ k, is_Some (row !! k) ↔ k ∈ columns d) (rows d) →
  DataCleaning.relabel f d = Ok d.
Proof.
  intros Hcols Hrows. unfold DataCleaning.relabel. destruct d as [cols rws].
  cbn [columns rows] in *. do 2 f_equal.
  - transitivity (id <$> cols); [|apply list_fmap_id].
    apply Forall_fmap_ext_1. eapply Forall_impl; [exact Hcols|]. done.
  - transitivity (id <$> rws); [|apply list_fmap_id].
    apply Forall_fmap_ext_1.
    eapply Forall_impl; [exact Hrows|]. intros row Hrow. simpl.
    etrans; [|apply (row_of_columns row cols Hrow)]. f_equal.
    apply Forall_fmap_ext_1. eapply Forall_impl; [exact Hcols|].
    intros c Hc. simpl. by rewrite Hc.
Qed.

Lemma standardize_column_names_run (d : DataFrame) :
  call DataCleaning.standardize_column_names d =
   (d' ←r DataCleaning.relabel (λ c, default c (DataCleaning.column_mapping !! c)) d;
    DataCleaning.relabel (λ c, str_underscore (str_lower c)) d').
Proof.
  unfold call, DataCleaning.standardize_column_names.
  rewrite (run_from_bind _ _ _ _ _ (exec_copy [d] 0 d eq_refl)).
  erewrite run_from_bind; [|by eapply exec_new; [apply lookup_snoc|]].
  erewrite run_from_bind; [|by eapply exec_update; [apply lookup_snoc|]].
  unfold run_from, ret. by rewrite insert_snoc, lookup_snoc.
Qed.

(** X22.  [standardize_column_names] never fails; it gives each column
    its standard label: the one [column_mapping] has for it, if any, in
    lower case and with underscores for spaces.  Standardizing the
    result again changes nothing. *)
Theorem standardize_column_names_idempotent (d : DataFrame) :
  ∃ d',
    call DataCleaning.standardize_column_names d = Ok d'
    ∧ columns d' = standard_label <$> columns d
    ∧ length (rows d') = length (rows d)
    ∧ call DataCleaning.standardize_column_names d' = Ok d'.
Proof.
  rewrite standardize_column_names_run.
  destruct (DataCleaning.relabel _ d) as [d1|] eqn:H1; [|done]. cbn [rbind].
  destruct (DataCleaning.relabel _ d1) as [d2|] eqn:H2; [|done].
  exists d2. split; [done|].
  pose proof (relabel_rows _ _ _ H1) as (C1 & L1 & _).
  pose proof (relabel_rows _ _ _ H2) as (C2 & L2 & R2).
  assert (Hlabels : Forall (λ c, str_underscore (str_lower c) = c) (columns d2)).
  { rewrite C2. apply Forall_fmap, Forall_forall. intros c _. apply label_idemp. }
  split; [by rewrite C2, C1, <- list_fmap_compose|].
  split; [by rewrite L2, L1|].
  rewrite standardize_column_names_run.
  rewrite (relabel_fixed _ d2); [|..|done].
  - cbn [rbind]. by apply relabel_fixed.
  - eapply Forall_impl; [exact Hlabels|]. intros c Hc.
    by apply column_mapping_standard.
Qed.
